(** * BIP32 hierarchical-deterministic keys: a shallow embedding of
      [ts-src/index.ts] and the properties of its derivation, path and
      serialization code.

    Conventions.
    - A JavaScript [number] that the code treats as an integer is a [Z]; the
      [typeforce] guards reject everything else before it is used.
    - A [Buffer] is a [list byte]; [Buffer.allocUnsafe] returns unspecified
      contents and is a parameter of the development.
    - A thrown exception is the [Err] case of [result]; the message is the one
      of the source ([typeforce] messages are shortened to their type name).
    - The curve library ([tiny-secp256k1]), the hash helpers ([./crypto]) and
      the [bs58check] codec are capability records; their contracts are stated
      as law records and assumed only by the theorems that need them. *)

From Stdlib Require Import String Ascii.
From Stdlib Require Import ZArith List Bool Lia.
From Stdlib.Strings Require Import Byte.
Import ListNotations.
Local Open Scope Z_scope.

Set Implicit Arguments.

(** ** Exceptions *)

Inductive error : Type :=
| TypeError (msg : string)
| RangeError (msg : string).

Inductive result (A : Type) : Type :=
| Ok (a : A)
| Err (e : error).

Arguments Ok {A} a.
Arguments Err {A} e.

Definition bind {A B : Type} (r : result A) (k : A -> result B) : result B :=
  match r with
  | Ok a => k a
  | Err e => Err e
  end.

Notation "x <- r ;; k" := (bind r (fun x => k))
  (at level 61, r at next level, right associativity).

Definition guard (b : bool) (e : error) : result unit :=
  if b then Ok tt else Err e.

(** ** Bytes and big-endian integers *)

Definition Buffer : Type := list byte.

Definition Z_of_byte (b : byte) : Z := Z.of_N (Byte.to_N b).

Definition byte_of_Z (z : Z) : byte :=
  match Byte.of_N (Z.to_N (z mod 256)) with
  | Some b => b
  | None => x00
  end.

(** [be_encode n z]: the [n] low-order bytes of [z], most significant first. *)
Fixpoint be_encode (n : nat) (z : Z) : Buffer :=
  match n with
  | O => []
  | S m => be_encode m (z / 256) ++ [byte_of_Z z]
  end.

(** [be_decode bs]: the unsigned integer whose big-endian bytes are [bs]. *)
Definition be_decode (bs : Buffer) : Z :=
  fold_left (fun acc b => acc * 256 + Z_of_byte b) bs 0.

(** ** Node's [Buffer] methods *)

Definition ERR_OUT_OF_RANGE : error := RangeError "ERR_OUT_OF_RANGE"%string.

(** [buf.slice(start, end)] for [0 <= start <= end]. *)
Definition slice (buf : Buffer) (start stop : nat) : Buffer :=
  firstn (stop - start) (skipn start buf).

(** [buf.slice(start)]. *)
Definition slice_from (buf : Buffer) (start : nat) : Buffer :=
  skipn start buf.

(** [src.copy(target, targetStart)] for [targetStart] within [target]:
    overwrites [target] from [targetStart] with as many bytes of [src] as
    fit; returns the updated target. *)
Definition copy (src target : Buffer) (targetStart : nat) : Buffer :=
  firstn targetStart target
    ++ firstn (length target - targetStart) src
    ++ skipn (targetStart + length src) target.

(** [buf.writeUInt8(value, offset)]. *)
Definition writeUInt8 (buf : Buffer) (value : Z) (offset : nat) : result Buffer :=
  if negb ((0 <=? value) && (value <=? 255)) then Err ERR_OUT_OF_RANGE
  else if negb (offset + 1 <=? length buf)%nat then Err ERR_OUT_OF_RANGE
  else Ok (copy [byte_of_Z value] buf offset).

(** [buf.writeUInt32BE(value, offset)]. *)
Definition writeUInt32BE (buf : Buffer) (value : Z) (offset : nat) : result Buffer :=
  if negb ((0 <=? value) && (value <=? 4294967295)) then Err ERR_OUT_OF_RANGE
  else if negb (offset + 4 <=? length buf)%nat then Err ERR_OUT_OF_RANGE
  else Ok (copy (be_encode 4 value) buf offset).

(** [buf.readUInt8(offset)]. *)
Definition readUInt8 (buf : Buffer) (offset : nat) : result Z :=
  match nth_error buf offset with
  | Some b => Ok (Z_of_byte b)
  | None => Err ERR_OUT_OF_RANGE
  end.

(** [buf.readUInt32BE(offset)]. *)
Definition readUInt32BE (buf : Buffer) (offset : nat) : result Z :=
  if (offset + 4 <=? length buf)%nat
  then Ok (be_decode (slice buf offset (offset + 4)))
  else Err ERR_OUT_OF_RANGE.

(** ** [typeforce] guards *)

Definition typeforce {A : Type} (type : A -> bool) (name : string) (value : A)
  : result unit :=
  guard (type value) (TypeError ("Expected " ++ name)).

Definition UInt8 (value : Z) : bool := (0 <=? value) && (value <=? 255).
Definition UInt32 (value : Z) : bool := (0 <=? value) && (value <=? 4294967295).
Definition BufferN (n : nat) (value : Buffer) : bool := (length value =? n)%nat.

Definition UINT256_TYPE : Buffer -> bool := BufferN 32.

(** ** Network parameters *)

Record Bip32Versions : Type := { public : Z; private : Z }.
Record Network : Type := { wif : Z; bip32 : Bip32Versions }.

Definition NETWORK_TYPE (network : Network) : bool :=
  UInt8 (wif network)
  && UInt32 (public (bip32 network))
  && UInt32 (private (bip32 network)).

Definition BITCOIN : Network :=
  {| wif := 0x80;
     bip32 := {| public := 0x0488b21e; private := 0x0488ade4 |} |}.

Definition HIGHEST_BIT : Z := 0x80000000.
Definition UINT31_MAX : Z := 2 ^ 31 - 1.

Definition UInt31 (value : Z) : bool := UInt32 value && (value <=? UINT31_MAX).

(** [network || BITCOIN] *)
Definition or_BITCOIN (network : option Network) : Network :=
  match network with
  | Some n => n
  | None => BITCOIN
  end.

(** ** External capabilities *)

(** [tiny-secp256k1].  [None] is JavaScript's [null]; [Err] is the library's
    own [TypeError] on an argument it does not accept. *)
Record Ecc : Type := {
  isPrivate : Buffer -> bool;
  isPoint : Buffer -> bool;
  pointFromScalar : Buffer -> result (option Buffer);
  privateAdd : Buffer -> Buffer -> result (option Buffer);
  pointAddScalar : Buffer -> Buffer -> result (option Buffer)
}.

(** [./crypto] *)
Record Crypto : Type := {
  hash160 : Buffer -> Buffer;
  hmacSHA512 : Buffer -> Buffer -> Buffer
}.

(** [bs58check] *)
Record Bs58check : Type := {
  encode : Buffer -> string;
  decode : string -> result Buffer
}.

(** ** The node *)

Record BIP32 : Type := {
  __d : option Buffer;
  __Q : option Buffer;
  chainCode : Buffer;
  network : Network;
  depth : Z;
  index : Z;
  parentFingerprint : Z
}.

Definition set_depth (hd : BIP32) (v : Z) : BIP32 :=
  {| __d := __d hd; __Q := __Q hd; chainCode := chainCode hd;
     network := network hd; depth := v; index := index hd;
     parentFingerprint := parentFingerprint hd |}.

Definition set_index (hd : BIP32) (v : Z) : BIP32 :=
  {| __d := __d hd; __Q := __Q hd; chainCode := chainCode hd;
     network := network hd; depth := depth hd; index := v;
     parentFingerprint := parentFingerprint hd |}.

Definition set_parentFingerprint (hd : BIP32) (v : Z) : BIP32 :=
  {| __d := __d hd; __Q := __Q hd; chainCode := chainCode hd;
     network := network hd; depth := depth hd; index := index hd;
     parentFingerprint := v |}.

(** The constructor. *)
Definition new_BIP32 (d Q : option Buffer) (chainCode : Buffer) (network : Network)
  : result BIP32 :=
  _ <- typeforce NETWORK_TYPE "Network" network ;;
  Ok {| __d := d; __Q := Q; chainCode := chainCode; network := network;
        depth := 0; index := 0; parentFingerprint := 0 |}.

Definition privateKey (this : BIP32) : option Buffer := __d this.

(** Private === not neutered, Public === neutered. *)
Definition isNeutered (this : BIP32) : bool :=
  match __d this with
  | None => true
  | Some _ => false
  end.

(** ** Strings: the path pattern, [split], [parseInt] *)

(** Regular expressions over characters, matched by derivatives. *)
Inductive regex : Type :=
| Void
| Eps
| Lit (c : ascii)
| Digit
| Cat (r1 r2 : regex)
| Alt (r1 r2 : regex)
| Star (r : regex).

Definition Opt (r : regex) : regex := Alt r Eps.
Definition Plus (r : regex) : regex := Cat r (Star r).

(** [\d] *)
Definition is_digit (c : ascii) : bool :=
  ((48 <=? nat_of_ascii c) && (nat_of_ascii c <=? 57))%nat.

Fixpoint nullable (r : regex) : bool :=
  match r with
  | Void => false
  | Eps => true
  | Lit _ => false
  | Digit => false
  | Cat r1 r2 => nullable r1 && nullable r2
  | Alt r1 r2 => nullable r1 || nullable r2
  | Star _ => true
  end.

Fixpoint deriv (c : ascii) (r : regex) : regex :=
  match r with
  | Void => Void
  | Eps => Void
  | Lit c' => if Ascii.eqb c c' then Eps else Void
  | Digit => if is_digit c then Eps else Void
  | Cat r1 r2 =>
      if nullable r1 then Alt (Cat (deriv c r1) r2) (deriv c r2)
      else Cat (deriv c r1) r2
  | Alt r1 r2 => Alt (deriv c r1) (deriv c r2)
  | Star r1 => Cat (deriv c r1) (Star r1)
  end.

(** Whole-string match: the pattern is anchored by [^] and [$]. *)
Fixpoint matches (r : regex) (s : string) : bool :=
  match s with
  | EmptyString => nullable r
  | String c s' => matches (deriv c r) s'
  end.

(** [/^(m\/)?(\d+'?\/)*\d+'?$/] *)
Definition BIP32Path_regex : regex :=
  Cat (Opt (Cat (Lit "m") (Lit "/")))
      (Cat (Star (Cat (Plus Digit) (Cat (Opt (Lit "'")) (Lit "/"))))
           (Cat (Plus Digit) (Opt (Lit "'")))).

Definition BIP32Path (value : string) : bool := matches BIP32Path_regex value.

(** [s.split(sep)] for a one-character separator. *)
Fixpoint split (sep : ascii) (s : string) : list string :=
  match s with
  | EmptyString => [EmptyString]
  | String c rest =>
      if Ascii.eqb c sep then EmptyString :: split sep rest
      else
        match split sep rest with
        | h :: t => String c h :: t
        | [] => [String c EmptyString]
        end
  end.

(** [s.slice(-1)] and [s.slice(0, -1)]. *)
Fixpoint slice_last (s : string) : string :=
  match s with
  | EmptyString => EmptyString
  | String c EmptyString => s
  | String _ rest => slice_last rest
  end.

Fixpoint slice_init (s : string) : string :=
  match s with
  | EmptyString => EmptyString
  | String c EmptyString => EmptyString
  | String c rest => String c (slice_init rest)
  end.

(** [parseInt(s, 10)] on the strings that reach it here, which start with a
    digit or are empty: the value of the leading run of decimal digits, and
    [None] (JavaScript's [NaN]) when there is none. *)
Fixpoint parseInt_digits (s : string) (acc : Z) : Z :=
  match s with
  | EmptyString => acc
  | String c rest =>
      if is_digit c
      then parseInt_digits rest (acc * 10 + (Z.of_nat (nat_of_ascii c) - 48))
      else acc
  end.

Definition parseInt (s : string) : option Z :=
  match s with
  | EmptyString => None
  | String c _ => if is_digit c then Some (parseInt_digits s 0) else None
  end.

Inductive attempt : Type :=
| Retry
| Done (r : result BIP32).

Section Node.

Variable ecc : Ecc.
Variable crypto : Crypto.
Variable bs58check : Bs58check.
(** [Buffer.allocUnsafe n]: [n] bytes of unspecified content. *)
Variable allocUnsafe : nat -> Buffer.

(** The [publicKey] getter.  The write to the [__Q] cache is not modelled: the
    cached value is the one recomputed here.  A [null] point makes every use
    in this file throw a [TypeError], which is raised here. *)
Definition publicKey (this : BIP32) : result Buffer :=
  match __Q this with
  | Some Q => Ok Q
  | None =>
      match __d this with
      | None => Err (TypeError "Expected Private")
      | Some d =>
          Q <- pointFromScalar ecc d ;;
          match Q with
          | Some Q => Ok Q
          | None => Err (TypeError "Expected Buffer, got null")
          end
      end
  end.

Definition identifier (this : BIP32) : result Buffer :=
  Q <- publicKey this ;;
  Ok (hash160 crypto Q).

Definition fingerprint (this : BIP32) : result Buffer :=
  id <- identifier this ;;
  Ok (slice id 0 4).

Definition fromPrivateKey (privateKey chainCode : Buffer) (network : option Network)
  : result BIP32 :=
  _ <- typeforce UINT256_TYPE "property privateKey of type Buffer(Length: 32)" privateKey ;;
  _ <- typeforce UINT256_TYPE "property chainCode of type Buffer(Length: 32)" chainCode ;;
  let network := or_BITCOIN network in
  if negb (isPrivate ecc privateKey)
  then Err (TypeError "Private key not in range [1, n)")
  else new_BIP32 (Some privateKey) None chainCode network.

Definition fromPublicKey (publicKey chainCode : Buffer) (network : option Network)
  : result BIP32 :=
  _ <- typeforce (BufferN 33) "property publicKey of type Buffer(Length: 33)" publicKey ;;
  _ <- typeforce UINT256_TYPE "property chainCode of type Buffer(Length: 32)" chainCode ;;
  let network := or_BITCOIN network in
  if negb (isPoint ecc publicKey)
  then Err (TypeError "Point is not on the curve")
  else new_BIP32 None (Some publicKey) chainCode network.

Definition neutered (this : BIP32) : result BIP32 :=
  Q <- publicKey this ;;
  neutered <- fromPublicKey Q (chainCode this) (Some (network this)) ;;
  let neutered := set_depth neutered (depth this) in
  let neutered := set_index neutered (index this) in
  let neutered := set_parentFingerprint neutered (parentFingerprint this) in
  Ok neutered.

(** The 78-byte payload of [toBase58], before the text encoding. *)
Definition toBase58_buffer (this : BIP32) : result Buffer :=
  let network := network this in
  let version :=
    if negb (isNeutered this) then private (bip32 network)
    else public (bip32 network) in
  let buffer := allocUnsafe 78 in
  buffer <- writeUInt32BE buffer version 0 ;;
  buffer <- writeUInt8 buffer (depth this) 4 ;;
  buffer <- writeUInt32BE buffer (parentFingerprint this) 5 ;;
  buffer <- writeUInt32BE buffer (index this) 9 ;;
  let buffer := copy (chainCode this) buffer 13 in
  match privateKey this with
  | Some d =>
      buffer <- writeUInt8 buffer 0 45 ;;
      Ok (copy d buffer 46)
  | None =>
      Q <- publicKey this ;;
      Ok (copy Q buffer 45)
  end.

Definition toBase58 (this : BIP32) : result string :=
  buffer <- toBase58_buffer this ;;
  Ok (encode bs58check buffer).

(** Lines 168-186 of [derive]: the 37-byte HMAC message. *)
Definition derive_data (this : BIP32) (index : Z) : result Buffer :=
  let isHardened := HIGHEST_BIT <=? index in
  let data := allocUnsafe 37 in
  if isHardened then
    match privateKey this with
    | None => Err (TypeError "Missing private key for hardened child key")
    | Some d =>
        let data := copy [x00] data 0 in
        let data := copy d data 1 in
        writeUInt32BE data index 33
    end
  else
    Q <- publicKey this ;;
    let data := copy Q data 0 in
    writeUInt32BE data index 33.

(** Lines 218-221 of [derive]. *)
Definition derive_position (this : BIP32) (index : Z) (hd : BIP32) : result BIP32 :=
  let hd := set_depth hd (depth this + 1) in
  let hd := set_index hd index in
  fp <- fingerprint this ;;
  pf <- readUInt32BE fp 0 ;;
  Ok (set_parentFingerprint hd pf).

(** One activation of [derive], up to its tail call: [Retry] stands for
    [return this.derive(index + 1)]. *)
Definition derive_attempt (this : BIP32) (index : Z) : attempt :=
  match typeforce UInt32 "UInt32" index with
  | Err e => Done (Err e)
  | Ok _ =>
  match derive_data this index with
  | Err e => Done (Err e)
  | Ok data =>
      let I := hmacSHA512 crypto (chainCode this) data in
      let IL := slice I 0 32 in
      let IR := slice_from I 32 in
      if negb (isPrivate ecc IL) then Retry
      else
        match privateKey this with
        | Some d =>
            match privateAdd ecc d IL with
            | Err e => Done (Err e)
            | Ok None => Retry
            | Ok (Some ki) =>
                Done (hd <- fromPrivateKey ki IR (Some (network this)) ;;
                      derive_position this index hd)
            end
        | None =>
            match publicKey this with
            | Err e => Done (Err e)
            | Ok Q =>
                match pointAddScalar ecc Q IL with
                | Err e => Done (Err e)
                | Ok None => Retry
                | Ok (Some Ki) =>
                    Done (hd <- fromPublicKey Ki IR (Some (network this)) ;;
                          derive_position this index hd)
                end
            end
        end
  end
  end.

(** [derive_iter n this index] runs at most [2 ^ n] activations starting at
    [index]; [inl j] means that all of them retried and the next index is
    [j]. *)
Fixpoint derive_iter (n : nat) (this : BIP32) (index : Z) : Z + result BIP32 :=
  match n with
  | O =>
      match derive_attempt this index with
      | Retry => inl (index + 1)
      | Done r => inr r
      end
  | S m =>
      match derive_iter m this index with
      | inl j => derive_iter m this j
      | inr r => inr r
      end
  end.

(** [derive]: the recursion of the source ends at the latest when the index
    leaves the [UInt32] range, so [2 ^ 33] activations are never exhausted
    (lemma [derive_unfold] below gives back the source's equation). *)
Definition derive (this : BIP32) (index : Z) : result BIP32 :=
  match derive_iter 33 this index with
  | inr r => r
  | inl _ => Err (RangeError "Maximum call stack size exceeded")
  end.

(** The recursion as the source writes it: an activation either returns or
    tail-calls itself at [index + 1]. *)
Inductive derives (this : BIP32) : Z -> result BIP32 -> Prop :=
| derives_done : forall index r,
    derive_attempt this index = Done r -> derives this index r
| derives_retry : forall index r,
    derive_attempt this index = Retry ->
    derives this (index + 1) r -> derives this index r.

Definition deriveHardened (this : BIP32) (index : Z) : result BIP32 :=
  _ <- typeforce UInt31 "UInt31" index ;;
  derive this (index + HIGHEST_BIT).

(** [buffer[4]] is read after the length check, where it is in range, and is
    written as [readUInt8]. *)
Definition fromBase58 (string : string) (network : option Network) : result BIP32 :=
  buffer <- decode bs58check string ;;
  if negb (length buffer =? 78)%nat then Err (TypeError "Invalid buffer length")
  else
  let network := or_BITCOIN network in
  version <- readUInt32BE buffer 0 ;;
  if negb (version =? private (bip32 network))
     && negb (version =? public (bip32 network))
  then Err (TypeError "Invalid network version")
  else
  depth <- readUInt8 buffer 4 ;;
  parentFingerprint <- readUInt32BE buffer 5 ;;
  if (depth =? 0) && negb (parentFingerprint =? 0)
  then Err (TypeError "Invalid parent fingerprint")
  else
  index <- readUInt32BE buffer 9 ;;
  if (depth =? 0) && negb (index =? 0) then Err (TypeError "Invalid index")
  else
  let chainCode := slice buffer 13 45 in
  hd <-
    (if version =? private (bip32 network) then
       b45 <- readUInt8 buffer 45 ;;
       if negb (b45 =? 0) then Err (TypeError "Invalid private key")
       else
         let k := slice buffer 46 78 in
         fromPrivateKey k chainCode (Some network)
     else
       let X := slice buffer 45 78 in
       fromPublicKey X chainCode (Some network)) ;;
  let hd := set_depth hd depth in
  let hd := set_index hd index in
  let hd := set_parentFingerprint hd parentFingerprint in
  Ok hd.

(** [Buffer.from('Bitcoin seed', 'utf8')] *)
Definition Bitcoin_seed : Buffer :=
  List.map byte_of_ascii (list_ascii_of_string "Bitcoin seed").

(** [seed] is a [Buffer] by its type, so the [typeforce.Buffer] guard passes. *)
Definition fromSeed (seed : Buffer) (network : option Network) : result BIP32 :=
  if (length seed <? 16)%nat then Err (TypeError "Seed should be at least 128 bits")
  else if (64 <? length seed)%nat then Err (TypeError "Seed should be at most 512 bits")
  else
  let network := or_BITCOIN network in
  let I := hmacSHA512 crypto Bitcoin_seed seed in
  let IL := slice I 0 32 in
  let IR := slice_from I 32 in
  fromPrivateKey IL IR (Some network).

(** [derive] applied to the result of [parseInt]; [NaN] fails the [UInt32]
    guard. *)
Definition derive_number (this : BIP32) (index : option Z) : result BIP32 :=
  match index with
  | Some i => derive this i
  | None => Err (TypeError "Expected UInt32")
  end.

Definition deriveHardened_number (this : BIP32) (index : option Z) : result BIP32 :=
  match index with
  | Some i => deriveHardened this i
  | None => Err (TypeError "Expected UInt31")
  end.

Definition derivePath (this : BIP32) (path : string) : result BIP32 :=
  _ <- typeforce BIP32Path "BIP32Path" path ;;
  let splitPath := split "/" path in
  splitPath <-
    (if String.eqb (hd EmptyString splitPath) "m" then
       if negb (parentFingerprint this =? 0)
       then Err (TypeError "Expected master, got child")
       else Ok (tl splitPath)
     else Ok splitPath) ;;
  fold_left
    (fun prevHd indexStr =>
       prevHd <- prevHd ;;
       if String.eqb (slice_last indexStr) "'" then
         let index := parseInt (slice_init indexStr) in
         deriveHardened_number prevHd index
       else
         let index := parseInt indexStr in
         derive_number prevHd index)
    splitPath (Ok this).

End Node.

(** ** Named error values and the retry condition *)

Definition MISSING_PRIVATE_KEY : error :=
  TypeError "Missing private key for hardened child key".
Definition SEED_TOO_SHORT : error := TypeError "Seed should be at least 128 bits".
Definition SEED_TOO_LONG : error := TypeError "Seed should be at most 512 bits".
Definition PRIVATE_KEY_NOT_IN_RANGE : error :=
  TypeError "Private key not in range [1, n)".
Definition EXPECTED_UINT32 : error := TypeError "Expected UInt32".
Definition EXPECTED_BIP32PATH : error := TypeError "Expected BIP32Path".

(** The activation of [derive] at [index] reaches one of its three
    [return this.derive(index + 1)]: [IL] is not a scalar in range, or the
    child scalar is 0 modulo [n] (private parent), or the child point is the
    point at infinity (neutered parent). *)
Definition retries (ecc : Ecc) (crypto : Crypto) (allocUnsafe : nat -> Buffer)
  (this : BIP32) (index : Z) : Prop :=
  UInt32 index = true
  /\ exists data,
      derive_data ecc allocUnsafe this index = Ok data
      /\ let IL := slice (hmacSHA512 crypto (chainCode this) data) 0 32 in
         isPrivate ecc IL = false
         \/ (isPrivate ecc IL = true
             /\ match privateKey this with
                | Some d => privateAdd ecc d IL = Ok None
                | None =>
                    exists Q, publicKey ecc this = Ok Q
                              /\ pointAddScalar ecc Q IL = Ok None
                end).

(** ** Fields of a decoded payload *)

Definition payload_version (buf : Buffer) : Z := be_decode (slice buf 0 4).
Definition payload_depth (buf : Buffer) : Z := be_decode (slice buf 4 5).
Definition payload_parentFingerprint (buf : Buffer) : Z := be_decode (slice buf 5 9).
Definition payload_index (buf : Buffer) : Z := be_decode (slice buf 9 13).
Definition payload_chainCode (buf : Buffer) : Buffer := slice buf 13 45.
Definition payload_marker (buf : Buffer) : Z := be_decode (slice buf 45 46).
Definition payload_scalar (buf : Buffer) : Buffer := slice buf 46 78.
Definition payload_point (buf : Buffer) : Buffer := slice buf 45 78.

Definition INVALID_BUFFER_LENGTH : error := TypeError "Invalid buffer length".
Definition INVALID_NETWORK_VERSION : error := TypeError "Invalid network version".
Definition INVALID_PRIVATE_KEY : error := TypeError "Invalid private key".
Definition POINT_NOT_ON_CURVE : error := TypeError "Point is not on the curve".

(** ** Contracts of the capabilities, and valid nodes *)

(** What the curve library guarantees on the arguments the node code passes:
    a scalar in [[1, n)] has a compressed 33-byte point, and adding a tweak to
    a scalar and to its point agree, [null] results included. *)
Record EccLaws (ecc : Ecc) : Prop := {
  pointFromScalar_private : forall d,
    isPrivate ecc d = true ->
    exists Q, pointFromScalar ecc d = Ok (Some Q)
              /\ isPoint ecc Q = true /\ length Q = 33%nat;
  privateAdd_pointAddScalar : forall d t Q,
    isPrivate ecc d = true -> isPrivate ecc t = true ->
    pointFromScalar ecc d = Ok (Some Q) ->
    match privateAdd ecc d t with
    | Ok None => pointAddScalar ecc Q t = Ok None
    | Ok (Some k) =>
        isPrivate ecc k = true
        /\ exists Q', pointFromScalar ecc k = Ok (Some Q')
                      /\ pointAddScalar ecc Q t = Ok (Some Q')
    | Err _ => False
    end
}.

Record CryptoLaws (crypto : Crypto) : Prop := {
  length_hmacSHA512 : forall key data, length (hmacSHA512 crypto key data) = 64%nat;
  length_hash160 : forall data, length (hash160 crypto data) = 20%nat
}.

Record Bs58checkLaws (bs58check : Bs58check) : Prop := {
  decode_encode : forall buf, decode bs58check (encode bs58check buf) = Ok buf
}.

Definition AllocLaw (allocUnsafe : nat -> Buffer) : Prop :=
  forall n, length (allocUnsafe n) = n.

(** The key material of a node produced by the factories: a private node
    holds a 32-byte scalar in range (and, once [publicKey] was read, its
    point); a neutered node holds a 33-byte point on the curve. *)
Definition valid_key (ecc : Ecc) (this : BIP32) : Prop :=
  match __d this, __Q this with
  | Some d, None => length d = 32%nat /\ isPrivate ecc d = true
  | Some d, Some Q =>
      length d = 32%nat /\ isPrivate ecc d = true
      /\ pointFromScalar ecc d = Ok (Some Q)
  | None, Some Q => length Q = 33%nat /\ isPoint ecc Q = true
  | None, None => False
  end.

(** A node of the data model: fields in their documented ranges, and the
    documented values of a root. *)
Definition valid_node (ecc : Ecc) (this : BIP32) : Prop :=
  NETWORK_TYPE (network this) = true
  /\ 0 <= depth this <= 255
  /\ UInt32 (index this) = true
  /\ UInt32 (parentFingerprint this) = true
  /\ length (chainCode this) = 32%nat
  /\ (depth this = 0 -> parentFingerprint this = 0 /\ index this = 0)
  /\ valid_key ecc this.

(** ** A reference instance of the capabilities

    The additive group of integers modulo the curve order, generated by 1,
    stands in for the curve: the point [k * G] is written [0x02] followed by
    the 32 bytes of [k].  The hash and the codec are simple total functions of
    the right shapes.  The instance shows that the contracts above can be met
    and lets concrete derivations run. *)
Module Reference.

Definition n : Z :=
  0xFFFFFFFFFFFFFFFFFFFFFFFFFFFFFFFEBAAEDCE6AF48A03BBFD25E8CD0364141.

Definition isPrivate (d : Buffer) : bool :=
  BufferN 32 d && (0 <? be_decode d) && (be_decode d <? n).

Definition isOrderScalar (t : Buffer) : bool :=
  BufferN 32 t && (be_decode t <? n).

Definition isPoint (p : Buffer) : bool :=
  match p with
  | x02 :: k => isPrivate k
  | _ => false
  end.

Definition pointFromScalar (d : Buffer) : result (option Buffer) :=
  if negb (isPrivate d) then Err (TypeError "Expected Private")
  else Ok (Some (x02 :: d)).

Definition privateAdd (d t : Buffer) : result (option Buffer) :=
  if negb (isPrivate d) then Err (TypeError "Expected Private")
  else if negb (isOrderScalar t) then Err (TypeError "Expected Tweak")
  else
    let s := (be_decode d + be_decode t) mod n in
    if s =? 0 then Ok None else Ok (Some (be_encode 32 s)).

Definition pointAddScalar (p t : Buffer) : result (option Buffer) :=
  if negb (isPoint p) then Err (TypeError "Expected Point")
  else if negb (isOrderScalar t) then Err (TypeError "Expected Tweak")
  else
    let s := (be_decode (tl p) + be_decode t) mod n in
    if s =? 0 then Ok None else Ok (Some (x02 :: be_encode 32 s)).

Definition ecc : Ecc :=
  Build_Ecc isPrivate isPoint pointFromScalar privateAdd pointAddScalar.

(** 64 bytes: [IL] is the last byte of the message plus one (so a message
    ending in [0xff] yields the scalar 0, which is out of range), [IR] the
    first 32 bytes of the zero-padded key. *)
Definition hmacSHA512 (key data : Buffer) : Buffer :=
  (repeat x00 31 ++ [byte_of_Z (Z_of_byte (last data x00) + 1)])
    ++ firstn 32 (key ++ repeat x00 32).

Definition hash160 (data : Buffer) : Buffer :=
  firstn 20 (data ++ repeat x00 20).

Definition crypto : Crypto := Build_Crypto hash160 hmacSHA512.

Definition encode (buf : Buffer) : string :=
  string_of_list_ascii (List.map ascii_of_byte buf).

Definition decode (s : string) : result Buffer :=
  Ok (List.map byte_of_ascii (list_ascii_of_string s)).

Definition bs58check : Bs58check := Build_Bs58check encode decode.

Definition allocUnsafe (len : nat) : Buffer := repeat xaa len.

(** Sample nodes: a private root with scalar 5, and the same key material
    placed at other positions of the tree. *)
Definition scalar5 : Buffer := be_encode 32 5.
Definition chain0 : Buffer := repeat x01 32.

Definition root5 : BIP32 :=
  {| __d := Some scalar5; __Q := None; chainCode := chain0;
     network := BITCOIN; depth := 0; index := 0; parentFingerprint := 0 |}.

Definition point5 : BIP32 :=
  {| __d := None; __Q := Some (x02 :: scalar5); chainCode := chain0;
     network := BITCOIN; depth := 0; index := 0; parentFingerprint := 0 |}.

Definition deep5 : BIP32 :=
  {| __d := Some scalar5; __Q := None; chainCode := chain0;
     network := BITCOIN; depth := 255; index := 7; parentFingerprint := 9 |}.

(** A network record that passes [NETWORK_TYPE] and uses one version word
    for both kinds of key. *)
Definition one_word : Network :=
  {| wif := 0x80; bip32 := {| public := 0x0488b21e; private := 0x0488b21e |} |}.

Definition point5_one_word : BIP32 :=
  {| __d := None; __Q := Some (x02 :: scalar5); chainCode := chain0;
     network := one_word; depth := 0; index := 0; parentFingerprint := 0 |}.

(** A private payload whose scalar is 0: version, depth, fingerprint, index,
    chain code, marker byte, key. *)
Definition zero_key_payload : Buffer :=
  be_encode 4 0x0488ade4 ++ [x00] ++ be_encode 4 0 ++ be_encode 4 0
    ++ chain0 ++ [x00] ++ repeat x00 32.

End Reference.

(** ** Private-key export and signatures *)

(** [wif]: [wif.encode(version, privateKey, compressed)]. *)
Record WifCodec : Type := {
  wif_encode : Z -> Buffer -> bool -> result string
}.

(** [tiny-secp256k1], signing part: [ecc.sign(hash, d)] and
    [ecc.verify(hash, Q, signature)]. *)
Record EccSign : Type := {
  ecc_sign : Buffer -> Buffer -> result Buffer;
  ecc_verify : Buffer -> Buffer -> Buffer -> result bool
}.

Section KeyExport.

Variable ecc : Ecc.
Variable wifc : WifCodec.
Variable eccs : EccSign.

Definition toWIF (this : BIP32) : result string :=
  match privateKey this with
  | None => Err (TypeError "Missing private key")
  | Some d => wif_encode wifc (wif (network this)) d true
  end.

(** [ecc.sign] rejects an [undefined] key with its own [TypeError]. *)
Definition sign (this : BIP32) (hash : Buffer) : result Buffer :=
  match privateKey this with
  | None => Err (TypeError "Expected Private")
  | Some d => ecc_sign eccs hash d
  end.

Definition verify (this : BIP32) (hash signature : Buffer) : result bool :=
  Q <- publicKey ecc this ;;
  ecc_verify eccs hash Q signature.

End KeyExport.

(** What the signing part guarantees: a signature made with a scalar in range
    over a 32-byte hash verifies against the scalar's point. *)
Record EccSignLaws (ecc : Ecc) (eccs : EccSign) : Prop := {
  sign_verify : forall hash d Q,
    length hash = 32%nat -> isPrivate ecc d = true ->
    pointFromScalar ecc d = Ok (Some Q) ->
    exists signature,
      ecc_sign eccs hash d = Ok signature
      /\ ecc_verify eccs hash Q signature = Ok true
}.

Definition EXPECTED_UINT31 : error := TypeError "Expected UInt31".

Definition MISSING_PRIVATE_KEY_WIF : error := TypeError "Missing private key".

(** The extended-key payload, field by field. *)
Definition version_word (this : BIP32) : Z :=
  if negb (isNeutered this) then private (bip32 (network this))
  else public (bip32 (network this)).

Definition key_material (this : BIP32) : Buffer :=
  match __d this, __Q this with
  | Some d, _ => x00 :: d
  | None, Some Q => Q
  | None, None => []
  end.

Definition payload_of (this : BIP32) : Buffer :=
  be_encode 4 (version_word this)
    ++ [byte_of_Z (depth this)]
    ++ be_encode 4 (parentFingerprint this)
    ++ be_encode 4 (index this)
    ++ chainCode this
    ++ key_material this.

(** A root: depth 0 with zero index and parent fingerprint. *)
Definition is_root (hd : BIP32) : Prop :=
  depth hd = 0 /\ index hd = 0 /\ parentFingerprint hd = 0.

(** The codec also decodes back to what it encoded. *)
Definition Bs58checkCanonical (bs58check : Bs58check) : Prop :=
  forall s buf, decode bs58check s = Ok buf -> encode bs58check buf = s.

(** ** Paths as lists of segments *)

(** The language of a pattern. *)
Inductive lang : regex -> string -> Prop :=
| lang_Eps : lang Eps EmptyString
| lang_Lit : forall c, lang (Lit c) (String c EmptyString)
| lang_Digit : forall c, is_digit c = true -> lang Digit (String c EmptyString)
| lang_Cat : forall r1 r2 s1 s2,
    lang r1 s1 -> lang r2 s2 -> lang (Cat r1 r2) (s1 ++ s2)
| lang_AltL : forall r1 r2 s, lang r1 s -> lang (Alt r1 r2) s
| lang_AltR : forall r1 r2 s, lang r2 s -> lang (Alt r1 r2) s
| lang_Star0 : forall r, lang (Star r) EmptyString
| lang_StarS : forall r s1 s2,
    lang r s1 -> lang (Star r) s2 -> lang (Star r) (s1 ++ s2).

Fixpoint all_digits (s : string) : bool :=
  match s with
  | EmptyString => true
  | String c rest => is_digit c && all_digits rest
  end.

(** A decimal index: one or more digits. *)
Definition decimal (ds : string) : bool :=
  negb (String.eqb ds "") && all_digits ds.

(** A segment: whether it carries the hardened mark ['], and its digits. *)
Definition segment : Type := (bool * string)%type.

Definition segment_string (seg : segment) : string :=
  if fst seg then (snd seg ++ "'")%string else snd seg.

Fixpoint join (sep : string) (l : list string) : string :=
  match l with
  | [] => EmptyString
  | [x] => x
  | x :: rest => (x ++ sep ++ join sep rest)%string
  end.

(** The text of a path: the optional [m/] and the segments joined by [/]. *)
Definition render (master : bool) (segs : list segment) : string :=
  ((if master then "m/" else "") ++ join "/" (List.map segment_string segs))%string.

(** A well-formed segment has a decimal index. *)
Definition segment_ok (seg : segment) : Prop := decimal (snd seg) = true.

(** The leading part of a path: every segment followed by [/]. *)
Fixpoint blocks (segs : list segment) : string :=
  match segs with
  | [] => EmptyString
  | seg :: rest => (segment_string seg ++ "/" ++ blocks rest)%string
  end.

Fixpoint no_slash (s : string) : bool :=
  match s with
  | EmptyString => true
  | String c rest => negb (Ascii.eqb c "/") && no_slash rest
  end.

Definition EXPECTED_MASTER : error := TypeError "Expected master, got child".

Section Segments.

Variable ecc : Ecc.
Variable crypto : Crypto.
Variable allocUnsafe : nat -> Buffer.

(** What one segment does to the node derived so far. *)
Definition apply_segment (prevHd : result BIP32) (seg : segment) : result BIP32 :=
  prevHd <- prevHd ;;
  if fst seg
  then deriveHardened ecc crypto allocUnsafe prevHd (parseInt_digits (snd seg) 0)
  else derive ecc crypto allocUnsafe prevHd (parseInt_digits (snd seg) 0).

End Segments.

(** ** A reference instance of the export and signing capabilities *)
Module ReferenceExport.

(** The version byte, the key and the compression flag, as text. *)
Definition wif_encode (version : Z) (d : Buffer) (compressed : bool)
  : result string :=
  if negb (BufferN 32 d) then Err (TypeError "Invalid privateKey length")
  else Ok (Reference.encode
             ([byte_of_Z version] ++ d ++ (if compressed then [x01] else []))).

Definition wifc : WifCodec := Build_WifCodec wif_encode.

Fixpoint Buffer_eqb (a b : Buffer) : bool :=
  match a, b with
  | [], [] => true
  | x :: a', y :: b' => Byte.eqb x y && Buffer_eqb a' b'
  | _, _ => false
  end.

(** A signature is the scalar followed by the hash; it verifies against the
    point of that scalar. *)
Definition ecc_sign (hash d : Buffer) : result Buffer :=
  if negb (BufferN 32 hash) then Err (TypeError "Expected Hash")
  else if negb (Reference.isPrivate d) then Err (TypeError "Expected Private")
  else Ok (d ++ hash).

Definition ecc_verify (hash Q signature : Buffer) : result bool :=
  if negb (BufferN 32 hash) then Err (TypeError "Expected Hash")
  else if negb (Reference.isPoint Q) then Err (TypeError "Expected Point")
  else Ok (Buffer_eqb Q (x02 :: firstn 32 signature)
           && Buffer_eqb hash (skipn 32 signature)).

Definition eccs : EccSign := Build_EccSign ecc_sign ecc_verify.

Definition hash1 : Buffer := repeat x07 32.

End ReferenceExport.

(** * Properties *)

(** ** Bytes and big-endian integers *)

Lemma Z_of_byte_range (b : byte) : 0 <= Z_of_byte b < 256.
Proof.
  unfold Z_of_byte. pose proof (Byte.to_N_bounded b) as H.
  split; [apply N2Z.is_nonneg|]. lia.
Qed.

Lemma Z_of_byte_of_Z (z : Z) : Z_of_byte (byte_of_Z z) = z mod 256.
Proof.
  assert (Hm : 0 <= z mod 256 < 256) by (apply Z.mod_pos_bound; lia).
  unfold Z_of_byte, byte_of_Z.
  destruct (Byte.of_N (Z.to_N (z mod 256))) as [b|] eqn:E.
  - apply Byte.to_of_N in E. rewrite E. apply Z2N.id. lia.
  - apply Byte.of_N_None_iff in E. lia.
Qed.

Lemma length_be_encode (n : nat) (z : Z) : length (be_encode n z) = n.
Proof.
  revert z. induction n as [|n IH]; intro z; simpl; [reflexivity|].
  rewrite length_app, IH. simpl. lia.
Qed.

Lemma be_decode_snoc (bs : Buffer) (b : byte) :
  be_decode (bs ++ [b]) = be_decode bs * 256 + Z_of_byte b.
Proof. unfold be_decode. rewrite fold_left_app. reflexivity. Qed.

Lemma be_decode_encode (n : nat) (z : Z) :
  be_decode (be_encode n z) = z mod 2 ^ (8 * Z.of_nat n).
Proof.
  revert z. induction n as [|n IH]; intro z.
  - simpl. rewrite Z.mod_1_r. reflexivity.
  - cbn [be_encode]. rewrite be_decode_snoc, IH, Z_of_byte_of_Z.
    replace (8 * Z.of_nat (S n)) with (8 + 8 * Z.of_nat n) by lia.
    rewrite Z.pow_add_r by lia. change (2 ^ 8) with 256.
    rewrite Z.rem_mul_r by lia. lia.
Qed.

Lemma be_decode_encode_small (n : nat) (z : Z) :
  0 <= z < 2 ^ (8 * Z.of_nat n) -> be_decode (be_encode n z) = z.
Proof. intro H. rewrite be_decode_encode. apply Z.mod_small. exact H. Qed.

(** ** [Buffer] methods *)

Lemma length_slice (buf : Buffer) (start stop : nat) :
  (stop <= length buf)%nat -> length (slice buf start stop) = (stop - start)%nat.
Proof.
  intro H. unfold slice. rewrite length_firstn, length_skipn. lia.
Qed.

Lemma length_copy (src target : Buffer) (off : nat) :
  (off <= length target)%nat -> length (copy src target off) = length target.
Proof.
  intro H. unfold copy.
  rewrite !length_app, !length_firstn, length_skipn. lia.
Qed.

(** Reading back exactly what [copy] wrote. *)
Lemma slice_copy_same (src target : Buffer) (off : nat) :
  (off + length src <= length target)%nat ->
  slice (copy src target off) off (off + length src) = src.
Proof.
  intro H. unfold slice, copy.
  assert (Ha : length (firstn off target) = off)
    by (rewrite length_firstn; lia).
  rewrite skipn_app, Ha, Nat.sub_diag. cbn [skipn].
  rewrite (skipn_all2 (firstn off target)) by lia. cbn [app].
  rewrite (firstn_all2 src) by lia.
  replace (off + length src - off)%nat with (length src + 0)%nat by lia.
  rewrite firstn_app_2. cbn [firstn]. apply app_nil_r.
Qed.

(** A range disjoint from the one [copy] wrote is unchanged. *)
Lemma slice_copy_other (src target : Buffer) (off start stop : nat) :
  (off + length src <= length target)%nat ->
  (stop <= off \/ off + length src <= start)%nat ->
  slice (copy src target off) start stop = slice target start stop.
Proof.
  intros H Hd. unfold slice, copy.
  assert (Ha : length (firstn off target) = off)
    by (rewrite length_firstn; lia).
  rewrite (firstn_all2 src) by lia.
  destruct Hd as [Hd|Hd].
  - destruct (Nat.le_gt_cases stop start) as [Hle|Hlt].
    + replace (stop - start)%nat with 0%nat by lia. reflexivity.
    + rewrite skipn_app, Ha.
      replace (start - off)%nat with 0%nat by lia. cbn [skipn].
      rewrite firstn_app.
      rewrite length_skipn, Ha.
      replace (stop - start - (off - start))%nat with 0%nat by lia.
      cbn [firstn]. rewrite app_nil_r.
      rewrite skipn_firstn_comm, firstn_firstn.
      f_equal. lia.
  - rewrite app_assoc, skipn_app.
    rewrite length_app, Ha.
    rewrite (skipn_all2 (firstn off target ++ src))
      by (rewrite length_app, Ha; lia).
    cbn [app]. rewrite skipn_skipn. do 2 f_equal. lia.
Qed.

Lemma readUInt8_total (buf : Buffer) (off : nat) :
  (off < length buf)%nat ->
  exists b, readUInt8 buf off = Ok (Z_of_byte b) /\ slice buf off (off + 1) = [b].
Proof.
  intro H. unfold readUInt8, slice.
  replace (off + 1 - off)%nat with 1%nat by lia.
  destruct (nth_error buf off) as [b|] eqn:E.
  - exists b. split; [reflexivity|].
    rewrite <- (firstn_skipn_middle _ _ E).
    rewrite skipn_app, length_firstn.
    rewrite skipn_all2 by (rewrite length_firstn; lia).
    replace (off - Nat.min off (length buf))%nat with 0%nat by lia.
    reflexivity.
  - apply nth_error_None in E. lia.
Qed.

(** ** The recursion of [derive] *)

Section DeriveLoop.

Variable ecc : Ecc.
Variable crypto : Crypto.
Variable allocUnsafe : nat -> Buffer.

Lemma derive_attempt_not_UInt32 (this : BIP32) (index : Z) :
  UInt32 index = false ->
  derive_attempt ecc crypto allocUnsafe this index = Done (Err EXPECTED_UINT32).
Proof.
  intro H. unfold derive_attempt, typeforce, guard. rewrite H. reflexivity.
Qed.

Lemma derives_deterministic (this : BIP32) (index : Z) (r r' : result BIP32) :
  derives ecc crypto allocUnsafe this index r -> derives ecc crypto allocUnsafe this index r' -> r = r'.
Proof.
  intro H. revert r'. induction H as [i r Ha|i r Ha H IH]; intros r' H'.
  - inversion H' as [i' r'' Ha'|i' r'' Ha' Hd]; subst; congruence.
  - inversion H' as [i' r'' Ha'|i' r'' Ha' Hd]; subst; [congruence|].
    apply IH. exact Hd.
Qed.

Lemma derives_prefix (this : BIP32) (r : result BIP32) (n : nat) :
  forall i, (forall k, i <= k < i + Z.of_nat n -> derive_attempt ecc crypto allocUnsafe this k = Retry) ->
  derives ecc crypto allocUnsafe this (i + Z.of_nat n) r -> derives ecc crypto allocUnsafe this i r.
Proof.
  induction n as [|n IH]; intros i Hretry Hd.
  - replace (i + Z.of_nat 0) with i in Hd by lia. exact Hd.
  - apply derives_retry; [apply Hretry; lia|].
    apply IH.
    + intros k Hk. apply Hretry. lia.
    + replace (i + 1 + Z.of_nat n) with (i + Z.of_nat (S n)) by lia. exact Hd.
Qed.

Lemma derive_iter_spec (this : BIP32) (n : nat) :
  forall i,
    match derive_iter ecc crypto allocUnsafe n this i with
    | inl j =>
        j = i + 2 ^ Z.of_nat n
        /\ forall k, i <= k < j -> derive_attempt ecc crypto allocUnsafe this k = Retry
    | inr r => derives ecc crypto allocUnsafe this i r
    end.
Proof.
  induction n as [|n IH]; intro i.
  - cbn [derive_iter].
    destruct (derive_attempt ecc crypto allocUnsafe this i) as [|r] eqn:Ha.
    + split; [reflexivity|]. intros k Hk. change (2 ^ Z.of_nat 0) with 1 in Hk.
      replace k with i by lia. exact Ha.
    + apply derives_done. exact Ha.
  - cbn [derive_iter].
    pose proof (IH i) as H1.
    destruct (derive_iter ecc crypto allocUnsafe n this i) as [j|r]; [|exact H1].
    destruct H1 as [Hj Hretry]. pose proof (IH j) as H2.
    assert (Hpow : 2 ^ Z.of_nat (S n) = 2 ^ Z.of_nat n + 2 ^ Z.of_nat n).
    { rewrite Nat2Z.inj_succ, Z.pow_succ_r by lia. lia. }
    assert (Hpos : 0 < 2 ^ Z.of_nat n) by (apply Z.pow_pos_nonneg; lia).
    destruct (derive_iter ecc crypto allocUnsafe n this j) as [j'|r].
    + destruct H2 as [Hj' Hretry']. split; [lia|].
      intros k Hk. destruct (Z.lt_ge_cases k j).
      * apply Hretry. lia.
      * apply Hretry'. lia.
    + apply derives_prefix with (n := Z.to_nat (2 ^ Z.of_nat n)).
      * intros k Hk. apply Hretry. lia.
      * replace (i + Z.of_nat (Z.to_nat (2 ^ Z.of_nat n))) with j by lia.
        exact H2.
Qed.

(** [derive] is total and returns what the recursion of the source returns. *)
Lemma derive_derives (this : BIP32) (index : Z) :
  derives ecc crypto allocUnsafe this index (derive ecc crypto allocUnsafe this index).
Proof.
  unfold derive. pose proof (derive_iter_spec this 33 index) as H.
  destruct (derive_iter ecc crypto allocUnsafe 33 this index) as [j|r]; [|exact H].
  exfalso. destruct H as [Hj Hretry].
  change (2 ^ Z.of_nat 33) with 8589934592 in Hj.
  assert (Hk : exists k, index <= k < j /\ UInt32 k = false).
  { destruct (Z.lt_ge_cases index 0).
    - exists index. split; [lia|]. unfold UInt32.
      apply andb_false_iff. left. apply Z.leb_gt. lia.
    - exists (index + 4294967296). split; [lia|]. unfold UInt32.
      apply andb_false_iff. right. apply Z.leb_gt. lia. }
  destruct Hk as [k [Hk Hu]].
  specialize (Hretry k Hk). rewrite derive_attempt_not_UInt32 in Hretry by exact Hu.
  discriminate.
Qed.

(** The equation of the source: [derive] returns, or calls itself at
    [index + 1]. *)
Lemma derive_unfold (this : BIP32) (index : Z) :
  derive ecc crypto allocUnsafe this index =
  match derive_attempt ecc crypto allocUnsafe this index with
  | Retry => derive ecc crypto allocUnsafe this (index + 1)
  | Done r => r
  end.
Proof.
  apply (derives_deterministic (this := this) (index := index)).
  - apply derive_derives.
  - destruct (derive_attempt ecc crypto allocUnsafe this index) as [|r] eqn:Ha.
    + apply derives_retry; [exact Ha|]. apply derive_derives.
    + apply derives_done. exact Ha.
Qed.

(** The activation that returns: the first index from [index] on that does not
    retry. *)
Lemma derives_effective_index (this : BIP32) (index : Z) (r : result BIP32) :
  derives ecc crypto allocUnsafe this index r ->
  exists i', index <= i'
    /\ (forall k, index <= k < i' -> derive_attempt ecc crypto allocUnsafe this k = Retry)
    /\ derive_attempt ecc crypto allocUnsafe this i' = Done r.
Proof.
  induction 1 as [i r Ha|i r Ha H IH].
  - exists i. split; [lia|]. split; [intros k Hk; lia|exact Ha].
  - destruct IH as [i' [Hle [Hretry Hdone]]].
    exists i'. split; [lia|]. split; [|exact Hdone].
    intros k Hk. destruct (Z.eq_dec k i) as [->|Hne]; [exact Ha|].
    apply Hretry. lia.
Qed.

End DeriveLoop.

(** ** The reference instance meets the contracts *)

Module ReferenceLaws.
Import Reference.

Lemma n_bounds : 0 < n /\ n < 2 ^ (8 * Z.of_nat 32).
Proof. split; vm_compute; reflexivity. Qed.

Lemma isPrivate_inv (d : Buffer) :
  isPrivate d = true -> length d = 32%nat /\ 0 < be_decode d < n.
Proof.
  unfold isPrivate, BufferN. intro H.
  apply andb_true_iff in H. destruct H as [H Hlt].
  apply andb_true_iff in H. destruct H as [Hlen Hpos].
  apply Nat.eqb_eq in Hlen. apply Z.ltb_lt in Hpos. apply Z.ltb_lt in Hlt.
  auto.
Qed.

Lemma isPrivate_intro (d : Buffer) :
  length d = 32%nat -> 0 < be_decode d < n -> isPrivate d = true.
Proof.
  intros Hlen [Hpos Hlt]. unfold isPrivate, BufferN.
  rewrite Hlen, Nat.eqb_refl. cbn [andb].
  apply andb_true_iff. split; apply Z.ltb_lt; assumption.
Qed.

Lemma isPrivate_isOrderScalar (t : Buffer) :
  isPrivate t = true -> isOrderScalar t = true.
Proof.
  intro H. apply isPrivate_inv in H. destruct H as [Hlen [_ Hlt]].
  unfold isOrderScalar, BufferN. rewrite Hlen, Nat.eqb_refl.
  apply Z.ltb_lt. exact Hlt.
Qed.

Lemma isPrivate_sum (s : Z) : 0 < s < n -> isPrivate (be_encode 32 s) = true.
Proof.
  intro Hs. pose proof n_bounds as [_ Hn].
  apply isPrivate_intro; [apply length_be_encode|].
  rewrite be_decode_encode_small by lia. exact Hs.
Qed.

Lemma ecc_laws : EccLaws ecc.
Proof.
  split.
  - intros d Hd. cbn in Hd |- *. exists (x02 :: d).
    unfold pointFromScalar. rewrite Hd. cbn [negb].
    split; [reflexivity|]. split; [exact Hd|].
    apply isPrivate_inv in Hd. cbn [length]. lia.
  - intros d t Q Hd Ht HQ. cbn in Hd, Ht, HQ |- *.
    unfold pointFromScalar in HQ. rewrite Hd in HQ. cbn [negb] in HQ.
    injection HQ as <-.
    pose proof (isPrivate_isOrderScalar _ Ht) as Hos.
    pose proof n_bounds as [Hn0 _].
    unfold privateAdd, pointAddScalar.
    cbn [isPoint tl]. rewrite Hd, Hos. cbn [negb].
    destruct ((be_decode d + be_decode t) mod n =? 0) eqn:Hz; [reflexivity|].
    apply Z.eqb_neq in Hz.
    assert (Hs : 0 < (be_decode d + be_decode t) mod n < n).
    { pose proof (Z.mod_pos_bound (be_decode d + be_decode t) n Hn0). lia. }
    pose proof (isPrivate_sum Hs) as Hk.
    split; [exact Hk|].
    exists (x02 :: be_encode 32 ((be_decode d + be_decode t) mod n)).
    unfold pointFromScalar. rewrite Hk. split; reflexivity.
Qed.

Lemma crypto_laws : CryptoLaws crypto.
Proof.
  split.
  - intros key data. change (length (hmacSHA512 key data) = 64%nat).
    unfold hmacSHA512.
    rewrite !length_app, length_firstn, length_app, !repeat_length.
    cbn [length]. lia.
  - intro data. change (length (hash160 data) = 20%nat).
    unfold hash160. rewrite length_firstn, length_app, repeat_length. lia.
Qed.

Lemma bs58check_laws : Bs58checkLaws bs58check.
Proof.
  split. intro buf. cbn. unfold decode, encode.
  rewrite list_ascii_of_string_of_list_ascii, map_map.
  rewrite <- (map_id buf) at 2. apply f_equal.
  apply map_ext. intro b. apply byte_of_ascii_of_byte.
Qed.

Lemma alloc_law : AllocLaw allocUnsafe.
Proof. intro len. apply repeat_length. Qed.

Lemma root5_valid : valid_node ecc root5.
Proof. vm_compute. repeat split; try discriminate; reflexivity. Qed.

Lemma deep5_valid : valid_node ecc deep5.
Proof. vm_compute. repeat split; try discriminate; reflexivity. Qed.

Lemma point5_one_word_valid : valid_node ecc point5_one_word.
Proof. vm_compute. repeat split; try discriminate; reflexivity. Qed.

End ReferenceLaws.

(** ** Hardened derivation needs the private key *)

Lemma derive_data_hardened_neutered
  (ecc : Ecc) (allocUnsafe : nat -> Buffer) (this : BIP32) (index : Z) :
  isNeutered this = true -> HIGHEST_BIT <= index ->
  derive_data ecc allocUnsafe this index = Err MISSING_PRIVATE_KEY.
Proof.
  intros Hn Hi. unfold derive_data, privateKey.
  assert (Hh : (HIGHEST_BIT <=? index) = true) by (apply Z.leb_le; exact Hi).
  rewrite Hh. unfold isNeutered in Hn.
  destruct (__d this); [discriminate|reflexivity].
Qed.

Lemma derive_hardened_neutered
  (ecc : Ecc) (crypto : Crypto) (allocUnsafe : nat -> Buffer)
  (this : BIP32) (index : Z) :
  isNeutered this = true -> HIGHEST_BIT <= index <= 4294967295 ->
  derive ecc crypto allocUnsafe this index = Err MISSING_PRIVATE_KEY.
Proof.
  intros Hn Hi. rewrite derive_unfold. unfold derive_attempt.
  assert (Hu : UInt32 index = true).
  { unfold UInt32, HIGHEST_BIT in *. apply andb_true_iff.
    split; apply Z.leb_le; lia. }
  unfold typeforce, guard. rewrite Hu.
  rewrite derive_data_hardened_neutered by (tauto || lia). reflexivity.
Qed.

(** C4. On a neutered node, [derive] with any 32-bit index of [2^31] or more
    and [deriveHardened] with any index in [[0, 2^31 - 1]] throw the
    missing-private-key error; neither returns a node. *)
Theorem hardened_from_public_fails
  (ecc : Ecc) (crypto : Crypto) (allocUnsafe : nat -> Buffer) (this : BIP32) :
  isNeutered this = true ->
  (forall i, 2 ^ 31 <= i < 2 ^ 32 ->
     derive ecc crypto allocUnsafe this i = Err MISSING_PRIVATE_KEY)
  /\ (forall j, 0 <= j <= 2 ^ 31 - 1 ->
        deriveHardened ecc crypto allocUnsafe this j = Err MISSING_PRIVATE_KEY).
Proof.
  intro Hn. split.
  - intros i Hi. apply derive_hardened_neutered; [exact Hn|].
    unfold HIGHEST_BIT. lia.
  - intros j Hj. unfold deriveHardened, typeforce, guard.
    assert (Hu : UInt31 j = true).
    { unfold UInt31, UInt32, UINT31_MAX.
      repeat (apply andb_true_iff; split); apply Z.leb_le; lia. }
    rewrite Hu. cbn [bind].
    apply derive_hardened_neutered; [exact Hn|].
    unfold HIGHEST_BIT. lia.
Qed.

Lemma hardened_from_public_fails_witness :
  isNeutered Reference.point5 = true
  /\ derive Reference.ecc Reference.crypto Reference.allocUnsafe
       Reference.point5 2147483648 = Err MISSING_PRIVATE_KEY
  /\ deriveHardened Reference.ecc Reference.crypto Reference.allocUnsafe
       Reference.point5 0 = Err MISSING_PRIVATE_KEY.
Proof.
  destruct (@hardened_from_public_fails Reference.ecc Reference.crypto
              Reference.allocUnsafe Reference.point5 eq_refl) as [H1 H2].
  split; [reflexivity|].
  split; [apply H1; lia|apply H2; lia].
Defined.

(** ** Seed bootstrap *)

Lemma fromPrivateKey_not_seed_error
  (ecc : Ecc) (privateKey chainCode : Buffer) (network : option Network) :
  fromPrivateKey ecc privateKey chainCode network <> Err SEED_TOO_SHORT
  /\ fromPrivateKey ecc privateKey chainCode network <> Err SEED_TOO_LONG.
Proof.
  unfold fromPrivateKey, new_BIP32, typeforce, guard.
  destruct (UINT256_TYPE privateKey); cbn [bind]; [|split; discriminate].
  destruct (UINT256_TYPE chainCode); cbn [bind]; [|split; discriminate].
  destruct (isPrivate ecc privateKey); cbn [negb]; [|split; discriminate].
  destruct (NETWORK_TYPE (or_BITCOIN network)); cbn [bind]; split; discriminate.
Qed.

Lemma fromSeed_in_range
  (ecc : Ecc) (crypto : Crypto) (seed : Buffer) (network : option Network) :
  (16 <= length seed <= 64)%nat ->
  fromSeed ecc crypto seed network
  = fromPrivateKey ecc
      (slice (hmacSHA512 crypto Bitcoin_seed seed) 0 32)
      (slice_from (hmacSHA512 crypto Bitcoin_seed seed) 32)
      (Some (or_BITCOIN network)).
Proof.
  intros [H1 H2]. unfold fromSeed.
  apply Nat.ltb_ge in H1. apply Nat.ltb_ge in H2. rewrite H1, H2. reflexivity.
Qed.

(** C7. [fromSeed] throws the "at least 128 bits" error for every seed shorter
    than 16 bytes, the "at most 512 bits" error for every seed longer than 64
    bytes, and neither of them for a seed of 16 to 64 bytes, which it hands to
    [fromPrivateKey]. *)
Theorem fromSeed_length_bounds
  (ecc : Ecc) (crypto : Crypto) (seed : Buffer) (network : option Network) :
  ((length seed < 16)%nat ->
     fromSeed ecc crypto seed network = Err SEED_TOO_SHORT)
  /\ ((64 < length seed)%nat ->
        fromSeed ecc crypto seed network = Err SEED_TOO_LONG)
  /\ ((16 <= length seed <= 64)%nat ->
        fromSeed ecc crypto seed network
        = fromPrivateKey ecc
            (slice (hmacSHA512 crypto Bitcoin_seed seed) 0 32)
            (slice_from (hmacSHA512 crypto Bitcoin_seed seed) 32)
            (Some (or_BITCOIN network))
        /\ fromSeed ecc crypto seed network <> Err SEED_TOO_SHORT
        /\ fromSeed ecc crypto seed network <> Err SEED_TOO_LONG).
Proof.
  split; [|split].
  - intro H. unfold fromSeed. apply Nat.ltb_lt in H. rewrite H. reflexivity.
  - intro H. unfold fromSeed. destruct (length seed <? 16)%nat eqn:E.
    + apply Nat.ltb_lt in E. lia.
    + apply Nat.ltb_lt in H. rewrite H. reflexivity.
  - intro H. rewrite (fromSeed_in_range ecc crypto seed network H).
    split; [reflexivity|]. apply fromPrivateKey_not_seed_error.
Qed.

Lemma fromSeed_length_bounds_witness :
  fromSeed Reference.ecc Reference.crypto (repeat x01 15) None = Err SEED_TOO_SHORT
  /\ fromSeed Reference.ecc Reference.crypto (repeat x01 65) None = Err SEED_TOO_LONG
  /\ fromSeed Reference.ecc Reference.crypto (repeat x01 16) None <> Err SEED_TOO_SHORT
  /\ fromSeed Reference.ecc Reference.crypto (repeat x01 64) None <> Err SEED_TOO_LONG.
Proof.
  split; [|split; [|split]].
  - apply (fromSeed_length_bounds Reference.ecc Reference.crypto (repeat x01 15) None).
    cbn. lia.
  - apply (fromSeed_length_bounds Reference.ecc Reference.crypto (repeat x01 65) None).
    cbn. lia.
  - apply (fromSeed_length_bounds Reference.ecc Reference.crypto (repeat x01 16) None).
    cbn. lia.
  - apply (fromSeed_length_bounds Reference.ecc Reference.crypto (repeat x01 64) None).
    cbn. lia.
Defined.

Lemma length_slice_from (buf : Buffer) (start : nat) :
  length (slice_from buf start) = (length buf - start)%nat.
Proof. apply length_skipn. Qed.

(** C9. For a seed of 16 to 64 bytes, when the first 32 bytes of
    HMAC-SHA512("Bitcoin seed", seed) are not a scalar in [[1, n)], [fromSeed]
    throws "Private key not in range [1, n)" and returns no root. *)
Theorem fromSeed_scalar_out_of_range
  (ecc : Ecc) (crypto : Crypto) (seed : Buffer) (network : option Network) :
  CryptoLaws crypto ->
  (16 <= length seed <= 64)%nat ->
  isPrivate ecc (slice (hmacSHA512 crypto Bitcoin_seed seed) 0 32) = false ->
  fromSeed ecc crypto seed network = Err PRIVATE_KEY_NOT_IN_RANGE.
Proof.
  intros Hc Hlen Hil.
  rewrite (fromSeed_in_range ecc crypto seed network Hlen).
  pose proof (length_hmacSHA512 Hc Bitcoin_seed seed) as H64.
  unfold fromPrivateKey, typeforce, guard, UINT256_TYPE, BufferN.
  rewrite length_slice by lia. rewrite length_slice_from, H64.
  cbn [Nat.sub Nat.eqb bind]. rewrite Hil. reflexivity.
Qed.

Lemma fromSeed_scalar_out_of_range_witness :
  fromSeed Reference.ecc Reference.crypto (repeat xff 16) None
  = Err PRIVATE_KEY_NOT_IN_RANGE.
Proof.
  apply fromSeed_scalar_out_of_range.
  - exact ReferenceLaws.crypto_laws.
  - cbn. lia.
  - vm_compute. reflexivity.
Defined.

(** ** When an activation retries *)

Lemma derive_attempt_Retry_iff
  (ecc : Ecc) (crypto : Crypto) (allocUnsafe : nat -> Buffer)
  (this : BIP32) (index : Z) :
  derive_attempt ecc crypto allocUnsafe this index = Retry
  <-> retries ecc crypto allocUnsafe this index.
Proof.
  unfold derive_attempt, retries, typeforce, guard.
  destruct (UInt32 index); cbn [bind].
  2:{ split; [discriminate|]. intros [H _]. discriminate. }
  destruct (derive_data ecc allocUnsafe this index) as [data|e].
  2:{ split; [discriminate|]. intros [_ [data [H _]]]. discriminate. }
  cbv zeta.
  set (IL := slice (hmacSHA512 crypto (chainCode this) data) 0 32).
  split.
  - intro H. split; [reflexivity|]. exists data. split; [reflexivity|].
    fold IL.
    destruct (isPrivate ecc IL); cbn [negb] in H; [right|left; reflexivity].
    split; [reflexivity|].
    destruct (privateKey this) as [d|].
    + destruct (privateAdd ecc d IL) as [[ki|]|e]; try discriminate. reflexivity.
    + destruct (publicKey ecc this) as [Q|e]; [|discriminate].
      exists Q. split; [reflexivity|].
      destruct (pointAddScalar ecc Q IL) as [[Ki|]|e]; try discriminate.
      reflexivity.
  - intros [_ [data' [Hd H]]]. injection Hd as <-. fold IL in H.
    destruct H as [H|[H1 H2]]; [rewrite H; reflexivity|].
    rewrite H1. cbn [negb].
    destruct (privateKey this) as [d|].
    + rewrite H2. reflexivity.
    + destruct H2 as [Q [HQ Hadd]]. rewrite HQ, Hadd. reflexivity.
Qed.

(** C10. A retry can change the class of the request.  On a neutered node,
    when the activation at [2^31 - 1] retries, [derive] throws the
    missing-private-key error, because the next activation runs at the
    hardened index [2^31]; on any node, when the activation at [2^32 - 1]
    retries, [derive] fails the [UInt32] guard at [2^32]. *)
Theorem retry_changes_derivation_class
  (ecc : Ecc) (crypto : Crypto) (allocUnsafe : nat -> Buffer) (this : BIP32) :
  (isNeutered this = true ->
   retries ecc crypto allocUnsafe this (2 ^ 31 - 1) ->
   derive ecc crypto allocUnsafe this (2 ^ 31 - 1) = Err MISSING_PRIVATE_KEY)
  /\ (retries ecc crypto allocUnsafe this (2 ^ 32 - 1) ->
      derive ecc crypto allocUnsafe this (2 ^ 32 - 1) = Err EXPECTED_UINT32).
Proof.
  split.
  - intros Hn Hr. apply derive_attempt_Retry_iff in Hr.
    rewrite derive_unfold, Hr.
    apply derive_hardened_neutered; [exact Hn|].
    unfold HIGHEST_BIT. lia.
  - intro Hr. apply derive_attempt_Retry_iff in Hr.
    rewrite derive_unfold, Hr, derive_unfold.
    rewrite derive_attempt_not_UInt32; reflexivity.
Qed.

Lemma retry_changes_derivation_class_witness :
  derive Reference.ecc Reference.crypto Reference.allocUnsafe
    Reference.point5 (2 ^ 31 - 1) = Err MISSING_PRIVATE_KEY
  /\ derive Reference.ecc Reference.crypto Reference.allocUnsafe
       Reference.root5 (2 ^ 32 - 1) = Err EXPECTED_UINT32.
Proof.
  split.
  - apply (retry_changes_derivation_class Reference.ecc Reference.crypto
             Reference.allocUnsafe Reference.point5); [reflexivity|].
    split; [reflexivity|]. eexists. split; [vm_compute; reflexivity|].
    left. vm_compute. reflexivity.
  - apply (retry_changes_derivation_class Reference.ecc Reference.crypto
             Reference.allocUnsafe Reference.root5).
    split; [reflexivity|]. eexists. split; [vm_compute; reflexivity|].
    left. vm_compute. reflexivity.
Defined.

(** ** Path resolution *)

Lemma split_nonempty (sep : ascii) (s : string) : split sep s <> [].
Proof.
  destruct s as [|c rest]; cbn [split]; [discriminate|].
  destruct (Ascii.eqb c sep); [discriminate|].
  destruct (split sep rest); discriminate.
Qed.

Lemma split_singleton_empty (sep : ascii) (s : string) :
  split sep s = [EmptyString] -> s = EmptyString.
Proof.
  destruct s as [|c rest]; cbn [split]; [reflexivity|].
  destruct (Ascii.eqb c sep).
  - intro H. injection H as H. exfalso. exact (split_nonempty _ _ H).
  - destruct (split sep rest); discriminate.
Qed.

Lemma BIP32Path_segments_nonempty (path : string) :
  BIP32Path path = true ->
  (if String.eqb (hd EmptyString (split "/" path)) "m"
   then tl (split "/" path) else split "/" path) <> [].
Proof.
  intro Hp.
  destruct (String.eqb (hd EmptyString (split "/" path)) "m") eqn:Hm;
    [|apply split_nonempty].
  destruct path as [|c rest]; [discriminate Hp|].
  cbn [split] in Hm |- *.
  destruct (Ascii.eqb c "/"); [discriminate Hm|].
  destruct (split "/" rest) as [|h t] eqn:Hs;
    [exfalso; exact (split_nonempty _ _ Hs)|].
  cbn [hd tl] in Hm |- *. apply String.eqb_eq in Hm. injection Hm as -> ->.
  intros ->. apply split_singleton_empty in Hs. subst rest.
  discriminate Hp.
Qed.

(** C3, as the code has it.  The path guard rejects the bare path [m] on every
    node, root or not, before any segment is looked at: the pattern ends in a
    mandatory index segment.  Hence every path the guard accepts leaves at
    least one segment to derive after the optional leading [m]. *)
Theorem derivePath_bare_m_rejected
  (ecc : Ecc) (crypto : Crypto) (allocUnsafe : nat -> Buffer) (this : BIP32) :
  derivePath ecc crypto allocUnsafe this "m" = Err EXPECTED_BIP32PATH
  /\ forall path,
       BIP32Path path = true ->
       (if String.eqb (hd EmptyString (split "/" path)) "m"
        then tl (split "/" path) else split "/" path) <> [].
Proof.
  split; [reflexivity|]. exact BIP32Path_segments_nonempty.
Qed.

Lemma derivePath_bare_m_rejected_witness :
  derivePath Reference.ecc Reference.crypto Reference.allocUnsafe
    Reference.point5 "m" = Err EXPECTED_BIP32PATH
  /\ tl (split "/" "m/0") <> [].
Proof.
  destruct (derivePath_bare_m_rejected Reference.ecc Reference.crypto
              Reference.allocUnsafe Reference.point5) as [H1 H2].
  split; [exact H1|]. exact (H2 "m/0"%string eq_refl).
Defined.

(** The claim fails at a root: [derivePath(root, "m")] throws. *)
Lemma derivePath_bare_m_at_root :
  parentFingerprint Reference.root5 = 0
  /\ derivePath Reference.ecc Reference.crypto Reference.allocUnsafe
       Reference.root5 "m" = Err EXPECTED_BIP32PATH
  /\ derivePath Reference.ecc Reference.crypto Reference.allocUnsafe
       Reference.root5 "m" <> Ok Reference.root5.
Proof.
  split; [reflexivity|]. split; [reflexivity|]. discriminate.
Qed.

(** ** What a successful activation returns *)

Lemma Done_inj (r r' : result BIP32) : Done r = Done r' -> r = r'.
Proof. intro H. congruence. Qed.

Lemma Ok_inj (A : Type) (a a' : A) : Ok a = Ok a' -> a = a'.
Proof. intro H. congruence. Qed.

Lemma new_BIP32_inv (d Q : option Buffer) (cc : Buffer) (net : Network) (hd : BIP32) :
  new_BIP32 d Q cc net = Ok hd ->
  NETWORK_TYPE net = true
  /\ hd = {| __d := d; __Q := Q; chainCode := cc; network := net;
             depth := 0; index := 0; parentFingerprint := 0 |}.
Proof.
  unfold new_BIP32, typeforce, guard.
  destruct (NETWORK_TYPE net); cbn [bind]; [|discriminate].
  intro H. injection H as <-. split; reflexivity.
Qed.

Lemma fromPrivateKey_inv
  (ecc : Ecc) (k cc : Buffer) (net : option Network) (hd : BIP32) :
  fromPrivateKey ecc k cc net = Ok hd ->
  length k = 32%nat /\ length cc = 32%nat /\ isPrivate ecc k = true
  /\ NETWORK_TYPE (or_BITCOIN net) = true
  /\ hd = {| __d := Some k; __Q := None; chainCode := cc;
             network := or_BITCOIN net;
             depth := 0; index := 0; parentFingerprint := 0 |}.
Proof.
  unfold fromPrivateKey, typeforce, guard, UINT256_TYPE, BufferN.
  destruct (length k =? 32)%nat eqn:Hk; cbn [bind]; [|discriminate].
  destruct (length cc =? 32)%nat eqn:Hc; cbn [bind]; [|discriminate].
  destruct (isPrivate ecc k); cbn [negb]; [|discriminate].
  intro H. apply new_BIP32_inv in H. destruct H as [Hn ->].
  apply Nat.eqb_eq in Hk. apply Nat.eqb_eq in Hc. auto.
Qed.

Lemma fromPublicKey_inv
  (ecc : Ecc) (Q cc : Buffer) (net : option Network) (hd : BIP32) :
  fromPublicKey ecc Q cc net = Ok hd ->
  length Q = 33%nat /\ length cc = 32%nat /\ isPoint ecc Q = true
  /\ NETWORK_TYPE (or_BITCOIN net) = true
  /\ hd = {| __d := None; __Q := Some Q; chainCode := cc;
             network := or_BITCOIN net;
             depth := 0; index := 0; parentFingerprint := 0 |}.
Proof.
  unfold fromPublicKey, typeforce, guard, UINT256_TYPE, BufferN.
  destruct (length Q =? 33)%nat eqn:Hk; cbn [bind]; [|discriminate].
  destruct (length cc =? 32)%nat eqn:Hc; cbn [bind]; [|discriminate].
  destruct (isPoint ecc Q); cbn [negb]; [|discriminate].
  intro H. apply new_BIP32_inv in H. destruct H as [Hn ->].
  apply Nat.eqb_eq in Hk. apply Nat.eqb_eq in Hc. auto.
Qed.

Lemma fromPrivateKey_ok
  (ecc : Ecc) (k cc : Buffer) (net : Network) :
  length k = 32%nat -> length cc = 32%nat -> isPrivate ecc k = true ->
  NETWORK_TYPE net = true ->
  fromPrivateKey ecc k cc (Some net)
  = Ok {| __d := Some k; __Q := None; chainCode := cc; network := net;
          depth := 0; index := 0; parentFingerprint := 0 |}.
Proof.
  intros Hk Hc Hp Hn.
  unfold fromPrivateKey, new_BIP32, typeforce, guard, UINT256_TYPE, BufferN.
  rewrite Hk, Hc, Hp. cbn [Nat.eqb bind negb or_BITCOIN]. rewrite Hn. reflexivity.
Qed.

Lemma fromPublicKey_ok
  (ecc : Ecc) (Q cc : Buffer) (net : Network) :
  length Q = 33%nat -> length cc = 32%nat -> isPoint ecc Q = true ->
  NETWORK_TYPE net = true ->
  fromPublicKey ecc Q cc (Some net)
  = Ok {| __d := None; __Q := Some Q; chainCode := cc; network := net;
          depth := 0; index := 0; parentFingerprint := 0 |}.
Proof.
  intros Hk Hc Hp Hn.
  unfold fromPublicKey, new_BIP32, typeforce, guard, UINT256_TYPE, BufferN.
  rewrite Hk, Hc, Hp. cbn [Nat.eqb bind negb or_BITCOIN]. rewrite Hn. reflexivity.
Qed.

(** The fingerprint word: the first four bytes of the identifier, big-endian. *)
Lemma fingerprint_word (id : Buffer) (pf : Z) :
  readUInt32BE (slice id 0 4) 0 = Ok pf ->
  (4 <= length id)%nat /\ pf = be_decode (firstn 4 id).
Proof.
  unfold readUInt32BE.
  destruct (0 + 4 <=? length (slice id 0 4))%nat eqn:E; [|discriminate].
  apply Nat.leb_le in E. intro H.
  assert (Hpf : pf = be_decode (slice (slice id 0 4) 0 (0 + 4))) by congruence.
  clear H. unfold slice in E, Hpf.
  change (0 + 4 - 0)%nat with 4%nat in Hpf. change (4 - 0)%nat with 4%nat in E, Hpf.
  change (0 + 4)%nat with 4%nat in E.
  rewrite !skipn_O in Hpf. rewrite skipn_O in E.
  rewrite firstn_firstn in Hpf. rewrite length_firstn in E.
  split; [lia|exact Hpf].
Qed.

Lemma derive_position_inv
  (ecc : Ecc) (crypto : Crypto) (this : BIP32) (i : Z) (hd child : BIP32) :
  derive_position ecc crypto this i hd = Ok child ->
  exists Q,
    publicKey ecc this = Ok Q
    /\ (4 <= length (hash160 crypto Q))%nat
    /\ child = {| __d := __d hd; __Q := __Q hd; chainCode := chainCode hd;
                  network := network hd; depth := depth this + 1; index := i;
                  parentFingerprint := be_decode (firstn 4 (hash160 crypto Q)) |}.
Proof.
  unfold derive_position, fingerprint, identifier.
  destruct (publicKey ecc this) as [Q|e]; cbn [bind]; [|discriminate].
  destruct (readUInt32BE (slice (hash160 crypto Q) 0 4) 0) as [pf|e] eqn:Hr;
    cbn [bind]; [|discriminate].
  apply fingerprint_word in Hr. destruct Hr as [Hlen ->].
  intro H. injection H as <-. exists Q. auto.
Qed.

Lemma derive_attempt_Done_Ok
  (ecc : Ecc) (crypto : Crypto) (allocUnsafe : nat -> Buffer)
  (this : BIP32) (i : Z) (child : BIP32) :
  derive_attempt ecc crypto allocUnsafe this i = Done (Ok child) ->
  UInt32 i = true
  /\ exists data hd,
      derive_data ecc allocUnsafe this i = Ok data
      /\ isPrivate ecc (slice (hmacSHA512 crypto (chainCode this) data) 0 32) = true
      /\ derive_position ecc crypto this i hd = Ok child
      /\ match privateKey this with
         | Some d =>
             exists ki,
               privateAdd ecc d (slice (hmacSHA512 crypto (chainCode this) data) 0 32)
               = Ok (Some ki)
               /\ fromPrivateKey ecc ki
                    (slice_from (hmacSHA512 crypto (chainCode this) data) 32)
                    (Some (network this)) = Ok hd
         | None =>
             exists Q Ki,
               publicKey ecc this = Ok Q
               /\ pointAddScalar ecc Q
                    (slice (hmacSHA512 crypto (chainCode this) data) 0 32)
                  = Ok (Some Ki)
               /\ fromPublicKey ecc Ki
                    (slice_from (hmacSHA512 crypto (chainCode this) data) 32)
                    (Some (network this)) = Ok hd
         end.
Proof.
  unfold derive_attempt, typeforce, guard.
  destruct (UInt32 i); cbn [bind]; [|discriminate].
  destruct (derive_data ecc allocUnsafe this i) as [data|e]; [|discriminate].
  cbv zeta.
  set (I := hmacSHA512 crypto (chainCode this) data).
  destruct (isPrivate ecc (slice I 0 32)) eqn:Hil; cbn [negb]; [|discriminate].
  intro H. split; [reflexivity|]. exists data.
  destruct (privateKey this) as [d|].
  - destruct (privateAdd ecc d (slice I 0 32)) as [[ki|]|e] eqn:Hadd;
      try discriminate.
    apply Done_inj in H.
    destruct (fromPrivateKey ecc ki (slice_from I 32) (Some (network this)))
      as [hd|e] eqn:Hf; cbn [bind] in H; [|discriminate H].
    exists hd. split; [reflexivity|]. split; [exact Hil|]. split; [exact H|].
    exists ki. split; [exact Hadd|exact Hf].
  - destruct (publicKey ecc this) as [Q|e]; [|discriminate].
    destruct (pointAddScalar ecc Q (slice I 0 32)) as [[Ki|]|e] eqn:Hadd;
      try discriminate.
    apply Done_inj in H.
    destruct (fromPublicKey ecc Ki (slice_from I 32) (Some (network this)))
      as [hd|e] eqn:Hf; cbn [bind] in H; [|discriminate H].
    exists hd. split; [reflexivity|]. split; [exact Hil|]. split; [exact H|].
    exists Q, Ki. split; [reflexivity|]. split; [exact Hadd|exact Hf].
Qed.

(** A child keeps the network and the kind of its parent, at the next depth. *)
Lemma derive_attempt_child
  (ecc : Ecc) (crypto : Crypto) (allocUnsafe : nat -> Buffer)
  (this : BIP32) (i : Z) (child : BIP32) :
  derive_attempt ecc crypto allocUnsafe this i = Done (Ok child) ->
  depth child = depth this + 1
  /\ index child = i
  /\ network child = network this
  /\ NETWORK_TYPE (network child) = true
  /\ isNeutered child = isNeutered this
  /\ exists id,
       identifier ecc crypto this = Ok id
       /\ (4 <= length id)%nat
       /\ parentFingerprint child = be_decode (firstn 4 id).
Proof.
  intro H. apply derive_attempt_Done_Ok in H.
  destruct H as [_ [data [hd [_ [_ [Hpos Hkey]]]]]].
  apply derive_position_inv in Hpos. destruct Hpos as [Q [HQ [Hlen ->]]].
  cbn [depth index network parentFingerprint].
  assert (Hid : exists id, identifier ecc crypto this = Ok id
                  /\ (4 <= length id)%nat
                  /\ be_decode (firstn 4 (hash160 crypto Q)) = be_decode (firstn 4 id)).
  { exists (hash160 crypto Q). unfold identifier. rewrite HQ. auto. }
  unfold isNeutered, privateKey in *. cbn [__d].
  destruct (__d this) as [d|].
  - destruct Hkey as [ki [_ Hf]]. apply fromPrivateKey_inv in Hf.
    destruct Hf as [_ [_ [_ [Hn ->]]]]. cbn in Hn |- *. auto 10.
  - destruct Hkey as [Q' [Ki [_ [_ Hf]]]]. apply fromPublicKey_inv in Hf.
    destruct Hf as [_ [_ [_ [Hn ->]]]]. cbn in Hn |- *. auto 10.
Qed.

(** C5. When [derive(parent, i)] returns a child, the activation that
    returned ran at an effective index [i' >= i], every index from [i] up to
    [i'] retried, and the child has [depth = parent.depth + 1], [index = i'],
    and [parentFingerprint] the first four bytes of the parent's identifier
    read as a big-endian unsigned 32-bit integer. *)
Theorem derive_sets_position
  (ecc : Ecc) (crypto : Crypto) (allocUnsafe : nat -> Buffer)
  (parent : BIP32) (i : Z) (child : BIP32) :
  derive ecc crypto allocUnsafe parent i = Ok child ->
  exists i',
    i <= i' <= 4294967295
    /\ (forall k, i <= k < i' -> retries ecc crypto allocUnsafe parent k)
    /\ derive_attempt ecc crypto allocUnsafe parent i' = Done (Ok child)
    /\ depth child = depth parent + 1
    /\ index child = i'
    /\ exists id,
         identifier ecc crypto parent = Ok id
         /\ (4 <= length id)%nat
         /\ parentFingerprint child = be_decode (firstn 4 id).
Proof.
  intro H. pose proof (derive_derives ecc crypto allocUnsafe parent i) as Hd.
  rewrite H in Hd. apply derives_effective_index in Hd.
  destruct Hd as [i' [Hle [Hretry Hdone]]]. exists i'.
  pose proof (derive_attempt_Done_Ok _ _ _ _ _ Hdone) as [Hu _].
  pose proof (derive_attempt_child _ _ _ _ _ Hdone)
    as [Hdepth [Hindex [_ [_ [_ Hid]]]]].
  unfold UInt32 in Hu. apply andb_true_iff in Hu. destruct Hu as [_ Hu].
  apply Z.leb_le in Hu.
  split; [lia|]. split.
  - intros k Hk. apply derive_attempt_Retry_iff. apply Hretry. exact Hk.
  - auto.
Qed.

Lemma derive_sets_position_witness :
  exists child i',
    derive Reference.ecc Reference.crypto Reference.allocUnsafe
      Reference.root5 2147483647 = Ok child
    /\ 2147483647 <= i' <= 4294967295
    /\ depth child = depth Reference.root5 + 1
    /\ index child = i'.
Proof.
  destruct (derive Reference.ecc Reference.crypto Reference.allocUnsafe
              Reference.root5 2147483647) as [child|e] eqn:E;
    [|vm_compute in E; discriminate E].
  destruct (derive_sets_position _ _ _ _ _ E)
    as [i' [Hr [_ [_ [Hd [Hi _]]]]]].
  exists child, i'. auto.
Defined.

(** ** Depth is not bounded by [derive] *)

Lemma NETWORK_TYPE_inv (net : Network) :
  NETWORK_TYPE net = true ->
  UInt8 (wif net) = true
  /\ UInt32 (public (bip32 net)) = true
  /\ UInt32 (private (bip32 net)) = true.
Proof.
  unfold NETWORK_TYPE. intro H.
  apply andb_true_iff in H. destruct H as [H H3].
  apply andb_true_iff in H. destruct H as [H1 H2]. auto.
Qed.

Lemma writeUInt32BE_ok (buf : Buffer) (value : Z) (offset : nat) :
  UInt32 value = true -> (offset + 4 <= length buf)%nat ->
  writeUInt32BE buf value offset = Ok (copy (be_encode 4 value) buf offset).
Proof.
  intros Hv Ho. unfold writeUInt32BE. unfold UInt32 in Hv. rewrite Hv.
  apply Nat.leb_le in Ho. rewrite Ho. reflexivity.
Qed.

Lemma writeUInt8_ok (buf : Buffer) (value : Z) (offset : nat) :
  UInt8 value = true -> (offset + 1 <= length buf)%nat ->
  writeUInt8 buf value offset = Ok (copy [byte_of_Z value] buf offset).
Proof.
  intros Hv Ho. unfold writeUInt8. unfold UInt8 in Hv. rewrite Hv.
  apply Nat.leb_le in Ho. rewrite Ho. reflexivity.
Qed.

Lemma version_word_UInt32 (this : BIP32) :
  NETWORK_TYPE (network this) = true ->
  UInt32 (if negb (isNeutered this) then private (bip32 (network this))
          else public (bip32 (network this))) = true.
Proof.
  intro H. apply NETWORK_TYPE_inv in H. destruct H as [_ [Hpub Hpriv]].
  destruct (isNeutered this); assumption.
Qed.

(** C8. [derive] has no upper bound on depth: from a parent at depth 255 a
    successful [derive] returns a child at depth 256, and [toBase58] on that
    child throws when, after the version word, it writes the depth byte. *)
Theorem derive_depth_unbounded
  (ecc : Ecc) (crypto : Crypto) (bs58check : Bs58check)
  (allocUnsafe : nat -> Buffer) (parent : BIP32) (i : Z) (child : BIP32) :
  AllocLaw allocUnsafe ->
  depth parent = 255 ->
  derive ecc crypto allocUnsafe parent i = Ok child ->
  depth child = 256
  /\ (exists buffer,
        writeUInt32BE (allocUnsafe 78%nat)
          (if negb (isNeutered child) then private (bip32 (network child))
           else public (bip32 (network child))) 0 = Ok buffer
        /\ writeUInt8 buffer (depth child) 4 = Err ERR_OUT_OF_RANGE)
  /\ toBase58 ecc bs58check allocUnsafe child = Err ERR_OUT_OF_RANGE.
Proof.
  intros Ha Hdepth H.
  pose proof (derive_derives ecc crypto allocUnsafe parent i) as Hd.
  rewrite H in Hd. apply derives_effective_index in Hd.
  destruct Hd as [i' [_ [_ Hdone]]].
  apply derive_attempt_child in Hdone.
  destruct Hdone as [Hd [_ [_ [Hnet _]]]].
  assert (H256 : depth child = 256) by lia.
  pose proof (version_word_UInt32 child Hnet) as Hv.
  assert (Hw : writeUInt32BE (allocUnsafe 78%nat)
                 (if negb (isNeutered child) then private (bip32 (network child))
                  else public (bip32 (network child))) 0
               = Ok (copy (be_encode 4
                       (if negb (isNeutered child)
                        then private (bip32 (network child))
                        else public (bip32 (network child))))
                       (allocUnsafe 78%nat) 0)).
  { apply writeUInt32BE_ok; [exact Hv|]. rewrite Ha. lia. }
  split; [exact H256|]. split.
  - eexists. split; [exact Hw|]. rewrite H256. reflexivity.
  - unfold toBase58, toBase58_buffer. rewrite Hw. cbn [bind].
    rewrite H256. reflexivity.
Qed.

Lemma derive_depth_unbounded_witness :
  exists child,
    derive Reference.ecc Reference.crypto Reference.allocUnsafe
      Reference.deep5 0 = Ok child
    /\ depth child = 256
    /\ toBase58 Reference.ecc Reference.bs58check Reference.allocUnsafe child
       = Err ERR_OUT_OF_RANGE.
Proof.
  destruct (derive Reference.ecc Reference.crypto Reference.allocUnsafe
              Reference.deep5 0) as [child|e] eqn:E;
    [|vm_compute in E; discriminate E].
  destruct (@derive_depth_unbounded _ _ Reference.bs58check _ _ _ _
              ReferenceLaws.alloc_law (eq_refl : depth Reference.deep5 = 255) E)
    as [Hd [_ Ht]].
  exists child. auto.
Defined.

(** ** Decoding an extended key *)

Lemma be_decode_singleton (b : byte) : be_decode [b] = Z_of_byte b.
Proof. unfold be_decode. cbn [fold_left]. lia. Qed.

Lemma readUInt32BE_in (buf : Buffer) (off : nat) :
  (off + 4 <= length buf)%nat ->
  readUInt32BE buf off = Ok (be_decode (slice buf off (off + 4))).
Proof.
  intro H. unfold readUInt32BE. apply Nat.leb_le in H. rewrite H. reflexivity.
Qed.

Lemma readUInt8_in (buf : Buffer) (off : nat) :
  (off < length buf)%nat ->
  readUInt8 buf off = Ok (be_decode (slice buf off (off + 1))).
Proof.
  intro H. destruct (@readUInt8_total buf off H) as [b [-> ->]].
  rewrite be_decode_singleton. reflexivity.
Qed.

Lemma fromPrivateKey_checked
  (ecc : Ecc) (k cc : Buffer) (net : Network) :
  length k = 32%nat -> length cc = 32%nat -> NETWORK_TYPE net = true ->
  fromPrivateKey ecc k cc (Some net)
  = if isPrivate ecc k
    then Ok {| __d := Some k; __Q := None; chainCode := cc; network := net;
               depth := 0; index := 0; parentFingerprint := 0 |}
    else Err PRIVATE_KEY_NOT_IN_RANGE.
Proof.
  intros Hk Hc Hn. destruct (isPrivate ecc k) eqn:Hp.
  - apply fromPrivateKey_ok; assumption.
  - unfold fromPrivateKey, typeforce, guard, UINT256_TYPE, BufferN.
    rewrite Hk, Hc, Hp. reflexivity.
Qed.

Lemma fromPublicKey_checked
  (ecc : Ecc) (Q cc : Buffer) (net : Network) :
  length Q = 33%nat -> length cc = 32%nat -> NETWORK_TYPE net = true ->
  fromPublicKey ecc Q cc (Some net)
  = if isPoint ecc Q
    then Ok {| __d := None; __Q := Some Q; chainCode := cc; network := net;
               depth := 0; index := 0; parentFingerprint := 0 |}
    else Err POINT_NOT_ON_CURVE.
Proof.
  intros Hk Hc Hn. destruct (isPoint ecc Q) eqn:Hp.
  - apply fromPublicKey_ok; assumption.
  - unfold fromPublicKey, typeforce, guard, UINT256_TYPE, BufferN.
    rewrite Hk, Hc, Hp. reflexivity.
Qed.

(** [fromBase58] on a 78-byte payload, with every read resolved. *)
Lemma fromBase58_payload
  (ecc : Ecc) (bs58check : Bs58check) (s : string) (net : option Network)
  (buf : Buffer) :
  decode bs58check s = Ok buf -> length buf = 78%nat ->
  NETWORK_TYPE (or_BITCOIN net) = true ->
  fromBase58 ecc bs58check s net
  = if negb (payload_version buf =? private (bip32 (or_BITCOIN net)))
       && negb (payload_version buf =? public (bip32 (or_BITCOIN net)))
    then Err INVALID_NETWORK_VERSION
    else if (payload_depth buf =? 0) && negb (payload_parentFingerprint buf =? 0)
    then Err (TypeError "Invalid parent fingerprint")
    else if (payload_depth buf =? 0) && negb (payload_index buf =? 0)
    then Err (TypeError "Invalid index")
    else if payload_version buf =? private (bip32 (or_BITCOIN net))
    then
      if negb (payload_marker buf =? 0) then Err INVALID_PRIVATE_KEY
      else if isPrivate ecc (payload_scalar buf)
      then Ok {| __d := Some (payload_scalar buf); __Q := None;
                 chainCode := payload_chainCode buf;
                 network := or_BITCOIN net;
                 depth := payload_depth buf; index := payload_index buf;
                 parentFingerprint := payload_parentFingerprint buf |}
      else Err PRIVATE_KEY_NOT_IN_RANGE
    else
      if isPoint ecc (payload_point buf)
      then Ok {| __d := None; __Q := Some (payload_point buf);
                 chainCode := payload_chainCode buf;
                 network := or_BITCOIN net;
                 depth := payload_depth buf; index := payload_index buf;
                 parentFingerprint := payload_parentFingerprint buf |}
      else Err POINT_NOT_ON_CURVE.
Proof.
  intros Hdec Hlen Hnet. unfold fromBase58. rewrite Hdec. cbn [bind].
  rewrite Hlen. cbn [Nat.eqb negb].
  rewrite (@readUInt32BE_in buf 0) by lia.
  rewrite (@readUInt8_in buf 4) by lia.
  rewrite (@readUInt32BE_in buf 5) by lia.
  rewrite (@readUInt32BE_in buf 9) by lia.
  rewrite (@readUInt8_in buf 45) by lia.
  cbn [bind Nat.add].
  fold (payload_version buf) (payload_depth buf)
    (payload_parentFingerprint buf) (payload_index buf) (payload_marker buf)
    (payload_chainCode buf) (payload_scalar buf) (payload_point buf).
  assert (Hcc : length (payload_chainCode buf) = 32%nat)
    by (unfold payload_chainCode; rewrite length_slice; lia).
  assert (Hk : length (payload_scalar buf) = 32%nat)
    by (unfold payload_scalar; rewrite length_slice; lia).
  assert (HX : length (payload_point buf) = 33%nat)
    by (unfold payload_point; rewrite length_slice; lia).
  rewrite (@fromPrivateKey_checked ecc _ _ _ Hk Hcc Hnet).
  rewrite (@fromPublicKey_checked ecc _ _ _ HX Hcc Hnet).
  destruct (negb (payload_version buf =? private (bip32 (or_BITCOIN net)))
            && negb (payload_version buf =? public (bip32 (or_BITCOIN net))));
    [reflexivity|].
  destruct ((payload_depth buf =? 0) && negb (payload_parentFingerprint buf =? 0));
    [reflexivity|].
  destruct ((payload_depth buf =? 0) && negb (payload_index buf =? 0));
    [reflexivity|].
  destruct (payload_version buf =? private (bip32 (or_BITCOIN net))).
  - destruct (negb (payload_marker buf =? 0)); [reflexivity|].
    destruct (isPrivate ecc (payload_scalar buf)); reflexivity.
  - destruct (isPoint ecc (payload_point buf)); reflexivity.
Qed.

Ltac eqb_to_prop :=
  repeat match goal with
    | H : (_ =? _) = true |- _ => apply Z.eqb_eq in H
    | H : (_ =? _) = false |- _ => apply Z.eqb_neq in H
    end.

Ltac decode_leaf :=
  cbn [negb andb]; eqb_to_prop;
  split; [split|split; [|split; [|split]]];
  [ first [ intros [e' He']; discriminate He'
          | intros _; intuition congruence ]
  | first [ intros _; eexists; reflexivity
          | intros Hcond; exfalso; intuition congruence ]
  | intros; first [ reflexivity | exfalso; congruence ]
  | intros; first [ reflexivity | exfalso; congruence ]
  | intros; first [ reflexivity | exfalso; intuition congruence ]
  | intros hd' Hhd;
    first [ discriminate Hhd
          | apply Ok_inj in Hhd; subst hd'; cbn; intuition congruence ] ].

(** C6, as the code has it.  For a string that Base58Check-decodes to [buf]
    and a network record that passes [NETWORK_TYPE], [fromBase58] fails
    exactly when: the payload is not 78 bytes; the version word is neither
    the private nor the public word; depth is 0 with a nonzero parent
    fingerprint or index; the version is the private word and byte 45 is not
    0; or, from the construction path, the version is the private word and
    bytes 46..77 are not a scalar in [[1, n)], or the version is the public
    word and bytes 45..77 are not a point of the curve.  The first, second
    and fourth carry the messages the claim names, and otherwise the node is
    built from the remaining fields. *)
Theorem fromBase58_failure_conditions
  (ecc : Ecc) (bs58check : Bs58check) (s : string) (net : option Network)
  (buf : Buffer) :
  decode bs58check s = Ok buf ->
  NETWORK_TYPE (or_BITCOIN net) = true ->
  ((exists e, fromBase58 ecc bs58check s net = Err e) <->
     length buf <> 78%nat
     \/ (payload_version buf <> private (bip32 (or_BITCOIN net))
         /\ payload_version buf <> public (bip32 (or_BITCOIN net)))
     \/ (payload_depth buf = 0
         /\ (payload_parentFingerprint buf <> 0 \/ payload_index buf <> 0))
     \/ (payload_version buf = private (bip32 (or_BITCOIN net))
         /\ payload_marker buf <> 0)
     \/ (payload_version buf = private (bip32 (or_BITCOIN net))
         /\ isPrivate ecc (payload_scalar buf) = false)
     \/ (payload_version buf <> private (bip32 (or_BITCOIN net))
         /\ isPoint ecc (payload_point buf) = false))
  /\ (length buf <> 78%nat ->
      fromBase58 ecc bs58check s net = Err INVALID_BUFFER_LENGTH)
  /\ (length buf = 78%nat ->
      payload_version buf <> private (bip32 (or_BITCOIN net)) ->
      payload_version buf <> public (bip32 (or_BITCOIN net)) ->
      fromBase58 ecc bs58check s net = Err INVALID_NETWORK_VERSION)
  /\ (length buf = 78%nat ->
      payload_version buf = private (bip32 (or_BITCOIN net)) ->
      ~ (payload_depth buf = 0
         /\ (payload_parentFingerprint buf <> 0 \/ payload_index buf <> 0)) ->
      payload_marker buf <> 0 ->
      fromBase58 ecc bs58check s net = Err INVALID_PRIVATE_KEY)
  /\ (forall hd,
        fromBase58 ecc bs58check s net = Ok hd ->
        depth hd = payload_depth buf
        /\ index hd = payload_index buf
        /\ parentFingerprint hd = payload_parentFingerprint buf
        /\ chainCode hd = payload_chainCode buf
        /\ network hd = or_BITCOIN net
        /\ ((payload_version buf = private (bip32 (or_BITCOIN net))
             /\ __d hd = Some (payload_scalar buf) /\ __Q hd = None)
            \/ (payload_version buf <> private (bip32 (or_BITCOIN net))
                /\ __d hd = None /\ __Q hd = Some (payload_point buf)))).
Proof.
  intros Hdec Hnet.
  destruct (Nat.eq_dec (length buf) 78) as [Hlen|Hlen].
  2:{ assert (Hf : fromBase58 ecc bs58check s net = Err INVALID_BUFFER_LENGTH).
      { unfold fromBase58. rewrite Hdec. cbn [bind].
        apply Nat.eqb_neq in Hlen. rewrite Hlen. reflexivity. }
      rewrite Hf. decode_leaf. }
  rewrite (fromBase58_payload ecc bs58check s net Hdec Hlen Hnet).
  destruct (payload_version buf =? private (bip32 (or_BITCOIN net))) eqn:Ev;
    destruct (payload_version buf =? public (bip32 (or_BITCOIN net))) eqn:Ew;
    cbn [negb andb]; try solve [decode_leaf];
    (destruct (payload_depth buf =? 0) eqn:Ed;
     [destruct (payload_parentFingerprint buf =? 0) eqn:Ef;
      [destruct (payload_index buf =? 0) eqn:Ei|]|];
     cbn [negb andb]; try solve [decode_leaf]).
  all: try (destruct (payload_marker buf =? 0) eqn:Em;
            cbn [negb andb]; try solve [decode_leaf]).
  all: try (destruct (isPrivate ecc (payload_scalar buf)) eqn:Ek;
            solve [decode_leaf]).
  all: try (destruct (isPoint ecc (payload_point buf)) eqn:Ep;
            solve [decode_leaf]).
Qed.

Lemma fromBase58_failure_conditions_witness :
  exists e,
    fromBase58 Reference.ecc Reference.bs58check
      (Reference.encode Reference.zero_key_payload) None = Err e.
Proof.
  apply (proj1 (@fromBase58_failure_conditions Reference.ecc Reference.bs58check
                  (Reference.encode Reference.zero_key_payload) None
                  Reference.zero_key_payload
                  (decode_encode ReferenceLaws.bs58check_laws
                     Reference.zero_key_payload) eq_refl)).
  right; right; right; right; left. split; vm_compute; reflexivity.
Defined.

(** The claim's list of failures is not complete: this payload has 78 bytes,
    the private version word, depth 0 with zero fingerprint and index, and a
    zero marker byte, but its scalar is 0 and [fromBase58] throws. *)
Lemma fromBase58_zero_scalar_rejected :
  decode Reference.bs58check (Reference.encode Reference.zero_key_payload)
  = Ok Reference.zero_key_payload
  /\ length Reference.zero_key_payload = 78%nat
  /\ payload_version Reference.zero_key_payload = private (bip32 BITCOIN)
  /\ payload_depth Reference.zero_key_payload = 0
  /\ payload_parentFingerprint Reference.zero_key_payload = 0
  /\ payload_index Reference.zero_key_payload = 0
  /\ payload_marker Reference.zero_key_payload = 0
  /\ fromBase58 Reference.ecc Reference.bs58check
       (Reference.encode Reference.zero_key_payload) None
     = Err PRIVATE_KEY_NOT_IN_RANGE.
Proof. vm_compute. repeat split; reflexivity. Qed.

(** ** Encoding an extended key *)

Lemma slice_copy_at (src target : Buffer) (off stop : nat) :
  (off + length src <= length target)%nat ->
  stop = (off + length src)%nat ->
  slice (copy src target off) off stop = src.
Proof. intros H ->. apply slice_copy_same. exact H. Qed.

Lemma be_decode_encode_UInt32 (v : Z) :
  UInt32 v = true -> be_decode (be_encode 4 v) = v.
Proof.
  unfold UInt32. intro H. apply andb_true_iff in H. destruct H as [H1 H2].
  apply Z.leb_le in H1. apply Z.leb_le in H2.
  apply be_decode_encode_small.
  change (2 ^ (8 * Z.of_nat 4)) with 4294967296. lia.
Qed.

Lemma be_decode_byte_of_Z (v : Z) :
  0 <= v <= 255 -> be_decode [byte_of_Z v] = v.
Proof.
  intro H. rewrite be_decode_singleton, Z_of_byte_of_Z.
  apply Z.mod_small. lia.
Qed.

(** The 78 bytes written by [toBase58], field by field; the unspecified
    content of the fresh buffer is overwritten everywhere. *)
Lemma toBase58_buffer_layout
  (ecc : Ecc) (allocUnsafe : nat -> Buffer) (this : BIP32) :
  AllocLaw allocUnsafe -> valid_node ecc this ->
  exists buf,
    toBase58_buffer ecc allocUnsafe this = Ok buf
    /\ length buf = 78%nat
    /\ slice buf 0 4
       = be_encode 4 (if negb (isNeutered this)
                      then private (bip32 (network this))
                      else public (bip32 (network this)))
    /\ slice buf 4 5 = [byte_of_Z (depth this)]
    /\ slice buf 5 9 = be_encode 4 (parentFingerprint this)
    /\ slice buf 9 13 = be_encode 4 (index this)
    /\ slice buf 13 45 = chainCode this
    /\ match __d this, __Q this with
       | Some d, _ => slice buf 45 46 = [x00] /\ slice buf 46 78 = d
       | None, Some Q => slice buf 45 78 = Q
       | None, None => False
       end.
Proof.
  intros Ha (Hnet & Hdepth & Hindex & Hpf & Hcc & _ & Hkey).
  pose proof (version_word_UInt32 this Hnet) as Hv.
  unfold toBase58_buffer.
  set (version := if negb (isNeutered this) then private (bip32 (network this))
                  else public (bip32 (network this))) in *.
  set (b0 := allocUnsafe 78%nat).
  assert (L0 : length b0 = 78%nat) by apply Ha.
  rewrite writeUInt32BE_ok by (assumption || lia). cbn [bind].
  set (b1 := copy (be_encode 4 version) b0 0).
  assert (L1 : length b1 = 78%nat) by (subst b1; rewrite length_copy; lia).
  rewrite writeUInt8_ok
    by (try lia; unfold UInt8; apply andb_true_iff; split; apply Z.leb_le; lia).
  cbn [bind].
  set (b2 := copy [byte_of_Z (depth this)] b1 4).
  assert (L2 : length b2 = 78%nat) by (subst b2; rewrite length_copy; lia).
  rewrite writeUInt32BE_ok by (assumption || lia). cbn [bind].
  set (b3 := copy (be_encode 4 (parentFingerprint this)) b2 5).
  assert (L3 : length b3 = 78%nat) by (subst b3; rewrite length_copy; lia).
  rewrite writeUInt32BE_ok by (assumption || lia). cbn [bind].
  set (b4 := copy (be_encode 4 (index this)) b3 9).
  assert (L4 : length b4 = 78%nat) by (subst b4; rewrite length_copy; lia).
  set (b5 := copy (chainCode this) b4 13).
  assert (L5 : length b5 = 78%nat) by (subst b5; rewrite length_copy; lia).
  assert (S0 : slice b5 0 4 = be_encode 4 version).
  { subst b5 b4 b3 b2 b1.
    rewrite !slice_copy_other
      by (rewrite ?length_be_encode; cbn [length]; lia).
    apply slice_copy_at; rewrite length_be_encode; lia. }
  assert (S4 : slice b5 4 5 = [byte_of_Z (depth this)]).
  { subst b5 b4 b3 b2.
    rewrite !slice_copy_other
      by (rewrite ?length_be_encode; cbn [length]; lia).
    apply slice_copy_at; cbn [length]; lia. }
  assert (S5 : slice b5 5 9 = be_encode 4 (parentFingerprint this)).
  { subst b5 b4 b3.
    rewrite !slice_copy_other
      by (rewrite ?length_be_encode; cbn [length]; lia).
    apply slice_copy_at; rewrite length_be_encode; lia. }
  assert (S9 : slice b5 9 13 = be_encode 4 (index this)).
  { subst b5 b4.
    rewrite !slice_copy_other
      by (rewrite ?length_be_encode; cbn [length]; lia).
    apply slice_copy_at; rewrite length_be_encode; lia. }
  assert (S13 : slice b5 13 45 = chainCode this).
  { subst b5. apply slice_copy_at; lia. }
  unfold valid_key in Hkey. unfold privateKey, publicKey.
  destruct (__d this) as [d|].
  - assert (Hd : length d = 32%nat) by (destruct (__Q this); tauto).
    rewrite writeUInt8_ok by (reflexivity || lia). cbn [bind].
    change (byte_of_Z 0) with x00.
    set (b6 := copy [x00] b5 45).
    assert (L6 : length b6 = 78%nat) by (subst b6; rewrite length_copy; lia).
    exists (copy d b6 46).
    split; [reflexivity|].
    split; [rewrite length_copy; lia|].
    subst b6.
    rewrite !slice_copy_other by (cbn [length]; lia).
    repeat (split; [assumption|]).
    split; [apply slice_copy_at; cbn [length]; lia|].
    apply slice_copy_at; [rewrite length_copy|]; lia.
  - destruct (__Q this) as [Q|]; [|contradiction].
    destruct Hkey as [HQ _]. cbn [bind].
    exists (copy Q b5 45).
    split; [reflexivity|].
    split; [rewrite length_copy; lia|].
    rewrite !slice_copy_other by lia.
    repeat (split; [assumption|]).
    apply slice_copy_at; lia.
Qed.

(** C2, as the code has it.  For every valid node (fields in their documented
    ranges, depth at most 255, a root with zero index and fingerprint) that is
    private, or neutered on a network whose public and private version words
    differ, [fromBase58(node.toBase58(), node.network)] returns a node with
    the same depth, index, parent fingerprint, chain code, network, neutered
    state and key material. *)
Theorem base58_round_trip
  (ecc : Ecc) (bs58check : Bs58check) (allocUnsafe : nat -> Buffer)
  (this : BIP32) :
  Bs58checkLaws bs58check -> AllocLaw allocUnsafe ->
  valid_node ecc this ->
  (isNeutered this = true ->
   public (bip32 (network this)) <> private (bip32 (network this))) ->
  exists s hd,
    toBase58 ecc bs58check allocUnsafe this = Ok s
    /\ fromBase58 ecc bs58check s (Some (network this)) = Ok hd
    /\ depth hd = depth this
    /\ index hd = index this
    /\ parentFingerprint hd = parentFingerprint this
    /\ chainCode hd = chainCode this
    /\ network hd = network this
    /\ isNeutered hd = isNeutered this
    /\ privateKey hd = privateKey this
    /\ (isNeutered this = true -> publicKey ecc hd = publicKey ecc this).
Proof.
  intros Hbs Ha Hvalid Hwords.
  destruct (@toBase58_buffer_layout ecc allocUnsafe this Ha Hvalid)
    as (buf & Hbuf & Hlen & S0 & S4 & S5 & S9 & S13 & Skey).
  destruct Hvalid as (Hnet & Hdepth & Hindex & Hpf & Hcc & Hroot & Hkey).
  pose proof (version_word_UInt32 this Hnet) as Hv.
  exists (encode bs58check buf).
  unfold toBase58. rewrite Hbuf. cbn [bind].
  rewrite (@fromBase58_payload ecc bs58check _ (Some (network this)) buf
             (decode_encode Hbs buf) Hlen Hnet).
  cbn [or_BITCOIN].
  unfold payload_version, payload_depth, payload_parentFingerprint,
    payload_index, payload_chainCode, payload_marker, payload_scalar,
    payload_point.
  rewrite S0, S4, S5, S9, S13.
  rewrite (@be_decode_encode_UInt32 _ Hv), (@be_decode_encode_UInt32 _ Hpf),
    (@be_decode_encode_UInt32 _ Hindex), (@be_decode_byte_of_Z _ Hdepth).
  assert (Hr1 : (depth this =? 0) && negb (parentFingerprint this =? 0) = false).
  { destruct (depth this =? 0) eqn:E; [|reflexivity].
    apply Z.eqb_eq in E. destruct (Hroot E) as [-> _]. reflexivity. }
  assert (Hr2 : (depth this =? 0) && negb (index this =? 0) = false).
  { destruct (depth this =? 0) eqn:E; [|reflexivity].
    apply Z.eqb_eq in E. destruct (Hroot E) as [_ ->]. reflexivity. }
  rewrite Hr1, Hr2.
  unfold valid_key in Hkey. unfold isNeutered, privateKey, publicKey in *.
  destruct (__d this) as [d|] eqn:Ed.
  - cbn [negb]. rewrite Z.eqb_refl. cbn [negb andb].
    destruct Skey as [S45 S46]. rewrite S45, S46.
    change (be_decode [x00] =? 0) with true. cbn [negb].
    assert (Hp : isPrivate ecc d = true) by (destruct (__Q this); tauto).
    rewrite Hp. eexists. split; [reflexivity|]. split; [reflexivity|].
    cbn. repeat split; try reflexivity. discriminate.
  - destruct (__Q this) as [Q|] eqn:EQ; [|contradiction].
    cbn [negb]. specialize (Hwords eq_refl).
    apply Z.eqb_neq in Hwords. rewrite Hwords, Z.eqb_refl. cbn [negb andb].
    rewrite Skey. destruct Hkey as [_ Hpt]. rewrite Hpt.
    eexists. split; [reflexivity|]. split; [reflexivity|].
    cbn. repeat split; reflexivity.
Qed.

Lemma base58_round_trip_witness :
  exists s hd,
    toBase58 Reference.ecc Reference.bs58check Reference.allocUnsafe
      Reference.deep5 = Ok s
    /\ fromBase58 Reference.ecc Reference.bs58check s (Some BITCOIN) = Ok hd
    /\ depth hd = 255 /\ index hd = 7 /\ parentFingerprint hd = 9.
Proof.
  destruct (@base58_round_trip Reference.ecc Reference.bs58check
              Reference.allocUnsafe Reference.deep5
              ReferenceLaws.bs58check_laws ReferenceLaws.alloc_law
              ReferenceLaws.deep5_valid)
    as (s & hd & Hs & Hhd & Hd & Hi & Hp & _).
  - intro H. vm_compute in H. discriminate H.
  - exists s, hd. auto.
Defined.

(** The claim fails for a neutered node whose network uses one word for both
    versions: the encoding carries that word, [fromBase58] takes it for the
    private one and rejects the point's first byte as a key marker. *)
Lemma base58_round_trip_one_word :
  valid_node Reference.ecc Reference.point5_one_word
  /\ NETWORK_TYPE (network Reference.point5_one_word) = true
  /\ exists s,
       toBase58 Reference.ecc Reference.bs58check Reference.allocUnsafe
         Reference.point5_one_word = Ok s
       /\ fromBase58 Reference.ecc Reference.bs58check s
            (Some (network Reference.point5_one_word))
          = Err INVALID_PRIVATE_KEY.
Proof.
  split; [exact ReferenceLaws.point5_one_word_valid|].
  split; [reflexivity|].
  eexists. split; [vm_compute; reflexivity|].
  vm_compute. reflexivity.
Qed.

(** ** Neutering and derivation *)

Lemma neutered_ok (ecc : Ecc) (this : BIP32) (Q : Buffer) :
  publicKey ecc this = Ok Q ->
  length Q = 33%nat -> isPoint ecc Q = true ->
  length (chainCode this) = 32%nat -> NETWORK_TYPE (network this) = true ->
  neutered ecc this
  = Ok {| __d := None; __Q := Some Q; chainCode := chainCode this;
          network := network this; depth := depth this; index := index this;
          parentFingerprint := parentFingerprint this |}.
Proof.
  intros HQ Hlen Hpt Hcc Hnet. unfold neutered. rewrite HQ. cbn [bind].
  rewrite (@fromPublicKey_ok ecc Q (chainCode this) (network this)
             Hlen Hcc Hpt Hnet).
  reflexivity.
Qed.

Lemma private_point (ecc : Ecc) (this : BIP32) (d : Buffer) :
  EccLaws ecc -> valid_key ecc this -> __d this = Some d ->
  isPrivate ecc d = true
  /\ exists Q, pointFromScalar ecc d = Ok (Some Q)
               /\ publicKey ecc this = Ok Q
               /\ length Q = 33%nat /\ isPoint ecc Q = true.
Proof.
  intros He Hk Hd. unfold valid_key in Hk. unfold publicKey. rewrite Hd in *.
  destruct (__Q this) as [Q|].
  - destruct Hk as [_ [Hp HQ]]. split; [exact Hp|].
    destruct (pointFromScalar_private He d Hp) as [Q' [HQ' [Hpt Hlen]]].
    assert (Q' = Q) by congruence. subst Q'. exists Q. auto.
  - destruct Hk as [_ Hp]. split; [exact Hp|].
    destruct (pointFromScalar_private He d Hp) as [Q' [HQ' [Hpt Hlen]]].
    exists Q'. rewrite HQ'. auto.
Qed.

(** One activation at a normal index, on a private node and on its neutered
    copy: they retry together, and when the private one returns a child the
    neutered one returns that child's neutered copy. *)
Lemma derive_attempt_neutered
  (ecc : Ecc) (crypto : Crypto) (allocUnsafe : nat -> Buffer)
  (node : BIP32) (d Q : Buffer) (k : Z) :
  EccLaws ecc ->
  __d node = Some d -> isPrivate ecc d = true ->
  pointFromScalar ecc d = Ok (Some Q) -> publicKey ecc node = Ok Q ->
  k < HIGHEST_BIT ->
  let nnode :=
    {| __d := None; __Q := Some Q; chainCode := chainCode node;
       network := network node; depth := depth node; index := index node;
       parentFingerprint := parentFingerprint node |} in
  match derive_attempt ecc crypto allocUnsafe node k with
  | Retry => derive_attempt ecc crypto allocUnsafe nnode k = Retry
  | Done (Ok child) =>
      exists dchild,
        derive_attempt ecc crypto allocUnsafe nnode k = Done (Ok dchild)
        /\ neutered ecc child = Ok dchild
        /\ isNeutered dchild = true
  | Done (Err _) => True
  end.
Proof.
  intros He Hd Hp HQ HpubQ Hk nnode.
  assert (Hnn : publicKey ecc nnode = Ok Q) by reflexivity.
  assert (Hdata : derive_data ecc allocUnsafe nnode k
                  = derive_data ecc allocUnsafe node k).
  { unfold derive_data. apply Z.leb_gt in Hk. rewrite Hk.
    rewrite Hnn, HpubQ. reflexivity. }
  unfold derive_attempt. rewrite Hdata.
  destruct (typeforce UInt32 "UInt32" k) as [[]|e]; [|exact I].
  destruct (derive_data ecc allocUnsafe node k) as [data|e]; [|exact I].
  cbv zeta. change (chainCode nnode) with (chainCode node).
  change (network nnode) with (network node).
  set (IL := slice (hmacSHA512 crypto (chainCode node) data) 0 32).
  set (IR := slice_from (hmacSHA512 crypto (chainCode node) data) 32).
  destruct (isPrivate ecc IL) eqn:Hil; cbn [negb]; [|reflexivity].
  unfold privateKey. rewrite Hd. change (__d nnode) with (@None Buffer).
  rewrite Hnn.
  pose proof (privateAdd_pointAddScalar He d IL Hp Hil HQ) as Hadd.
  destruct (privateAdd ecc d IL) as [[ki|]|e]; [|rewrite Hadd; reflexivity|exact I].
  destruct Hadd as [Hki [Q' [HQ' Hpa]]]. rewrite Hpa.
  destruct (pointFromScalar_private He ki Hki) as [Q'' [HQ'' [Hpt' Hlen']]].
  assert (Q'' = Q') by congruence. subst Q''.
  destruct (fromPrivateKey ecc ki IR (Some (network node))) as [hd|e] eqn:Hf;
    cbn [bind]; [|exact I].
  apply fromPrivateKey_inv in Hf. destruct Hf as (_ & HIR & _ & Hnet & ->).
  cbn [or_BITCOIN] in Hnet |- *.
  rewrite (@fromPublicKey_ok ecc Q' IR (network node) Hlen' HIR Hpt' Hnet).
  cbn [bind]. unfold derive_position, fingerprint, identifier.
  rewrite HpubQ, Hnn. cbn [bind].
  destruct (readUInt32BE (slice (hash160 crypto Q) 0 4) 0) as [pf|e];
    cbn [bind]; [|exact I].
  eexists. split; [reflexivity|]. split; [|reflexivity].
  unfold neutered, publicKey. cbn [__Q __d set_depth set_index
    set_parentFingerprint chainCode network depth index parentFingerprint].
  rewrite HQ'. cbn [bind].
  rewrite (@fromPublicKey_ok ecc Q' IR (network node) Hlen' HIR Hpt' Hnet).
  reflexivity.
Qed.

Lemma derive_of_first_return
  (ecc : Ecc) (crypto : Crypto) (allocUnsafe : nat -> Buffer)
  (this : BIP32) (i i' : Z) (r : result BIP32) :
  i <= i' ->
  (forall k, i <= k < i' -> derive_attempt ecc crypto allocUnsafe this k = Retry) ->
  derive_attempt ecc crypto allocUnsafe this i' = Done r ->
  derive ecc crypto allocUnsafe this i = r.
Proof.
  intros Hle Hretry Hdone.
  apply (@derives_deterministic ecc crypto allocUnsafe this i).
  - apply derive_derives.
  - apply derives_prefix with (n := Z.to_nat (i' - i)).
    + intros k Hk. apply Hretry. lia.
    + replace (i + Z.of_nat (Z.to_nat (i' - i))) with i' by lia.
      apply derives_done. exact Hdone.
Qed.

(** C1, as the code has it.  For a valid private node and an index
    [i < 2^31], when [derive(node, i)] returns a child whose effective index
    is still below [2^31], neutering and derivation commute:
    [derive(neutered(node), i)] returns a neutered node that agrees with
    [neutered(derive(node, i))] on chain code, depth, index, parent
    fingerprint, public key and network. *)
Theorem neutered_commutes_with_derive
  (ecc : Ecc) (crypto : Crypto) (allocUnsafe : nat -> Buffer)
  (node : BIP32) (i : Z) (child : BIP32) :
  EccLaws ecc -> valid_node ecc node -> isNeutered node = false ->
  0 <= i < 2 ^ 31 ->
  derive ecc crypto allocUnsafe node i = Ok child ->
  index child < 2 ^ 31 ->
  exists nnode nchild dchild,
    neutered ecc node = Ok nnode
    /\ neutered ecc child = Ok nchild
    /\ derive ecc crypto allocUnsafe nnode i = Ok dchild
    /\ chainCode nchild = chainCode dchild
    /\ depth nchild = depth dchild
    /\ index nchild = index dchild
    /\ parentFingerprint nchild = parentFingerprint dchild
    /\ publicKey ecc nchild = publicKey ecc dchild
    /\ network nchild = network dchild
    /\ isNeutered nchild = true /\ isNeutered dchild = true.
Proof.
  intros He Hvalid Hpriv Hi Hderive Hidx.
  destruct Hvalid as (Hnet & _ & _ & _ & Hcc & _ & Hkey).
  unfold isNeutered in Hpriv.
  destruct (__d node) as [d|] eqn:Hd; [clear Hpriv|discriminate].
  destruct (@private_point ecc node d He Hkey Hd) as (Hp & Q & HQ & HpubQ & Hlen & Hpt).
  pose proof (derive_derives ecc crypto allocUnsafe node i) as Hds.
  rewrite Hderive in Hds. apply derives_effective_index in Hds.
  destruct Hds as (i' & Hle & Hretry & Hdone).
  pose proof (@derive_attempt_child _ _ _ _ _ _ Hdone) as (_ & Hi' & _).
  assert (Hstep : forall k, k <= i' ->
            match derive_attempt ecc crypto allocUnsafe node k with
            | Retry => derive_attempt ecc crypto allocUnsafe
                         {| __d := None; __Q := Some Q;
                            chainCode := chainCode node;
                            network := network node; depth := depth node;
                            index := index node;
                            parentFingerprint := parentFingerprint node |} k
                       = Retry
            | Done (Ok child) =>
                exists dchild,
                  derive_attempt ecc crypto allocUnsafe
                    {| __d := None; __Q := Some Q;
                       chainCode := chainCode node;
                       network := network node; depth := depth node;
                       index := index node;
                       parentFingerprint := parentFingerprint node |} k
                  = Done (Ok dchild)
                  /\ neutered ecc child = Ok dchild
                  /\ isNeutered dchild = true
            | Done (Err _) => True
            end).
  { intros k Hk.
    apply (@derive_attempt_neutered ecc crypto allocUnsafe node d Q k
             He Hd Hp HQ HpubQ).
    unfold HIGHEST_BIT. change (2 ^ 31) with 2147483648 in Hidx. lia. }
  pose proof (Hstep i' (Z.le_refl i')) as Hlast. rewrite Hdone in Hlast.
  destruct Hlast as (dchild & Hdn & Hnc & Hnd).
  eexists. exists dchild, dchild.
  split; [exact (@neutered_ok ecc node Q HpubQ Hlen Hpt Hcc Hnet)|].
  split; [exact Hnc|].
  split.
  - apply derive_of_first_return with (i' := i'); [exact Hle| |exact Hdn].
    intros k Hk. pose proof (Hstep k ltac:(lia)) as Hs.
    rewrite (Hretry k Hk) in Hs. exact Hs.
  - repeat split; try reflexivity; exact Hnd.
Qed.

Lemma neutered_commutes_with_derive_witness :
  exists child nnode nchild dchild,
    derive Reference.ecc Reference.crypto Reference.allocUnsafe
      Reference.root5 0 = Ok child
    /\ neutered Reference.ecc Reference.root5 = Ok nnode
    /\ neutered Reference.ecc child = Ok nchild
    /\ derive Reference.ecc Reference.crypto Reference.allocUnsafe nnode 0
       = Ok dchild
    /\ publicKey Reference.ecc nchild = publicKey Reference.ecc dchild
    /\ chainCode nchild = chainCode dchild.
Proof.
  destruct (derive Reference.ecc Reference.crypto Reference.allocUnsafe
              Reference.root5 0) as [child|e] eqn:E;
    [|vm_compute in E; discriminate E].
  assert (Hidx : index child < 2 ^ 31).
  { vm_compute in E. apply Ok_inj in E. subst child. reflexivity. }
  destruct (@neutered_commutes_with_derive Reference.ecc Reference.crypto
              Reference.allocUnsafe Reference.root5 0 child
              ReferenceLaws.ecc_laws ReferenceLaws.root5_valid eq_refl
              ltac:(lia) E Hidx)
    as (nnode & nchild & dchild & H1 & H2 & H3 & H4 & _ & _ & _ & H5 & _).
  exists child, nnode, nchild, dchild.
  repeat (split; [first [reflexivity|assumption]|]). assumption.
Defined.

(** The claim fails when the retry crosses into the hardened range: at
    [2^31 - 1] the reference hash yields an out-of-range [IL], the private
    node retries at [2^31] with its private key and returns a child, and its
    neutered copy throws. *)
Lemma neutered_commute_fails_across_retry :
  EccLaws Reference.ecc
  /\ valid_node Reference.ecc Reference.root5
  /\ isNeutered Reference.root5 = false
  /\ exists child nnode,
       derive Reference.ecc Reference.crypto Reference.allocUnsafe
         Reference.root5 (2 ^ 31 - 1) = Ok child
       /\ index child = 2 ^ 31
       /\ neutered Reference.ecc Reference.root5 = Ok nnode
       /\ derive Reference.ecc Reference.crypto Reference.allocUnsafe
            nnode (2 ^ 31 - 1) = Err MISSING_PRIVATE_KEY.
Proof.
  split; [exact ReferenceLaws.ecc_laws|].
  split; [exact ReferenceLaws.root5_valid|].
  split; [reflexivity|].
  eexists. eexists.
  split; [vm_compute; reflexivity|].
  split; [reflexivity|].
  split; [vm_compute; reflexivity|].
  vm_compute. reflexivity.
Qed.

(** * Further properties of the node code *)

(** ** More on big-endian integers and slices *)

Lemma byte_of_Z_of_byte (b : byte) : byte_of_Z (Z_of_byte b) = b.
Proof.
  pose proof (Z_of_byte_range b) as Hr.
  unfold byte_of_Z. rewrite Z.mod_small by exact Hr.
  unfold Z_of_byte. rewrite N2Z.id, Byte.of_to_N. reflexivity.
Qed.

Lemma byte_of_Z_mod (z : Z) : byte_of_Z (z mod 256) = byte_of_Z z.
Proof. unfold byte_of_Z. rewrite Z.mod_mod by lia. reflexivity. Qed.

Lemma be_decode_bound (bs : Buffer) :
  0 <= be_decode bs < 2 ^ (8 * Z.of_nat (length bs)).
Proof.
  induction bs as [|b bs IH] using rev_ind.
  - cbn. lia.
  - rewrite be_decode_snoc, length_app. cbn [length].
    pose proof (Z_of_byte_range b) as Hb.
    replace (8 * Z.of_nat (length bs + 1)) with (8 * Z.of_nat (length bs) + 8) by lia.
    rewrite Z.pow_add_r by lia. change (2 ^ 8) with 256. nia.
Qed.

Lemma be_encode_decode (bs : Buffer) : be_encode (length bs) (be_decode bs) = bs.
Proof.
  induction bs as [|b bs IH] using rev_ind; [reflexivity|].
  rewrite be_decode_snoc, length_app. cbn [length].
  replace (length bs + 1)%nat with (S (length bs)) by lia.
  cbn [be_encode]. pose proof (Z_of_byte_range b) as Hb.
  replace ((be_decode bs * 256 + Z_of_byte b) / 256) with (be_decode bs)
    by (apply Z.div_unique with (r := Z_of_byte b); lia).
  rewrite IH. f_equal. f_equal.
  rewrite <- byte_of_Z_mod.
  replace ((be_decode bs * 256 + Z_of_byte b) mod 256) with (Z_of_byte b)
    by (apply Z.mod_unique with (q := be_decode bs); lia).
  apply byte_of_Z_of_byte.
Qed.

Lemma be_decode_UInt32 (bs : Buffer) :
  length bs = 4%nat -> UInt32 (be_decode bs) = true.
Proof.
  intro H. pose proof (be_decode_bound bs) as Hb. rewrite H in Hb.
  change (2 ^ (8 * Z.of_nat 4)) with 4294967296 in Hb.
  unfold UInt32. apply andb_true_iff. split; apply Z.leb_le; lia.
Qed.

Lemma slice_split (buf : Buffer) (a m c : nat) :
  (a <= m <= c)%nat ->
  slice buf a c = slice buf a m ++ slice buf m c.
Proof.
  intro H. unfold slice.
  rewrite <- (firstn_skipn (m - a) (firstn (c - a) (skipn a buf))).
  rewrite firstn_firstn. replace (Nat.min (m - a) (c - a)) with (m - a)%nat by lia.
  f_equal. rewrite skipn_firstn_comm, skipn_skipn.
  replace (c - a - (m - a))%nat with (c - m)%nat by lia.
  replace (m - a + a)%nat with m by lia. reflexivity.
Qed.

Lemma slice_full (buf : Buffer) (n : nat) :
  length buf = n -> slice buf 0 n = buf.
Proof.
  intros <-. unfold slice. cbn [skipn]. rewrite Nat.sub_0_r. apply firstn_all.
Qed.

(** ** Nodes returned by the factories *)

Lemma root_record_valid
  (ecc : Ecc) (d Q : option Buffer) (cc : Buffer) (net : Network) :
  NETWORK_TYPE net = true -> length cc = 32%nat ->
  valid_key ecc {| __d := d; __Q := Q; chainCode := cc; network := net;
                   depth := 0; index := 0; parentFingerprint := 0 |} ->
  valid_node ecc {| __d := d; __Q := Q; chainCode := cc; network := net;
                    depth := 0; index := 0; parentFingerprint := 0 |}.
Proof.
  intros Hn Hc Hk. unfold valid_node. cbn [network depth index parentFingerprint chainCode].
  repeat split; try assumption; try reflexivity; try lia.
Qed.

(** X1. The two key factories return only valid roots.  [fromPrivateKey]
    succeeds exactly when both buffers have 32 bytes, the key is a scalar in
    range and the network record passes the schema; the node is then private,
    at depth 0 with zero index and fingerprint, and holds the arguments.
    [fromPublicKey] likewise, for a 33-byte point on the curve, and its node
    is neutered. *)
Theorem factories_return_valid_roots (ecc : Ecc) :
  (forall k cc net,
     ((exists hd, fromPrivateKey ecc k cc net = Ok hd) <->
        length k = 32%nat /\ length cc = 32%nat /\ isPrivate ecc k = true
        /\ NETWORK_TYPE (or_BITCOIN net) = true)
     /\ forall hd, fromPrivateKey ecc k cc net = Ok hd ->
          valid_node ecc hd /\ is_root hd /\ privateKey hd = Some k
          /\ chainCode hd = cc /\ network hd = or_BITCOIN net)
  /\ (forall Q cc net,
        ((exists hd, fromPublicKey ecc Q cc net = Ok hd) <->
           length Q = 33%nat /\ length cc = 32%nat /\ isPoint ecc Q = true
           /\ NETWORK_TYPE (or_BITCOIN net) = true)
        /\ forall hd, fromPublicKey ecc Q cc net = Ok hd ->
             valid_node ecc hd /\ is_root hd /\ isNeutered hd = true
             /\ publicKey ecc hd = Ok Q
             /\ chainCode hd = cc /\ network hd = or_BITCOIN net).
Proof.
  split.
  - intros k cc net. split; [split|].
    + intros [hd H]. apply fromPrivateKey_inv in H. tauto.
    + intros (Hk & Hc & Hp & Hn). eexists.
      unfold fromPrivateKey, new_BIP32, typeforce, guard, UINT256_TYPE, BufferN.
      rewrite Hk, Hc, Hp. cbn [Nat.eqb bind negb]. rewrite Hn. reflexivity.
    + intros hd H. apply fromPrivateKey_inv in H.
      destruct H as (Hk & Hc & Hp & Hn & ->).
      split; [|repeat split].
      apply root_record_valid; [exact Hn|exact Hc|].
      unfold valid_key. cbn [__d __Q]. auto.
  - intros Q cc net. split; [split|].
    + intros [hd H]. apply fromPublicKey_inv in H. tauto.
    + intros (Hk & Hc & Hp & Hn). eexists.
      unfold fromPublicKey, new_BIP32, typeforce, guard, UINT256_TYPE, BufferN.
      rewrite Hk, Hc, Hp. cbn [Nat.eqb bind negb]. rewrite Hn. reflexivity.
    + intros hd H. apply fromPublicKey_inv in H.
      destruct H as (Hk & Hc & Hp & Hn & ->).
      split; [|repeat split].
      apply root_record_valid; [exact Hn|exact Hc|].
      unfold valid_key. cbn [__d __Q]. auto.
Qed.

Lemma factories_return_valid_roots_witness :
  exists hd,
    fromPrivateKey Reference.ecc Reference.scalar5 Reference.chain0 None = Ok hd
    /\ valid_node Reference.ecc hd /\ is_root hd.
Proof.
  destruct (factories_return_valid_roots Reference.ecc) as [Hpriv _].
  destruct (Hpriv Reference.scalar5 Reference.chain0 None) as [[_ Hex] Hval].
  destruct Hex as [hd Hhd].
  - repeat split; vm_compute; reflexivity.
  - exists hd. destruct (Hval hd Hhd) as (Hv & Hr & _). auto.
Defined.

(** X2. A node returned by [fromSeed] is a valid private root: depth, index
    and parent fingerprint are 0, the scalar is the first half of
    HMAC-SHA512("Bitcoin seed", seed), the chain code the second half, and the
    network the given one or [BITCOIN]; the seed then had 16 to 64 bytes. *)
Theorem fromSeed_root
  (ecc : Ecc) (crypto : Crypto) (seed : Buffer) (net : option Network)
  (hd : BIP32) :
  fromSeed ecc crypto seed net = Ok hd ->
  (16 <= length seed <= 64)%nat
  /\ valid_node ecc hd /\ is_root hd /\ isNeutered hd = false
  /\ privateKey hd = Some (slice (hmacSHA512 crypto Bitcoin_seed seed) 0 32)
  /\ chainCode hd = slice_from (hmacSHA512 crypto Bitcoin_seed seed) 32
  /\ network hd = or_BITCOIN net.
Proof.
  intro H.
  assert (Hlen : (16 <= length seed <= 64)%nat).
  { unfold fromSeed in H.
    destruct (length seed <? 16)%nat eqn:E1; [discriminate H|].
    destruct (64 <? length seed)%nat eqn:E2; [discriminate H|].
    apply Nat.ltb_ge in E1. apply Nat.ltb_ge in E2. lia. }
  split; [exact Hlen|].
  rewrite (fromSeed_in_range ecc crypto seed net Hlen) in H.
  apply fromPrivateKey_inv in H. destruct H as (Hk & Hc & Hp & Hn & ->).
  cbn [or_BITCOIN] in Hn |- *.
  split; [|repeat split].
  apply root_record_valid; [exact Hn|exact Hc|].
  unfold valid_key. cbn [__d __Q]. auto.
Qed.

Lemma fromSeed_root_witness :
  exists hd,
    fromSeed Reference.ecc Reference.crypto (repeat x01 16) None = Ok hd
    /\ valid_node Reference.ecc hd /\ is_root hd /\ network hd = BITCOIN.
Proof.
  destruct (fromSeed Reference.ecc Reference.crypto (repeat x01 16) None)
    as [hd|e] eqn:E; [|vm_compute in E; discriminate E].
  destruct (@fromSeed_root _ _ _ _ _ E) as (_ & Hv & Hr & _ & _ & _ & Hn).
  exists hd. auto.
Defined.

(** ** Children *)

(** X3. [derive] keeps the node invariants below the depth limit: from any
    parent with [0 <= depth < 255], a child that [derive] returns is a valid
    node, has the parent's network and neutered state, and a 32-byte chain
    code. *)
Theorem derive_child_valid
  (ecc : Ecc) (crypto : Crypto) (allocUnsafe : nat -> Buffer)
  (parent : BIP32) (i : Z) (child : BIP32) :
  0 <= depth parent < 255 ->
  derive ecc crypto allocUnsafe parent i = Ok child ->
  valid_node ecc child
  /\ network child = network parent
  /\ isNeutered child = isNeutered parent
  /\ length (chainCode child) = 32%nat.
Proof.
  intros Hdepth H.
  pose proof (derive_derives ecc crypto allocUnsafe parent i) as Hd.
  rewrite H in Hd. apply derives_effective_index in Hd.
  destruct Hd as (i' & _ & _ & Hdone).
  apply derive_attempt_Done_Ok in Hdone.
  destruct Hdone as (Hu & data & hd & _ & _ & Hpos & Hkey).
  apply derive_position_inv in Hpos. destruct Hpos as (Q & _ & Hlen & ->).
  assert (Hpf : UInt32 (be_decode (firstn 4 (hash160 crypto Q))) = true).
  { apply be_decode_UInt32. rewrite length_firstn. lia. }
  unfold valid_node, isNeutered, privateKey in *.
  cbn [network depth index parentFingerprint chainCode __d __Q].
  destruct (__d parent) as [d|].
  - destruct Hkey as (ki & _ & Hf). apply fromPrivateKey_inv in Hf.
    destruct Hf as (Hk & Hc & Hp & Hn & ->). cbn [or_BITCOIN] in Hn.
    cbn [network chainCode __d __Q]. unfold valid_key. cbn [__d __Q].
    repeat split; try assumption; try reflexivity; lia.
  - destruct Hkey as (Q' & Ki & _ & _ & Hf). apply fromPublicKey_inv in Hf.
    destruct Hf as (Hk & Hc & Hp & Hn & ->). cbn [or_BITCOIN] in Hn.
    cbn [network chainCode __d __Q]. unfold valid_key. cbn [__d __Q].
    repeat split; try assumption; try reflexivity; lia.
Qed.

Lemma derive_child_valid_witness :
  exists child,
    derive Reference.ecc Reference.crypto Reference.allocUnsafe
      Reference.root5 7 = Ok child
    /\ valid_node Reference.ecc child /\ isNeutered child = false.
Proof.
  destruct (derive Reference.ecc Reference.crypto Reference.allocUnsafe
              Reference.root5 7) as [child|e] eqn:E;
    [|vm_compute in E; discriminate E].
  destruct (@derive_child_valid _ _ _ Reference.root5 7 child
              ltac:(cbn; lia) E) as (Hv & _ & Hn & _).
  exists child. auto.
Defined.

(** X4. A neutered node never yields a hardened child: whatever [derive]
    returns from it is neutered and has an index below [2^31], at or after
    the requested one. *)
Theorem derive_neutered_stays_normal
  (ecc : Ecc) (crypto : Crypto) (allocUnsafe : nat -> Buffer)
  (this : BIP32) (i : Z) (child : BIP32) :
  isNeutered this = true ->
  derive ecc crypto allocUnsafe this i = Ok child ->
  0 <= i <= index child /\ index child < 2 ^ 31 /\ isNeutered child = true.
Proof.
  intros Hn H.
  pose proof (derive_derives ecc crypto allocUnsafe this i) as Hd.
  rewrite H in Hd. apply derives_effective_index in Hd.
  destruct Hd as (i' & Hle & Hretry & Hdone).
  pose proof (@derive_attempt_child _ _ _ _ _ _ Hdone)
    as (_ & Hi & _ & _ & Hneut & _).
  pose proof (@derive_attempt_Done_Ok _ _ _ _ _ _ Hdone)
    as (Hu' & data & hd & Hdata & _).
  assert (Hi0 : 0 <= i).
  { destruct (Z.lt_ge_cases i 0) as [Hneg|]; [|assumption]. exfalso.
    destruct (Z.eq_dec i i') as [->|Hne].
    - unfold UInt32 in Hu'. apply andb_true_iff in Hu'. destruct Hu' as [Hu' _].
      apply Z.leb_le in Hu'. lia.
    - specialize (Hretry i ltac:(lia)).
      rewrite derive_attempt_not_UInt32 in Hretry; [discriminate Hretry|].
      unfold UInt32. apply andb_false_iff. left. apply Z.leb_gt. exact Hneg. }
  assert (Hlt : i' < HIGHEST_BIT).
  { destruct (Z.lt_ge_cases i' HIGHEST_BIT) as [|Hge]; [assumption|].
    rewrite derive_data_hardened_neutered in Hdata by assumption.
    discriminate Hdata. }
  unfold HIGHEST_BIT in Hlt. change (2 ^ 31) with 2147483648.
  rewrite Hi, Hneut. auto with zarith.
Qed.

Lemma derive_neutered_stays_normal_witness :
  exists child,
    derive Reference.ecc Reference.crypto Reference.allocUnsafe
      Reference.point5 3 = Ok child
    /\ index child < 2 ^ 31 /\ isNeutered child = true.
Proof.
  destruct (derive Reference.ecc Reference.crypto Reference.allocUnsafe
              Reference.point5 3) as [child|e] eqn:E;
    [|vm_compute in E; discriminate E].
  destruct (@derive_neutered_stays_normal _ _ _ Reference.point5 3 child
              eq_refl E) as (_ & Hi & Hn).
  exists child. auto.
Defined.

(** X5. [deriveHardened] rejects every index outside [[0, 2^31 - 1]] with
    the [UInt31] guard and derives nothing; when it returns a child, the
    parent and the child are private, the child is one level deeper, and its
    index is hardened: between [index + 2^31] and [2^32 - 1]. *)
Theorem deriveHardened_child
  (ecc : Ecc) (crypto : Crypto) (allocUnsafe : nat -> Buffer)
  (this : BIP32) (j : Z) :
  (j < 0 \/ 2 ^ 31 - 1 < j ->
   deriveHardened ecc crypto allocUnsafe this j = Err EXPECTED_UINT31)
  /\ forall child,
       deriveHardened ecc crypto allocUnsafe this j = Ok child ->
       0 <= j <= 2 ^ 31 - 1
       /\ isNeutered this = false /\ isNeutered child = false
       /\ depth child = depth this + 1
       /\ j + 2 ^ 31 <= index child <= 2 ^ 32 - 1.
Proof.
  change (2 ^ 31) with 2147483648. change (2 ^ 32) with 4294967296.
  unfold deriveHardened, typeforce, guard.
  destruct (UInt31 j) eqn:Hu; cbn [bind].
  - unfold UInt31, UInt32, UINT31_MAX in Hu.
    apply andb_true_iff in Hu. destruct Hu as [Hu Hmax].
    apply andb_true_iff in Hu. destruct Hu as [Hmin _].
    apply Z.leb_le in Hmin. apply Z.leb_le in Hmax.
    change (2 ^ 31 - 1) with 2147483647 in Hmax.
    split; [intros [Hneg|Hbig]; lia|].
    intros child H.
    pose proof (derive_derives ecc crypto allocUnsafe this (j + HIGHEST_BIT)) as Hd.
    rewrite H in Hd. apply derives_effective_index in Hd.
    destruct Hd as (i' & Hle & _ & Hdone).
    pose proof (@derive_attempt_child _ _ _ _ _ _ Hdone)
      as (Hdepth & Hi & _ & _ & Hneut & _).
    pose proof (@derive_attempt_Done_Ok _ _ _ _ _ _ Hdone)
      as (Hu' & data & hd & Hdata & _).
    unfold UInt32 in Hu'. apply andb_true_iff in Hu'. destruct Hu' as [_ Hu'].
    apply Z.leb_le in Hu'. unfold HIGHEST_BIT in Hle.
    assert (Hpriv : isNeutered this = false).
    { destruct (isNeutered this) eqn:En; [|reflexivity].
      rewrite derive_data_hardened_neutered in Hdata
        by (try assumption; unfold HIGHEST_BIT; lia).
      discriminate Hdata. }
    rewrite Hneut, Hi. repeat split; try assumption; lia.
  - split; [reflexivity|]. intros child H. discriminate H.
Qed.

Lemma deriveHardened_child_witness :
  deriveHardened Reference.ecc Reference.crypto Reference.allocUnsafe
    Reference.root5 2147483648 = Err EXPECTED_UINT31
  /\ exists child,
       deriveHardened Reference.ecc Reference.crypto Reference.allocUnsafe
         Reference.root5 1 = Ok child
       /\ 1 + 2 ^ 31 <= index child.
Proof.
  split.
  - apply (deriveHardened_child Reference.ecc Reference.crypto
             Reference.allocUnsafe Reference.root5 2147483648). right. lia.
  - destruct (deriveHardened Reference.ecc Reference.crypto
                Reference.allocUnsafe Reference.root5 1) as [child|e] eqn:E;
      [|vm_compute in E; discriminate E].
    destruct (deriveHardened_child Reference.ecc Reference.crypto
                Reference.allocUnsafe Reference.root5 1) as [_ Hc].
    destruct (Hc child E) as (_ & _ & _ & _ & Hi & _).
    exists child. auto.
Defined.

(** ** Neutered copies *)

Lemma publicKey_of_valid (ecc : Ecc) (this : BIP32) :
  EccLaws ecc -> valid_key ecc this ->
  exists Q, publicKey ecc this = Ok Q /\ length Q = 33%nat /\ isPoint ecc Q = true.
Proof.
  intros He Hk. destruct (__d this) as [d|] eqn:Hd.
  - destruct (@private_point ecc this d He Hk Hd) as (_ & Q & _ & HQ & Hl & Hp).
    exists Q. auto.
  - unfold valid_key in Hk. unfold publicKey. rewrite Hd in *.
    destruct (__Q this) as [Q|]; [|contradiction].
    exists Q. destruct Hk. auto.
Qed.

(** X6. [neutered] succeeds on every valid node.  Its result is a valid node
    without private key, with the same public key, identifier, fingerprint,
    chain code, network and tree position; neutering it again changes
    nothing. *)
Theorem neutered_keeps_public_part
  (ecc : Ecc) (crypto : Crypto) (this : BIP32) :
  EccLaws ecc -> valid_node ecc this ->
  exists nn,
    neutered ecc this = Ok nn
    /\ valid_node ecc nn
    /\ privateKey nn = None
    /\ publicKey ecc nn = publicKey ecc this
    /\ identifier ecc crypto nn = identifier ecc crypto this
    /\ fingerprint ecc crypto nn = fingerprint ecc crypto this
    /\ chainCode nn = chainCode this /\ network nn = network this
    /\ depth nn = depth this /\ index nn = index this
    /\ parentFingerprint nn = parentFingerprint this
    /\ neutered ecc nn = Ok nn.
Proof.
  intros He (Hnet & Hdepth & Hindex & Hpf & Hcc & Hroot & Hkey).
  destruct (@publicKey_of_valid ecc this He Hkey) as (Q & HQ & Hlen & Hpt).
  set (nn := {| __d := None; __Q := Some Q; chainCode := chainCode this;
                network := network this; depth := depth this;
                index := index this;
                parentFingerprint := parentFingerprint this |}).
  exists nn. split; [exact (@neutered_ok ecc this Q HQ Hlen Hpt Hcc Hnet)|].
  unfold fingerprint, identifier. rewrite HQ.
  split.
  { unfold valid_node, valid_key.
    cbn [nn network depth index parentFingerprint chainCode __d __Q]. auto 10. }
  repeat (split; [reflexivity|]).
  exact (@neutered_ok ecc nn Q eq_refl Hlen Hpt Hcc Hnet).
Qed.

Lemma neutered_keeps_public_part_witness :
  exists nn,
    neutered Reference.ecc Reference.deep5 = Ok nn
    /\ privateKey nn = None
    /\ depth nn = 255 /\ index nn = 7 /\ parentFingerprint nn = 9.
Proof.
  destruct (@neutered_keeps_public_part Reference.ecc Reference.crypto
              Reference.deep5 ReferenceLaws.ecc_laws ReferenceLaws.deep5_valid)
    as (nn & H & _ & Hp & _ & _ & _ & _ & _ & Hd & Hi & Hf & _).
  exists nn. auto.
Defined.

(** ** Export and signatures *)

Lemma derive_keeps_neutered_state
  (ecc : Ecc) (crypto : Crypto) (allocUnsafe : nat -> Buffer)
  (this : BIP32) (i : Z) (child : BIP32) :
  derive ecc crypto allocUnsafe this i = Ok child ->
  isNeutered child = isNeutered this
  /\ network child = network this
  /\ depth child = depth this + 1.
Proof.
  intro H.
  pose proof (derive_derives ecc crypto allocUnsafe this i) as Hd.
  rewrite H in Hd. apply derives_effective_index in Hd.
  destruct Hd as (i' & _ & _ & Hdone).
  pose proof (@derive_attempt_child _ _ _ _ _ _ Hdone)
    as (Hdepth & _ & Hnet & _ & Hneut & _).
  auto.
Qed.



Module ReferenceExportLaws.
Import ReferenceExport.

Lemma Buffer_eqb_refl (a : Buffer) : Buffer_eqb a a = true.
Proof.
  induction a as [|x a IH]; [reflexivity|].
  cbn [Buffer_eqb]. rewrite IH, andb_true_r. apply Byte.byte_dec_lb. reflexivity.
Qed.

Lemma eccs_laws : EccSignLaws Reference.ecc eccs.
Proof.
  split. intros hash d Q Hh Hd HQ. cbn in Hd, HQ.
  unfold Reference.pointFromScalar in HQ. rewrite Hd in HQ. cbn [negb] in HQ.
  apply Ok_inj in HQ. injection HQ as <-.
  pose proof (ReferenceLaws.isPrivate_inv _ Hd) as [Hlen _].
  exists (d ++ hash).
  change (ecc_sign hash d = Ok (d ++ hash)
          /\ ecc_verify hash (x02 :: d) (d ++ hash) = Ok true).
  unfold ecc_sign, ecc_verify, BufferN. cbn [Reference.isPoint].
  rewrite Hh, Hd. cbn [Nat.eqb negb]. split; [reflexivity|].
  replace (firstn 32 (d ++ hash)) with d
    by (rewrite <- Hlen, firstn_app, Nat.sub_diag, firstn_all, firstn_O;
        symmetry; apply app_nil_r).
  replace (skipn 32 (d ++ hash)) with hash
    by (rewrite <- Hlen, skipn_app, Nat.sub_diag, skipn_all; reflexivity).
  rewrite !Buffer_eqb_refl. reflexivity.
Qed.

End ReferenceExportLaws.

(** X8. Signatures made by a private node verify, on the node itself and on
    its neutered copy: for a valid private node and a 32-byte hash, [sign]
    returns a signature for which [verify] returns true on both. *)
Theorem sign_verify_consistent
  (ecc : Ecc) (eccs : EccSign) (this : BIP32) (hash : Buffer) :
  EccLaws ecc -> EccSignLaws ecc eccs ->
  valid_node ecc this -> isNeutered this = false ->
  length hash = 32%nat ->
  exists signature,
    sign eccs this hash = Ok signature
    /\ verify ecc eccs this hash signature = Ok true
    /\ forall nn, neutered ecc this = Ok nn ->
                  verify ecc eccs nn hash signature = Ok true.
Proof.
  intros He Hs (Hnet & _ & _ & _ & Hcc & _ & Hkey) Hpriv Hh.
  unfold isNeutered in Hpriv.
  destruct (__d this) as [d|] eqn:Hd; [clear Hpriv|discriminate Hpriv].
  destruct (@private_point ecc this d He Hkey Hd)
    as (Hp & Q & HQ & HpubQ & Hlen & Hpt).
  destruct (sign_verify Hs hash d Hh Hp HQ) as (signature & Hsig & Hver).
  exists signature. unfold sign, verify, privateKey. rewrite Hd, HpubQ.
  cbn [bind]. split; [exact Hsig|]. split; [exact Hver|].
  intros nn Hnn.
  rewrite (@neutered_ok ecc this Q HpubQ Hlen Hpt Hcc Hnet) in Hnn.
  apply Ok_inj in Hnn. subst nn. exact Hver.
Qed.

Lemma sign_verify_consistent_witness :
  exists signature,
    sign ReferenceExport.eccs Reference.root5 ReferenceExport.hash1 = Ok signature
    /\ verify Reference.ecc ReferenceExport.eccs Reference.root5
         ReferenceExport.hash1 signature = Ok true.
Proof.
  destruct (@sign_verify_consistent Reference.ecc ReferenceExport.eccs
              Reference.root5 ReferenceExport.hash1
              ReferenceLaws.ecc_laws ReferenceExportLaws.eccs_laws
              ReferenceLaws.root5_valid eq_refl eq_refl)
    as (signature & H1 & H2 & _).
  exists signature. auto.
Defined.

(** ** The HMAC message and the fresh buffers *)

Lemma buffer_three_parts (buf a b c : Buffer) (n1 n2 n3 : nat) :
  length buf = n3 -> (n1 <= n2 <= n3)%nat ->
  slice buf 0 n1 = a -> slice buf n1 n2 = b -> slice buf n2 n3 = c ->
  buf = a ++ b ++ c.
Proof.
  intros Hlen Hn Ha Hb Hc.
  rewrite <- (@slice_full buf n3 Hlen) at 1.
  rewrite (@slice_split buf 0 n1 n3) by lia.
  rewrite (@slice_split buf n1 n2 n3) by lia.
  rewrite Ha, Hb, Hc. reflexivity.
Qed.

Lemma derive_data_layout
  (ecc : Ecc) (allocUnsafe : nat -> Buffer) (this : BIP32) (i : Z) :
  AllocLaw allocUnsafe -> UInt32 i = true ->
  (forall d, privateKey this = Some d -> length d = 32%nat ->
             HIGHEST_BIT <= i ->
             derive_data ecc allocUnsafe this i
             = Ok ([x00] ++ d ++ be_encode 4 i))
  /\ (forall Q, publicKey ecc this = Ok Q -> length Q = 33%nat ->
                i < HIGHEST_BIT ->
                derive_data ecc allocUnsafe this i = Ok (Q ++ be_encode 4 i)).
Proof.
  intros Ha Hu. pose proof (Ha 37%nat) as L0. split.
  - intros d Hd Hlen Hi. unfold derive_data.
    apply Z.leb_le in Hi. rewrite Hi, Hd.
    set (b0 := allocUnsafe 37%nat) in *.
    set (b1 := copy [x00] b0 0).
    assert (L1 : length b1 = 37%nat)
      by (subst b1; rewrite length_copy; lia).
    set (b2 := copy d b1 1).
    assert (L2 : length b2 = 37%nat)
      by (subst b2; rewrite length_copy; lia).
    rewrite writeUInt32BE_ok by (assumption || lia).
    f_equal.
    apply buffer_three_parts with (n1 := 1%nat) (n2 := 33%nat) (n3 := 37%nat).
    + rewrite length_copy; lia.
    + lia.
    + subst b2 b1.
      rewrite !slice_copy_other
        by (rewrite ?length_be_encode, ?length_copy; cbn [length]; lia).
      apply slice_copy_at; cbn [length]; lia.
    + subst b2.
      rewrite !slice_copy_other
        by (rewrite ?length_be_encode, ?length_copy; cbn [length]; lia).
      apply slice_copy_at; lia.
    + apply slice_copy_at; rewrite length_be_encode; lia.
  - intros Q HQ Hlen Hi. unfold derive_data.
    apply Z.leb_gt in Hi. rewrite Hi, HQ. cbn [bind].
    set (b0 := allocUnsafe 37%nat) in *.
    set (b1 := copy Q b0 0).
    assert (L1 : length b1 = 37%nat)
      by (subst b1; rewrite length_copy; lia).
    rewrite writeUInt32BE_ok by (assumption || lia).
    f_equal.
    rewrite <- (app_nil_l (Q ++ be_encode 4 i)).
    apply buffer_three_parts with (n1 := 0%nat) (n2 := 33%nat) (n3 := 37%nat).
    + rewrite length_copy; lia.
    + lia.
    + reflexivity.
    + subst b1.
      rewrite !slice_copy_other
        by (rewrite ?length_be_encode, ?length_copy; cbn [length]; lia).
      apply slice_copy_at; lia.
    + apply slice_copy_at; rewrite length_be_encode; lia.
Qed.

(** X9. The message that [derive] hands to HMAC-SHA512 has 37 bytes and is
    [0x00 || key || ser32(index)] for a hardened index on a private node with
    a 32-byte key, and [point || ser32(index)] for a normal index on a node
    with a 33-byte public key; nothing of the fresh buffer's unspecified
    content is left in it. *)
Theorem derive_data_message
  (ecc : Ecc) (allocUnsafe : nat -> Buffer) (this : BIP32) (i : Z) :
  AllocLaw allocUnsafe -> UInt32 i = true ->
  (forall d, privateKey this = Some d -> length d = 32%nat ->
             HIGHEST_BIT <= i ->
             derive_data ecc allocUnsafe this i
             = Ok ([x00] ++ d ++ be_encode 4 i))
  /\ (forall Q, publicKey ecc this = Ok Q -> length Q = 33%nat ->
                i < HIGHEST_BIT ->
                derive_data ecc allocUnsafe this i = Ok (Q ++ be_encode 4 i)).
Proof.
  intros Ha Hu. split.
  - intros d Hd Hlen Hi.
    apply (@derive_data_layout ecc allocUnsafe this i Ha Hu); assumption.
  - intros Q HQ Hlen Hi.
    apply (@derive_data_layout ecc allocUnsafe this i Ha Hu); assumption.
Qed.

Lemma derive_data_message_witness :
  derive_data Reference.ecc Reference.allocUnsafe Reference.root5 2147483648
  = Ok ([x00] ++ Reference.scalar5 ++ be_encode 4 2147483648)
  /\ derive_data Reference.ecc Reference.allocUnsafe Reference.point5 1
     = Ok ((x02 :: Reference.scalar5) ++ be_encode 4 1).
Proof.
  split.
  - apply (@derive_data_message Reference.ecc Reference.allocUnsafe
             Reference.root5 2147483648 ReferenceLaws.alloc_law eq_refl);
      [reflexivity|reflexivity|unfold HIGHEST_BIT; lia].
  - apply (@derive_data_message Reference.ecc Reference.allocUnsafe
             Reference.point5 1 ReferenceLaws.alloc_law eq_refl);
      [reflexivity|reflexivity|unfold HIGHEST_BIT; lia].
Defined.

(** ** The encoded payload *)

Lemma toBase58_buffer_payload
  (ecc : Ecc) (allocUnsafe : nat -> Buffer) (this : BIP32) :
  AllocLaw allocUnsafe -> valid_node ecc this ->
  toBase58_buffer ecc allocUnsafe this = Ok (payload_of this)
  /\ length (payload_of this) = 78%nat.
Proof.
  intros Ha Hvalid.
  destruct (@toBase58_buffer_layout ecc allocUnsafe this Ha Hvalid)
    as (buf & Hbuf & Hlen & S0 & S4 & S5 & S9 & S13 & Skey).
  assert (Hkey : slice buf 45 78 = key_material this).
  { unfold key_material. destruct (__d this) as [d|].
    - destruct Skey as [S45 S46].
      rewrite (@slice_split buf 45 46 78) by lia. rewrite S45, S46. reflexivity.
    - destruct (__Q this); [exact Skey|contradiction]. }
  assert (Heq : buf = payload_of this).
  { unfold payload_of, version_word.
    rewrite <- (@slice_full buf 78 Hlen) at 1.
    rewrite (@slice_split buf 0 4 78) by lia.
    rewrite (@slice_split buf 4 5 78) by lia.
    rewrite (@slice_split buf 5 9 78) by lia.
    rewrite (@slice_split buf 9 13 78) by lia.
    rewrite (@slice_split buf 13 45 78) by lia.
    rewrite S0, S4, S5, S9, S13, Hkey. reflexivity. }
  rewrite <- Heq. auto.
Qed.

(** X10. The payload that [toBase58] encodes for a valid node is the 78-byte
    layout: version word (private or public by neutered state), depth byte,
    parent fingerprint, index, chain code, then [0x00 || key] for a private
    node or the 33-byte point for a neutered one, all integers big-endian. *)
Theorem toBase58_payload_layout
  (ecc : Ecc) (bs58check : Bs58check) (allocUnsafe : nat -> Buffer)
  (this : BIP32) :
  AllocLaw allocUnsafe -> valid_node ecc this ->
  toBase58 ecc bs58check allocUnsafe this = Ok (encode bs58check (payload_of this))
  /\ length (payload_of this) = 78%nat
  /\ slice (payload_of this) 0 4 = be_encode 4 (version_word this)
  /\ slice (payload_of this) 13 45 = chainCode this
  /\ slice (payload_of this) 45 78 = key_material this.
Proof.
  intros Ha Hvalid.
  destruct (@toBase58_buffer_payload ecc allocUnsafe this Ha Hvalid) as [Hb Hlen].
  destruct (@toBase58_buffer_layout ecc allocUnsafe this Ha Hvalid)
    as (buf & Hbuf & _ & S0 & _ & _ & _ & S13 & Skey).
  assert (buf = payload_of this) by congruence. subst buf.
  unfold toBase58. rewrite Hb. cbn [bind].
  split; [reflexivity|]. split; [exact Hlen|]. split; [exact S0|].
  split; [exact S13|].
  unfold key_material. destruct (__d this) as [d|].
  - destruct Skey as [S45 S46].
    rewrite (@slice_split (payload_of this) 45 46 78) by lia.
    rewrite S45, S46. reflexivity.
  - destruct (__Q this); [exact Skey|contradiction].
Qed.

Lemma toBase58_payload_layout_witness :
  toBase58 Reference.ecc Reference.bs58check Reference.allocUnsafe Reference.deep5
  = Ok (Reference.encode (payload_of Reference.deep5))
  /\ length (payload_of Reference.deep5) = 78%nat.
Proof.
  destruct (@toBase58_payload_layout Reference.ecc Reference.bs58check
              Reference.allocUnsafe Reference.deep5
              ReferenceLaws.alloc_law ReferenceLaws.deep5_valid)
    as (H1 & H2 & _).
  split; [exact H1|exact H2].
Defined.

Lemma derive_attempt_alloc
  (ecc : Ecc) (crypto : Crypto) (a1 a2 : nat -> Buffer) (this : BIP32) (k : Z) :
  AllocLaw a1 -> AllocLaw a2 -> EccLaws ecc -> valid_node ecc this ->
  derive_attempt ecc crypto a1 this k = derive_attempt ecc crypto a2 this k.
Proof.
  intros H1 H2 He (_ & _ & _ & _ & _ & _ & Hkey).
  assert (Hdata : UInt32 k = true ->
            derive_data ecc a1 this k = derive_data ecc a2 this k).
  { intro Hu. destruct (Z.lt_ge_cases k HIGHEST_BIT) as [Hlt|Hge].
    - destruct (@publicKey_of_valid ecc this He Hkey) as (Q & HQ & Hlen & _).
      destruct (@derive_data_layout ecc a1 this k H1 Hu) as [_ Ha].
      destruct (@derive_data_layout ecc a2 this k H2 Hu) as [_ Hb].
      rewrite (Ha Q HQ Hlen Hlt), (Hb Q HQ Hlen Hlt). reflexivity.
    - destruct (privateKey this) as [d|] eqn:Hd.
      + assert (Hlen : length d = 32%nat).
        { unfold valid_key in Hkey. unfold privateKey in Hd. rewrite Hd in Hkey.
          destruct (__Q this); tauto. }
        destruct (@derive_data_layout ecc a1 this k H1 Hu) as [Ha _].
        destruct (@derive_data_layout ecc a2 this k H2 Hu) as [Hb _].
        rewrite (Ha d Hd Hlen Hge), (Hb d Hd Hlen Hge). reflexivity.
      + unfold derive_data. apply Z.leb_le in Hge. rewrite Hge, Hd. reflexivity. }
  unfold derive_attempt, typeforce, guard.
  destruct (UInt32 k); cbn [bind]; [|reflexivity].
  rewrite (Hdata eq_refl). reflexivity.
Qed.

Lemma derive_iter_alloc
  (ecc : Ecc) (crypto : Crypto) (a1 a2 : nat -> Buffer) (this : BIP32) (n : nat) :
  AllocLaw a1 -> AllocLaw a2 -> EccLaws ecc -> valid_node ecc this ->
  forall k, derive_iter ecc crypto a1 n this k = derive_iter ecc crypto a2 n this k.
Proof.
  intros H1 H2 He Hv. induction n as [|n IH]; intro k; cbn [derive_iter].
  - rewrite (@derive_attempt_alloc ecc crypto a1 a2 this k H1 H2 He Hv).
    reflexivity.
  - rewrite IH. destruct (derive_iter ecc crypto a2 n this k); [apply IH|reflexivity].
Qed.

(** X11. The unspecified content of [Buffer.allocUnsafe] never reaches a
    result: on a valid node, [derive] at any index and [toBase58] return the
    same with any two allocators that return buffers of the requested
    length. *)
Theorem results_independent_of_allocUnsafe
  (ecc : Ecc) (crypto : Crypto) (bs58check : Bs58check)
  (a1 a2 : nat -> Buffer) (this : BIP32) :
  AllocLaw a1 -> AllocLaw a2 -> EccLaws ecc -> valid_node ecc this ->
  (forall i, derive ecc crypto a1 this i = derive ecc crypto a2 this i)
  /\ toBase58 ecc bs58check a1 this = toBase58 ecc bs58check a2 this.
Proof.
  intros H1 H2 He Hv. split.
  - intro i. unfold derive.
    rewrite (@derive_iter_alloc ecc crypto a1 a2 this 33 H1 H2 He Hv i).
    reflexivity.
  - unfold toBase58.
    destruct (@toBase58_buffer_payload ecc a1 this H1 Hv) as [-> _].
    destruct (@toBase58_buffer_payload ecc a2 this H2 Hv) as [-> _].
    reflexivity.
Qed.

Lemma results_independent_of_allocUnsafe_witness :
  derive Reference.ecc Reference.crypto Reference.allocUnsafe Reference.root5 0
  = derive Reference.ecc Reference.crypto (repeat x00) Reference.root5 0.
Proof.
  apply (@results_independent_of_allocUnsafe Reference.ecc Reference.crypto
           Reference.bs58check Reference.allocUnsafe (repeat x00) Reference.root5
           ReferenceLaws.alloc_law (fun n => repeat_length x00 n)
           ReferenceLaws.ecc_laws ReferenceLaws.root5_valid).
Defined.

(** ** Decoded nodes *)

Lemma fromBase58_network
  (ecc : Ecc) (bs58check : Bs58check) (s : string) (net : option Network)
  (hd : BIP32) :
  fromBase58 ecc bs58check s net = Ok hd ->
  exists buf,
    decode bs58check s = Ok buf /\ length buf = 78%nat
    /\ NETWORK_TYPE (or_BITCOIN net) = true.
Proof.
  unfold fromBase58. intro H.
  destruct (decode bs58check s) as [buf|e]; cbn [bind] in H; [|discriminate H].
  exists buf. split; [reflexivity|].
  destruct (length buf =? 78)%nat eqn:Hlen; cbn [negb] in H; [|discriminate H].
  apply Nat.eqb_eq in Hlen. split; [exact Hlen|].
  destruct (readUInt32BE buf 0) as [v|e]; cbn [bind] in H; [|discriminate H].
  destruct (negb (v =? private (bip32 (or_BITCOIN net)))
            && negb (v =? public (bip32 (or_BITCOIN net)))); [discriminate H|].
  destruct (readUInt8 buf 4) as [dp|e]; cbn [bind] in H; [|discriminate H].
  destruct (readUInt32BE buf 5) as [pf|e]; cbn [bind] in H; [|discriminate H].
  destruct ((dp =? 0) && negb (pf =? 0)); [discriminate H|].
  destruct (readUInt32BE buf 9) as [ix|e]; cbn [bind] in H; [|discriminate H].
  destruct ((dp =? 0) && negb (ix =? 0)); [discriminate H|].
  destruct (v =? private (bip32 (or_BITCOIN net))).
  - destruct (readUInt8 buf 45) as [mk|e]; cbn [bind] in H; [|discriminate H].
    destruct (negb (mk =? 0)); [discriminate H|].
    destruct (fromPrivateKey ecc (slice buf 46 78) (slice buf 13 45)
                (Some (or_BITCOIN net))) as [hd0|e] eqn:Hf;
      cbn [bind] in H; [|discriminate H].
    apply fromPrivateKey_inv in Hf. tauto.
  - destruct (fromPublicKey ecc (slice buf 45 78) (slice buf 13 45)
                (Some (or_BITCOIN net))) as [hd0|e] eqn:Hf;
      cbn [bind] in H; [|discriminate H].
    apply fromPublicKey_inv in Hf. tauto.
Qed.

(** What a successful [fromBase58] read, and the node it built. *)
Lemma fromBase58_Ok_inv
  (ecc : Ecc) (bs58check : Bs58check) (s : string) (net : option Network)
  (hd : BIP32) :
  fromBase58 ecc bs58check s net = Ok hd ->
  exists buf,
    decode bs58check s = Ok buf /\ length buf = 78%nat
    /\ NETWORK_TYPE (or_BITCOIN net) = true
    /\ (payload_depth buf = 0 ->
        payload_parentFingerprint buf = 0 /\ payload_index buf = 0)
    /\ ((payload_version buf = private (bip32 (or_BITCOIN net))
         /\ payload_marker buf = 0
         /\ isPrivate ecc (payload_scalar buf) = true
         /\ hd = {| __d := Some (payload_scalar buf); __Q := None;
                    chainCode := payload_chainCode buf;
                    network := or_BITCOIN net;
                    depth := payload_depth buf; index := payload_index buf;
                    parentFingerprint := payload_parentFingerprint buf |})
        \/ (payload_version buf <> private (bip32 (or_BITCOIN net))
            /\ payload_version buf = public (bip32 (or_BITCOIN net))
            /\ isPoint ecc (payload_point buf) = true
            /\ hd = {| __d := None; __Q := Some (payload_point buf);
                       chainCode := payload_chainCode buf;
                       network := or_BITCOIN net;
                       depth := payload_depth buf; index := payload_index buf;
                       parentFingerprint := payload_parentFingerprint buf |})).
Proof.
  intro H. destruct (fromBase58_network _ _ _ _ H) as (buf & Hdec & Hlen & Hnet).
  exists buf. split; [exact Hdec|]. split; [exact Hlen|]. split; [exact Hnet|].
  rewrite (@fromBase58_payload ecc bs58check s net buf Hdec Hlen Hnet) in H.
  destruct (payload_version buf =? private (bip32 (or_BITCOIN net))) eqn:Ev;
    destruct (payload_version buf =? public (bip32 (or_BITCOIN net))) eqn:Ew;
    cbn [negb andb] in H; try discriminate H;
    (destruct (payload_depth buf =? 0) eqn:Ed;
     [destruct (payload_parentFingerprint buf =? 0) eqn:Ef;
      [destruct (payload_index buf =? 0) eqn:Ei|]|];
     cbn [negb andb] in H; try discriminate H).
  all: try (destruct (payload_marker buf =? 0) eqn:Em;
            cbn [negb andb] in H; try discriminate H).
  all: try (destruct (isPrivate ecc (payload_scalar buf)) eqn:Ek;
            try discriminate H).
  all: try (destruct (isPoint ecc (payload_point buf)) eqn:Ep;
            try discriminate H).
  all: apply Ok_inj in H; subst hd; eqb_to_prop;
    (split; [intro; try lia; auto|]);
    first [ left; repeat split; assumption
          | right; repeat split; assumption ].
Qed.

Lemma fromBase58_valid_node
  (ecc : Ecc) (bs58check : Bs58check) (s : string) (net : option Network)
  (hd : BIP32) :
  fromBase58 ecc bs58check s net = Ok hd -> valid_node ecc hd.
Proof.
  intro H. apply fromBase58_Ok_inv in H.
  destruct H as (buf & _ & Hlen & Hnet & Hroot & Hkind).
  assert (Hdepth : 0 <= payload_depth buf <= 255).
  { unfold payload_depth.
    pose proof (be_decode_bound (slice buf 4 5)) as Hb.
    rewrite length_slice in Hb by lia.
    change (2 ^ (8 * Z.of_nat (5 - 4))) with 256 in Hb. lia. }
  assert (Hpf : UInt32 (payload_parentFingerprint buf) = true)
    by (apply be_decode_UInt32; rewrite length_slice; lia).
  assert (Hix : UInt32 (payload_index buf) = true)
    by (apply be_decode_UInt32; rewrite length_slice; lia).
  assert (Hcc : length (payload_chainCode buf) = 32%nat)
    by (unfold payload_chainCode; rewrite length_slice; lia).
  destruct Hkind as [(_ & _ & Hp & ->)|(_ & _ & Hp & ->)];
    unfold valid_node, valid_key;
    cbn [network depth index parentFingerprint chainCode __d __Q];
    repeat split; try assumption; try lia; try (apply Hroot; assumption).
  - unfold payload_scalar. rewrite length_slice; lia.
  - unfold payload_point. rewrite length_slice; lia.
Qed.

(** X12. [fromBase58] returns only valid nodes: every field of the node is
    in its range, a node at depth 0 has zero index and parent fingerprint,
    the chain code has 32 bytes, and the key is a 32-byte scalar in range or
    a 33-byte point on the curve. *)
Theorem fromBase58_valid
  (ecc : Ecc) (bs58check : Bs58check) (s : string) (net : option Network)
  (hd : BIP32) :
  fromBase58 ecc bs58check s net = Ok hd ->
  valid_node ecc hd /\ network hd = or_BITCOIN net.
Proof.
  intro H. split; [exact (@fromBase58_valid_node ecc bs58check s net hd H)|].
  apply fromBase58_Ok_inv in H.
  destruct H as (buf & _ & _ & _ & _ & [(_ & _ & _ & ->)|(_ & _ & _ & ->)]);
    reflexivity.
Qed.

Lemma fromBase58_valid_witness :
  exists s hd,
    fromBase58 Reference.ecc Reference.bs58check s None = Ok hd
    /\ valid_node Reference.ecc hd.
Proof.
  exists (Reference.encode (payload_of Reference.deep5)).
  destruct (fromBase58 Reference.ecc Reference.bs58check
              (Reference.encode (payload_of Reference.deep5)) None)
    as [hd|e] eqn:E; [|vm_compute in E; discriminate E].
  exists hd. split; [reflexivity|].
  exact (proj1 (@fromBase58_valid _ _ _ _ _ E)).
Defined.

Lemma be_encode_1 (z : Z) : be_encode 1 z = [byte_of_Z z].
Proof. reflexivity. Qed.

(** X13. Decoding then encoding gives back the text: when [fromBase58]
    returns a node for a string, [toBase58] on that node returns the same
    string, for a codec whose [encode] inverts [decode]. *)
Theorem fromBase58_toBase58
  (ecc : Ecc) (bs58check : Bs58check) (allocUnsafe : nat -> Buffer)
  (s : string) (net : option Network) (hd : BIP32) :
  Bs58checkCanonical bs58check -> AllocLaw allocUnsafe ->
  fromBase58 ecc bs58check s net = Ok hd ->
  toBase58 ecc bs58check allocUnsafe hd = Ok s.
Proof.
  intros Hcanon Ha H.
  pose proof (@fromBase58_valid_node ecc bs58check s net hd H) as Hvalid.
  destruct (fromBase58_Ok_inv _ _ _ _ H) as (buf & Hdec & Hlen & Hnet & _ & Hkind).
  destruct (@toBase58_buffer_payload ecc allocUnsafe hd Ha Hvalid) as [Hb _].
  unfold toBase58. rewrite Hb. cbn [bind]. f_equal.
  rewrite <- (Hcanon s buf Hdec). f_equal.
  assert (E4 : forall a, (a + 4 <= 78)%nat ->
            be_encode 4 (be_decode (slice buf a (a + 4))) = slice buf a (a + 4)).
  { intros a Hle.
    assert (Hl : length (slice buf a (a + 4)) = 4%nat)
      by (rewrite length_slice; lia).
    pose proof (be_encode_decode (slice buf a (a + 4))) as Hx.
    rewrite Hl in Hx. exact Hx. }
  assert (E1 : forall a, (a + 1 <= 78)%nat ->
            [byte_of_Z (be_decode (slice buf a (a + 1)))] = slice buf a (a + 1)).
  { intros a Hle. rewrite <- be_encode_1.
    assert (Hl : length (slice buf a (a + 1)) = 1%nat)
      by (rewrite length_slice; lia).
    pose proof (be_encode_decode (slice buf a (a + 1))) as Hx.
    rewrite Hl in Hx. exact Hx. }
  assert (F0 : be_encode 4 (be_decode (slice buf 0 4)) = slice buf 0 4)
    by (exact (E4 0%nat ltac:(lia))).
  assert (F4 : [byte_of_Z (be_decode (slice buf 4 5))] = slice buf 4 5)
    by (exact (E1 4%nat ltac:(lia))).
  assert (F5 : be_encode 4 (be_decode (slice buf 5 9)) = slice buf 5 9)
    by (exact (E4 5%nat ltac:(lia))).
  assert (F9 : be_encode 4 (be_decode (slice buf 9 13)) = slice buf 9 13)
    by (exact (E4 9%nat ltac:(lia))).
  assert (F45 : [byte_of_Z (be_decode (slice buf 45 46))] = slice buf 45 46)
    by (exact (E1 45%nat ltac:(lia))).
  rewrite <- (@slice_full buf 78 Hlen).
  rewrite (@slice_split buf 0 4 78) by lia.
  rewrite (@slice_split buf 4 5 78) by lia.
  rewrite (@slice_split buf 5 9 78) by lia.
  rewrite (@slice_split buf 9 13 78) by lia.
  rewrite (@slice_split buf 13 45 78) by lia.
  unfold payload_of, version_word, key_material, isNeutered.
  destruct Hkind as [(Hv & Hm & _ & ->)|(_ & Hv & _ & ->)];
    cbn [network depth index parentFingerprint chainCode __d __Q negb].
  - rewrite <- Hv. unfold payload_version, payload_depth,
      payload_parentFingerprint, payload_index, payload_chainCode, payload_scalar.
    rewrite F0, F4, F5, F9.
    rewrite (@slice_split buf 45 46 78) by lia.
    assert (Hmark : slice buf 45 46 = [x00]).
    { rewrite <- F45. unfold payload_marker in Hm. rewrite Hm. reflexivity. }
    rewrite Hmark. reflexivity.
  - rewrite <- Hv. unfold payload_version, payload_depth,
      payload_parentFingerprint, payload_index, payload_chainCode, payload_point.
    rewrite F0, F4, F5, F9. reflexivity.
Qed.

Lemma Reference_bs58check_canonical : Bs58checkCanonical Reference.bs58check.
Proof.
  intros s buf H. cbn in H. unfold Reference.decode in H.
  apply Ok_inj in H. subst buf.
  change (Reference.encode (List.map byte_of_ascii (list_ascii_of_string s)) = s).
  unfold Reference.encode. rewrite map_map.
  rewrite (map_ext _ (fun c => c)) by (intro c; apply ascii_of_byte_of_ascii).
  rewrite map_id. apply string_of_list_ascii_of_string.
Qed.

Lemma fromBase58_toBase58_witness :
  exists hd,
    fromBase58 Reference.ecc Reference.bs58check
      (Reference.encode (payload_of Reference.deep5)) None = Ok hd
    /\ toBase58 Reference.ecc Reference.bs58check Reference.allocUnsafe hd
       = Ok (Reference.encode (payload_of Reference.deep5)).
Proof.
  destruct (fromBase58 Reference.ecc Reference.bs58check
              (Reference.encode (payload_of Reference.deep5)) None)
    as [hd|e] eqn:E; [|vm_compute in E; discriminate E].
  exists hd. split; [reflexivity|].
  exact (@fromBase58_toBase58 Reference.ecc Reference.bs58check
           Reference.allocUnsafe _ None hd
           Reference_bs58check_canonical ReferenceLaws.alloc_law E).
Defined.

(** ** Strings and the language of the path pattern *)

Lemma append_nil_r (s : string) : (s ++ "")%string = s.
Proof. induction s as [|c s IH]; cbn; [reflexivity|rewrite IH; reflexivity]. Qed.

Lemma append_assoc (a b c : string) :
  ((a ++ b) ++ c)%string = (a ++ (b ++ c))%string.
Proof. induction a as [|x a IH]; cbn; [reflexivity|rewrite IH; reflexivity]. Qed.

Lemma append_eq_empty (a b : string) :
  (a ++ b)%string = EmptyString -> a = EmptyString /\ b = EmptyString.
Proof. destruct a; cbn; [auto|discriminate]. Qed.

Lemma append_eq_cons (a b : string) (c : ascii) (s : string) :
  (a ++ b)%string = String c s ->
  (a = EmptyString /\ b = String c s)
  \/ exists a', a = String c a' /\ s = (a' ++ b)%string.
Proof.
  destruct a as [|x a]; cbn; intro H; [left; auto|].
  injection H as -> <-. right. exists a. auto.
Qed.

Lemma nullable_lang (r : regex) : nullable r = true <-> lang r EmptyString.
Proof.
  induction r as [| | c | |r1 IH1 r2 IH2|r1 IH1 r2 IH2|r IH]; cbn [nullable].
  - split; [discriminate|]. intro H. inversion H.
  - split; [intros _; constructor|reflexivity].
  - split; [discriminate|]. intro H. inversion H.
  - split; [discriminate|]. intro H. inversion H.
  - rewrite andb_true_iff, IH1, IH2. split.
    + intros [H1 H2]. change EmptyString with ("" ++ "")%string.
      constructor; assumption.
    + intro H. inversion H as [| | |? ? s1 s2 H1 H2| | | |]; subst.
      match goal with
      | Heq : (s1 ++ s2)%string = EmptyString |- _ =>
          apply append_eq_empty in Heq; destruct Heq as [-> ->]
      end. auto.
  - rewrite orb_true_iff, IH1, IH2. split.
    + intros [H|H]; [apply lang_AltL|apply lang_AltR]; assumption.
    + intro H. inversion H; subst; auto.
  - split; [intros _; constructor|reflexivity].
Qed.

Lemma lang_Star_cons (r : regex) (c : ascii) (s : string) :
  lang (Star r) (String c s) ->
  exists s1 s2, s = (s1 ++ s2)%string
                /\ lang r (String c s1) /\ lang (Star r) s2.
Proof.
  intro H. remember (Star r) as r' eqn:Hr. remember (String c s) as t eqn:Ht.
  revert r c s Hr Ht.
  induction H as [| | | | | | |r0 s1 s2 H1 _ H2 IH2]; intros rr cc ss Hr Ht;
    try discriminate.
  injection Hr as ->.
  apply append_eq_cons in Ht. destruct Ht as [[-> ->]|[a' [-> ->]]].
  - apply (IH2 rr cc ss); reflexivity.
  - exists a', s2. auto.
Qed.

Lemma deriv_lang (r : regex) :
  forall c s, lang (deriv c r) s <-> lang r (String c s).
Proof.
  induction r as [| | c' | |r1 IH1 r2 IH2|r1 IH1 r2 IH2|r IH]; intros c s;
    cbn [deriv].
  - split; intro H; inversion H.
  - split; intro H; inversion H.
  - destruct (Ascii.eqb c c') eqn:E.
    + apply Ascii.eqb_eq in E. subst c'. split; intro H.
      * inversion H; subst. constructor.
      * inversion H; subst. constructor.
    + apply Ascii.eqb_neq in E. split; intro H; inversion H; subst.
      contradiction.
  - destruct (is_digit c) eqn:E.
    + split; intro H; inversion H; subst; constructor. exact E.
    + split; intro H; inversion H; subst. congruence.
  - split.
    + intro H.
      assert (Hcat : lang (Cat (deriv c r1) r2) s -> lang (Cat r1 r2) (String c s)).
      { intro Hc. inversion Hc as [| | |? ? s1 s2 H1 H2| | | |]; subst.
        apply IH1 in H1.
        change (String c (s1 ++ s2)) with (String c s1 ++ s2)%string.
        constructor; assumption. }
      destruct (nullable r1) eqn:En; [|auto].
      inversion H; subst; [auto|].
      apply nullable_lang in En.
      change (String c s) with ("" ++ String c s)%string.
      constructor; [exact En|]. apply IH2. assumption.
    + intro H. inversion H as [| | |? ? s1 s2 H1 H2| | | |]; subst.
      match goal with
      | Heq : (s1 ++ s2)%string = String c s |- _ =>
          apply append_eq_cons in Heq; destruct Heq as [[-> ->]|[a' [-> ->]]]
      end.
      * assert (En : nullable r1 = true) by (apply nullable_lang; exact H1).
        rewrite En. apply lang_AltR. apply IH2. exact H2.
      * assert (Hc : lang (Cat (deriv c r1) r2) (a' ++ s2)).
        { constructor; [apply IH1; exact H1|exact H2]. }
        destruct (nullable r1); [apply lang_AltL|]; exact Hc.
  - split; intro H.
    + inversion H; subst; [apply lang_AltL; apply IH1|apply lang_AltR; apply IH2];
        assumption.
    + inversion H; subst; [apply lang_AltL; apply IH1|apply lang_AltR; apply IH2];
        assumption.
  - split; intro H.
    + inversion H as [| | |? ? s1 s2 H1 H2| | | |]; subst.
      apply IH in H1.
      change (String c (s1 ++ s2)) with (String c s1 ++ s2)%string.
      constructor; assumption.
    + apply lang_Star_cons in H. destruct H as (s1 & s2 & -> & H1 & H2).
      constructor; [apply IH; exact H1|exact H2].
Qed.

(** The matcher decides the language. *)
Lemma matches_lang (s : string) : forall r, matches r s = true <-> lang r s.
Proof.
  induction s as [|c s IH]; intro r; cbn [matches].
  - apply nullable_lang.
  - rewrite IH. apply deriv_lang.
Qed.

Lemma lang_Cat_iff (r1 r2 : regex) (s : string) :
  lang (Cat r1 r2) s <->
  exists s1 s2, s = (s1 ++ s2)%string /\ lang r1 s1 /\ lang r2 s2.
Proof.
  split.
  - intro H. inversion H as [| | |? ? s1 s2 H1 H2| | | |]; subst.
    exists s1, s2. auto.
  - intros (s1 & s2 & -> & H1 & H2). constructor; assumption.
Qed.

Lemma lang_Alt_iff (r1 r2 : regex) (s : string) :
  lang (Alt r1 r2) s <-> lang r1 s \/ lang r2 s.
Proof.
  split.
  - intro H. inversion H; subst; auto.
  - intros [H|H]; [apply lang_AltL|apply lang_AltR]; exact H.
Qed.

Lemma lang_Eps_iff (s : string) : lang Eps s <-> s = EmptyString.
Proof.
  split; [intro H; inversion H; reflexivity|intros ->; constructor].
Qed.

Lemma lang_Lit_iff (c : ascii) (s : string) :
  lang (Lit c) s <-> s = String c EmptyString.
Proof.
  split; [intro H; inversion H; reflexivity|intros ->; constructor].
Qed.

Lemma lang_Digit_iff (s : string) :
  lang Digit s <-> exists c, is_digit c = true /\ s = String c EmptyString.
Proof.
  split.
  - intro H. inversion H as [| |c Hc| | | | |]; subst. exists c. auto.
  - intros (c & Hc & ->). constructor. exact Hc.
Qed.

Lemma lang_Star_Digit (s : string) :
  lang (Star Digit) s <-> all_digits s = true.
Proof.
  induction s as [|c s IH]; cbn [all_digits].
  - split; [reflexivity|intros _; constructor].
  - rewrite andb_true_iff, <- IH. split.
    + intro H. apply lang_Star_cons in H. destruct H as (s1 & s2 & -> & H1 & H2).
      apply lang_Digit_iff in H1. destruct H1 as (c' & Hc & Heq).
      injection Heq as -> ->. auto.
    + intros [Hc H]. change (String c s) with (String c "" ++ s)%string.
      apply lang_StarS; [constructor; exact Hc|exact H].
Qed.

Lemma lang_Plus_Digit (s : string) :
  lang (Plus Digit) s <-> decimal s = true.
Proof.
  unfold Plus, decimal. rewrite lang_Cat_iff. split.
  - intros (s1 & s2 & -> & H1 & H2).
    apply lang_Digit_iff in H1. destruct H1 as (c & Hc & ->).
    apply lang_Star_Digit in H2. cbn. rewrite Hc, H2. reflexivity.
  - destruct s as [|c s]; [discriminate|]. cbn [all_digits String.eqb negb andb].
    intro H. apply andb_true_iff in H. destruct H as [Hc H].
    exists (String c ""), s. split; [reflexivity|].
    split; [constructor; exact Hc|apply lang_Star_Digit; exact H].
Qed.

Lemma lang_Opt_quote (s : string) :
  lang (Opt (Lit "'")) s <-> s = EmptyString \/ s = "'"%string.
Proof.
  unfold Opt. rewrite lang_Alt_iff, lang_Lit_iff, lang_Eps_iff. tauto.
Qed.

Lemma lang_segment (s : string) :
  lang (Cat (Plus Digit) (Opt (Lit "'"))) s <->
  exists seg, segment_ok seg /\ s = segment_string seg.
Proof.
  rewrite lang_Cat_iff. split.
  - intros (s1 & s2 & -> & H1 & H2).
    apply lang_Plus_Digit in H1. apply lang_Opt_quote in H2.
    destruct H2 as [->| ->].
    + exists (false, s1). split; [exact H1|]. cbn. apply append_nil_r.
    + exists (true, s1). split; [exact H1|reflexivity].
  - intros ([h ds] & Hok & ->). unfold segment_ok in Hok. cbn [snd] in Hok.
    apply lang_Plus_Digit in Hok. destruct h; cbn [segment_string fst snd].
    + exists ds, "'"%string. split; [reflexivity|].
      split; [exact Hok|apply lang_Opt_quote; auto].
    + exists ds, ""%string. split; [symmetry; apply append_nil_r|].
      split; [exact Hok|apply lang_Opt_quote; auto].
Qed.

Lemma lang_block (s : string) :
  lang (Cat (Plus Digit) (Cat (Opt (Lit "'")) (Lit "/"))) s <->
  exists seg, segment_ok seg /\ s = (segment_string seg ++ "/")%string.
Proof.
  rewrite lang_Cat_iff. split.
  - intros (s1 & s23 & -> & H1 & H23).
    apply lang_Cat_iff in H23. destruct H23 as (s2 & s3 & -> & H2 & H3).
    apply lang_Lit_iff in H3. subst s3.
    assert (Hseg : lang (Cat (Plus Digit) (Opt (Lit "'"))) (s1 ++ s2))
      by (constructor; assumption).
    apply lang_segment in Hseg. destruct Hseg as (seg & Hok & Heq).
    exists seg. split; [exact Hok|]. rewrite <- Heq. symmetry. apply append_assoc.
  - intros (seg & Hok & ->).
    assert (Hseg : lang (Cat (Plus Digit) (Opt (Lit "'"))) (segment_string seg))
      by (apply lang_segment; exists seg; auto).
    apply lang_Cat_iff in Hseg. destruct Hseg as (s1 & s2 & Heq & H1 & H2).
    exists s1, (s2 ++ "/")%string. rewrite Heq.
    split; [apply append_assoc|]. split; [exact H1|].
    constructor; [exact H2|constructor].
Qed.

Lemma lang_Star_blocks (s : string) :
  lang (Star (Cat (Plus Digit) (Cat (Opt (Lit "'")) (Lit "/")))) s <->
  exists segs, Forall segment_ok segs /\ s = blocks segs.
Proof.
  split.
  - intro H.
    remember (Star (Cat (Plus Digit) (Cat (Opt (Lit "'")) (Lit "/")))) as r eqn:Hr.
    induction H as [| | | | | |r0|r0 s1 s2 H1 _ H2 IH2]; try discriminate.
    + exists []. split; [constructor|reflexivity].
    + injection Hr as ->. destruct (IH2 eq_refl) as (segs & Hall & ->).
      apply lang_block in H1. destruct H1 as (seg & Hok & ->).
      exists (seg :: segs). split; [constructor; assumption|].
      cbn [blocks]. apply append_assoc.
  - intros (segs & Hall & ->). induction Hall as [|seg segs Hok _ IH].
    + constructor.
    + cbn [blocks]. rewrite <- append_assoc.
      apply lang_StarS; [|exact IH]. apply lang_block. exists seg. auto.
Qed.

Lemma join_snoc (init : list segment) (last : segment) :
  join "/" (List.map segment_string (init ++ [last]))
  = (blocks init ++ segment_string last)%string.
Proof.
  induction init as [|seg init IH]; [reflexivity|].
  cbn [app List.map].
  destruct (List.map segment_string (init ++ [last])) as [|x l] eqn:E.
  - destruct init; discriminate E.
  - change (join "/" (segment_string seg :: x :: l))
      with (segment_string seg ++ "/" ++ join "/" (x :: l))%string.
    rewrite IH. cbn [blocks]. rewrite !append_assoc. reflexivity.
Qed.

Lemma BIP32Path_language (path : string) :
  BIP32Path path = true <->
  exists master segs,
    segs <> [] /\ Forall segment_ok segs /\ path = render master segs.
Proof.
  unfold BIP32Path, BIP32Path_regex. rewrite matches_lang.
  rewrite lang_Cat_iff. split.
  - intros (p0 & p12 & -> & H0 & H12).
    apply lang_Cat_iff in H12. destruct H12 as (p1 & p2 & -> & H1 & H2).
    apply lang_Star_blocks in H1. destruct H1 as (init & Hall & ->).
    apply lang_segment in H2. destruct H2 as (last & Hok & ->).
    unfold Opt in H0. apply lang_Alt_iff in H0.
    assert (Hsegs : Forall segment_ok (init ++ [last])).
    { apply Forall_app. split; [exact Hall|]. constructor; [exact Hok|constructor]. }
    destruct H0 as [H0|H0].
    + apply lang_Cat_iff in H0. destruct H0 as (a & b & -> & Ha & Hb).
      apply lang_Lit_iff in Ha. apply lang_Lit_iff in Hb. subst a b.
      exists true, (init ++ [last]).
      split; [destruct init; discriminate|]. split; [exact Hsegs|].
      unfold render. rewrite join_snoc. reflexivity.
    + apply lang_Eps_iff in H0. subst p0.
      exists false, (init ++ [last]).
      split; [destruct init; discriminate|]. split; [exact Hsegs|].
      unfold render. rewrite join_snoc. reflexivity.
  - intros (master & segs & Hne & Hall & ->).
    destruct (exists_last Hne) as (init & last & ->).
    apply Forall_app in Hall. destruct Hall as [Hinit Hlast].
    inversion Hlast as [|? ? Hok _]; subst.
    unfold render. rewrite join_snoc.
    exists (if master then "m/" else "")%string,
      (blocks init ++ segment_string last)%string.
    split; [reflexivity|]. split.
    + unfold Opt. apply lang_Alt_iff. destruct master.
      * left. change "m/"%string with ("m" ++ "/")%string.
        constructor; constructor.
      * right. constructor.
    + constructor.
      * apply lang_Star_blocks. exists init. auto.
      * apply lang_segment. exists last. auto.
Qed.

(** X14. The paths that the [BIP32Path] guard accepts are exactly the texts
    of an optional leading [m/] followed by one or more segments joined by
    [/], each segment one or more decimal digits optionally followed by the
    hardened mark [']. *)
Theorem BIP32Path_accepts (path : string) :
  BIP32Path path = true <->
  exists master segs,
    segs <> [] /\ Forall segment_ok segs /\ path = render master segs.
Proof.
  split; intro H.
  - apply BIP32Path_language. exact H.
  - apply BIP32Path_language. exact H.
Qed.

Lemma BIP32Path_accepts_witness :
  BIP32Path (render true [(true, "44"); (false, "0")]%string) = true.
Proof.
  apply BIP32Path_accepts.
  exists true, [(true, "44"); (false, "0")]%string.
  split; [discriminate|]. split; [|reflexivity].
  repeat constructor.
Defined.

(** ** Path resolution as a fold over segments *)

Lemma is_digit_not (c c' : ascii) :
  is_digit c = true -> is_digit c' = false -> Ascii.eqb c c' = false.
Proof.
  intros H H'. destruct (Ascii.eqb_spec c c') as [->|]; [congruence|reflexivity].
Qed.

Lemma no_slash_app (a b : string) :
  no_slash (a ++ b) = no_slash a && no_slash b.
Proof.
  induction a as [|c a IH]; cbn; [reflexivity|].
  rewrite IH. apply andb_assoc.
Qed.

Lemma all_digits_no_slash (ds : string) :
  all_digits ds = true -> no_slash ds = true.
Proof.
  induction ds as [|c ds IH]; cbn; [reflexivity|].
  intro H. apply andb_true_iff in H. destruct H as [Hc H].
  rewrite (is_digit_not c "/" Hc eq_refl), IH by exact H. reflexivity.
Qed.

Lemma decimal_inv (ds : string) :
  decimal ds = true ->
  exists c rest, ds = String c rest /\ is_digit c = true /\ all_digits rest = true.
Proof.
  unfold decimal. destruct ds as [|c rest]; [discriminate|].
  cbn [String.eqb negb andb all_digits]. intro H.
  apply andb_true_iff in H. destruct H. exists c, rest. auto.
Qed.

Lemma segment_no_slash (seg : segment) :
  segment_ok seg -> no_slash (segment_string seg) = true.
Proof.
  destruct seg as [h ds]. unfold segment_ok, segment_string, decimal.
  cbn [fst snd]. intro H. apply andb_true_iff in H. destruct H as [_ H].
  apply all_digits_no_slash in H.
  destruct h; [rewrite no_slash_app, H; reflexivity|exact H].
Qed.

Lemma segment_not_m (seg : segment) :
  segment_ok seg -> String.eqb (segment_string seg) "m" = false.
Proof.
  destruct seg as [h ds]. unfold segment_ok. cbn [snd]. intro H.
  apply decimal_inv in H. destruct H as (c & rest & -> & Hc & _).
  assert (Hm : Ascii.eqb c "m" = false) by (apply is_digit_not; auto).
  unfold segment_string. cbn [fst snd].
  destruct h; cbn [String.append String.eqb]; rewrite Hm; reflexivity.
Qed.

Lemma split_no_slash (x : string) :
  no_slash x = true -> split "/" x = [x].
Proof.
  induction x as [|c x IH]; cbn [no_slash split]; [reflexivity|].
  intro H. apply andb_true_iff in H. destruct H as [Hc H].
  apply negb_true_iff in Hc. rewrite Hc, (IH H). reflexivity.
Qed.

Lemma split_app_slash (x rest : string) :
  no_slash x = true ->
  split "/" (x ++ String "/" rest) = x :: split "/" rest.
Proof.
  induction x as [|c x IH]; cbn [no_slash String.append]; intro H.
  - reflexivity.
  - apply andb_true_iff in H. destruct H as [Hc H].
    apply negb_true_iff in Hc. cbn [split]. rewrite Hc, (IH H). reflexivity.
Qed.

Lemma split_join (l : list string) :
  l <> [] -> Forall (fun x => no_slash x = true) l ->
  split "/" (join "/" l) = l.
Proof.
  induction l as [|x l IH]; intros Hne Hall; [contradiction|].
  inversion Hall as [|? ? Hx Hl]; subst.
  destruct l as [|y l].
  - cbn [join]. apply split_no_slash. exact Hx.
  - change (join "/" (x :: y :: l))
      with (x ++ String "/" (join "/" (y :: l)))%string.
    rewrite split_app_slash by exact Hx.
    rewrite IH; [reflexivity|discriminate|exact Hl].
Qed.

Lemma split_render (master : bool) (segs : list segment) :
  segs <> [] -> Forall segment_ok segs ->
  split "/" (render master segs)
  = (if master then ["m"%string] else []) ++ List.map segment_string segs.
Proof.
  intros Hne Hall.
  assert (Hs : split "/" (join "/" (List.map segment_string segs))
               = List.map segment_string segs).
  { apply split_join.
    - destruct segs; [contradiction|discriminate].
    - apply Forall_map. eapply Forall_impl; [|exact Hall].
      intros seg Hok. apply segment_no_slash. exact Hok. }
  unfold render. destruct master.
  - change ("m/" ++ join "/" (List.map segment_string segs))%string
      with ("m" ++ String "/" (join "/" (List.map segment_string segs)))%string.
    rewrite split_app_slash by reflexivity. rewrite Hs. reflexivity.
  - cbn [String.append app]. exact Hs.
Qed.

Lemma slice_quote (ds : string) :
  slice_last (ds ++ "'") = "'"%string /\ slice_init (ds ++ "'") = ds.
Proof.
  induction ds as [|c ds [IH1 IH2]]; [split; reflexivity|].
  cbn [String.append].
  destruct (ds ++ "'")%string as [|x t] eqn:E.
  - destruct ds; discriminate E.
  - cbn [slice_last slice_init]. cbn [slice_last slice_init] in IH1, IH2.
    rewrite IH1, IH2. split; reflexivity.
Qed.

Lemma slice_last_digits (ds : string) :
  decimal ds = true -> String.eqb (slice_last ds) "'" = false.
Proof.
  intro H. apply decimal_inv in H. destruct H as (c & rest & -> & Hc & Hrest).
  revert c Hc. induction rest as [|c' rest IH]; intros c Hc.
  - cbn. rewrite (is_digit_not c "'" Hc eq_refl). reflexivity.
  - cbn [all_digits] in Hrest. apply andb_true_iff in Hrest.
    destruct Hrest as [Hc' Hrest].
    change (slice_last (String c (String c' rest)))
      with (slice_last (String c' rest)).
    apply IH; assumption.
Qed.

Lemma parseInt_decimal (ds : string) :
  decimal ds = true -> parseInt ds = Some (parseInt_digits ds 0).
Proof.
  intro H. apply decimal_inv in H. destruct H as (c & rest & -> & Hc & _).
  unfold parseInt. rewrite Hc. reflexivity.
Qed.

(** The callback of [reduce] in [derivePath], on a well-formed segment. *)
Lemma reduce_step_segment
  (ecc : Ecc) (crypto : Crypto) (allocUnsafe : nat -> Buffer)
  (prevHd : result BIP32) (seg : segment) :
  segment_ok seg ->
  (prevHd <- prevHd ;;
   if String.eqb (slice_last (segment_string seg)) "'" then
     deriveHardened_number ecc crypto allocUnsafe prevHd
       (parseInt (slice_init (segment_string seg)))
   else
     derive_number ecc crypto allocUnsafe prevHd
       (parseInt (segment_string seg)))
  = apply_segment ecc crypto allocUnsafe prevHd seg.
Proof.
  destruct seg as [h ds]. unfold segment_ok, apply_segment, segment_string.
  cbn [fst snd]. intro Hok. destruct prevHd as [n|e]; [|reflexivity].
  cbn [bind]. destruct h.
  - destruct (slice_quote ds) as [-> ->]. cbn [String.eqb Ascii.eqb].
    rewrite (parseInt_decimal ds Hok). reflexivity.
  - rewrite (slice_last_digits ds Hok), (parseInt_decimal ds Hok). reflexivity.
Qed.

Lemma derivePath_render
  (ecc : Ecc) (crypto : Crypto) (allocUnsafe : nat -> Buffer)
  (this : BIP32) (master : bool) (segs : list segment) :
  segs <> [] -> Forall segment_ok segs ->
  derivePath ecc crypto allocUnsafe this (render master segs)
  = if master && negb (parentFingerprint this =? 0)
    then Err EXPECTED_MASTER
    else fold_left (apply_segment ecc crypto allocUnsafe) segs (Ok this).
Proof.
  intros Hne Hall.
  assert (Hguard : BIP32Path (render master segs) = true).
  { apply BIP32Path_language. exists master, segs. auto. }
  unfold derivePath, typeforce, guard. rewrite Hguard. cbn [bind].
  rewrite (split_render master Hne Hall).
  assert (Hfold : forall r,
            fold_left
              (fun prevHd indexStr =>
                 prevHd <- prevHd ;;
                 if String.eqb (slice_last indexStr) "'" then
                   deriveHardened_number ecc crypto allocUnsafe prevHd
                     (parseInt (slice_init indexStr))
                 else
                   derive_number ecc crypto allocUnsafe prevHd (parseInt indexStr))
              (List.map segment_string segs) r
            = fold_left (apply_segment ecc crypto allocUnsafe) segs r).
  { clear Hne Hguard. induction Hall as [|seg segs Hok _ IH]; intro r;
      [reflexivity|].
    cbn [List.map fold_left].
    rewrite (@reduce_step_segment ecc crypto allocUnsafe r seg Hok).
    apply IH. }
  destruct master.
  - cbn [app hd tl String.eqb Ascii.eqb andb].
    destruct (negb (parentFingerprint this =? 0)); cbn [bind]; [reflexivity|].
    apply Hfold.
  - cbn [app andb].
    destruct segs as [|seg segs]; [contradiction|].
    inversion Hall as [|? ? Hok _]; subst.
    cbn [List.map hd]. rewrite (@segment_not_m seg Hok). cbn [bind].
    apply (Hfold (Ok this)).
Qed.

(** X15. Path resolution is a left fold: for a path made of an optional
    [m/] and well-formed segments, [derivePath] applies [deriveHardened] to
    each segment marked ['] and [derive] to each other one, in order from the
    node, each at the decimal value of its digits; with the leading [m/] it
    first throws "Expected master, got child" on a node whose parent
    fingerprint is not 0. *)
Theorem derivePath_fold
  (ecc : Ecc) (crypto : Crypto) (allocUnsafe : nat -> Buffer)
  (this : BIP32) (master : bool) (segs : list segment) :
  segs <> [] -> Forall segment_ok segs ->
  (master = true -> parentFingerprint this <> 0 ->
   derivePath ecc crypto allocUnsafe this (render master segs)
   = Err EXPECTED_MASTER)
  /\ (master = false \/ parentFingerprint this = 0 ->
      derivePath ecc crypto allocUnsafe this (render master segs)
      = fold_left (apply_segment ecc crypto allocUnsafe) segs (Ok this)).
Proof.
  intros Hne Hall.
  rewrite (@derivePath_render ecc crypto allocUnsafe this master segs Hne Hall).
  split.
  - intros -> Hpf. apply Z.eqb_neq in Hpf. rewrite Hpf. reflexivity.
  - intros [->|Hpf]; [reflexivity|].
    rewrite Hpf. cbn [Z.eqb negb]. rewrite andb_false_r. reflexivity.
Qed.

Lemma derivePath_fold_witness :
  derivePath Reference.ecc Reference.crypto Reference.allocUnsafe
    Reference.root5 "m/0'/1"
  = (n <- deriveHardened Reference.ecc Reference.crypto Reference.allocUnsafe
            Reference.root5 0 ;;
     derive Reference.ecc Reference.crypto Reference.allocUnsafe n 1)
  /\ derivePath Reference.ecc Reference.crypto Reference.allocUnsafe
       Reference.deep5 "m/0'/1" = Err EXPECTED_MASTER.
Proof.
  destruct (@derivePath_fold Reference.ecc Reference.crypto Reference.allocUnsafe
              Reference.root5 true [(true, "0"); (false, "1")]%string
              ltac:(discriminate) ltac:(repeat constructor)) as [_ H1].
  destruct (@derivePath_fold Reference.ecc Reference.crypto Reference.allocUnsafe
              Reference.deep5 true [(true, "0"); (false, "1")]%string
              ltac:(discriminate) ltac:(repeat constructor)) as [H2 _].
  split.
  - exact (H1 (or_intror eq_refl)).
  - apply H2; [reflexivity|discriminate].
Defined.

Lemma fold_apply_segment_Err
  (ecc : Ecc) (crypto : Crypto) (allocUnsafe : nat -> Buffer)
  (segs : list segment) (e : error) :
  fold_left (apply_segment ecc crypto allocUnsafe) segs (Err e) = Err e.
Proof. induction segs as [|seg segs IH]; [reflexivity|exact IH]. Qed.

Lemma fold_apply_segment_bind
  (ecc : Ecc) (crypto : Crypto) (allocUnsafe : nat -> Buffer)
  (segs : list segment) (r : result BIP32) :
  fold_left (apply_segment ecc crypto allocUnsafe) segs r
  = (n <- r ;; fold_left (apply_segment ecc crypto allocUnsafe) segs (Ok n)).
Proof.
  destruct r as [n|e]; [reflexivity|]. apply fold_apply_segment_Err.
Qed.

Lemma join_app (sep : string) (l1 l2 : list string) :
  l1 <> [] -> l2 <> [] ->
  join sep (l1 ++ l2) = (join sep l1 ++ sep ++ join sep l2)%string.
Proof.
  intros H1 H2. induction l1 as [|x l1 IH]; [contradiction|].
  destruct l1 as [|y l1].
  - cbn [app join]. destruct l2; [contradiction|reflexivity].
  - change (join sep ((x :: y :: l1) ++ l2))
      with (x ++ sep ++ join sep ((y :: l1) ++ l2))%string.
    rewrite IH by discriminate.
    change (join sep (x :: y :: l1)) with (x ++ sep ++ join sep (y :: l1))%string.
    rewrite !append_assoc. reflexivity.
Qed.

Lemma render_app (master : bool) (segs1 segs2 : list segment) :
  segs1 <> [] -> segs2 <> [] ->
  (render master segs1 ++ "/" ++ render false segs2)%string
  = render master (segs1 ++ segs2).
Proof.
  intros H1 H2. unfold render. rewrite map_app.
  assert (M1 : List.map segment_string segs1 <> [])
    by (destruct segs1; [contradiction|discriminate]).
  assert (M2 : List.map segment_string segs2 <> [])
    by (destruct segs2; [contradiction|discriminate]).
  rewrite (@join_app "/" _ _ M1 M2).
  cbn [String.append]. rewrite !append_assoc. reflexivity.
Qed.

(** X16. Paths compose: for an accepted path [p] and an accepted relative
    path [q] (one that does not start with [m]), resolving [p/q] from a node
    is resolving [p] from it and then [q] from the result, errors included. *)
Theorem derivePath_compose
  (ecc : Ecc) (crypto : Crypto) (allocUnsafe : nat -> Buffer)
  (this : BIP32) (p q : string) :
  BIP32Path p = true -> BIP32Path q = true -> String.prefix "m" q = false ->
  derivePath ecc crypto allocUnsafe this (p ++ "/" ++ q)
  = (n <- derivePath ecc crypto allocUnsafe this p ;;
     derivePath ecc crypto allocUnsafe n q).
Proof.
  intros Hp Hq Hrel.
  apply BIP32Path_language in Hp. destruct Hp as (m1 & segs1 & Hne1 & Hall1 & ->).
  apply BIP32Path_language in Hq. destruct Hq as (m2 & segs2 & Hne2 & Hall2 & ->).
  destruct m2; [discriminate Hrel|].
  rewrite (@render_app m1 segs1 segs2 Hne1 Hne2).
  assert (Hne12 : segs1 ++ segs2 <> [])
    by (destruct segs1; [contradiction|discriminate]).
  assert (Hall12 : Forall segment_ok (segs1 ++ segs2))
    by (apply Forall_app; auto).
  rewrite (@derivePath_render ecc crypto allocUnsafe this m1 (segs1 ++ segs2)
             Hne12 Hall12).
  rewrite (@derivePath_render ecc crypto allocUnsafe this m1 segs1 Hne1 Hall1).
  destruct (m1 && negb (parentFingerprint this =? 0)); [reflexivity|].
  rewrite fold_left_app, fold_apply_segment_bind.
  destruct (fold_left (apply_segment ecc crypto allocUnsafe) segs1 (Ok this))
    as [n|e]; [|reflexivity].
  cbn [bind].
  rewrite (@derivePath_render ecc crypto allocUnsafe n false segs2 Hne2 Hall2).
  reflexivity.
Qed.

Lemma derivePath_compose_witness :
  derivePath Reference.ecc Reference.crypto Reference.allocUnsafe
    Reference.root5 ("m/0'" ++ "/" ++ "1/2")
  = (n <- derivePath Reference.ecc Reference.crypto Reference.allocUnsafe
            Reference.root5 "m/0'" ;;
     derivePath Reference.ecc Reference.crypto Reference.allocUnsafe n "1/2").
Proof.
  apply derivePath_compose; reflexivity.
Defined.

Lemma deriveHardened_private
  (ecc : Ecc) (crypto : Crypto) (allocUnsafe : nat -> Buffer)
  (this : BIP32) (j : Z) (child : BIP32) :
  deriveHardened ecc crypto allocUnsafe this j = Ok child ->
  isNeutered this = false
  /\ derive ecc crypto allocUnsafe this (j + HIGHEST_BIT) = Ok child.
Proof.
  unfold deriveHardened, typeforce, guard.
  destruct (UInt31 j) eqn:Hu; cbn [bind]; [|discriminate].
  intro H. split; [|exact H].
  destruct (isNeutered this) eqn:En; [|reflexivity].
  unfold UInt31, UInt32, UINT31_MAX in Hu.
  apply andb_true_iff in Hu. destruct Hu as [Hu Hmax].
  apply andb_true_iff in Hu. destruct Hu as [Hmin _].
  apply Z.leb_le in Hmin. apply Z.leb_le in Hmax.
  change (2 ^ 31 - 1) with 2147483647 in Hmax.
  rewrite derive_hardened_neutered in H
    by (try assumption; unfold HIGHEST_BIT; lia).
  discriminate H.
Qed.

Lemma fold_apply_segment_invariants
  (ecc : Ecc) (crypto : Crypto) (allocUnsafe : nat -> Buffer)
  (segs : list segment) :
  forall n0 hd,
    fold_left (apply_segment ecc crypto allocUnsafe) segs (Ok n0) = Ok hd ->
    depth hd = depth n0 + Z.of_nat (length segs)
    /\ network hd = network n0
    /\ isNeutered hd = isNeutered n0
    /\ (isNeutered n0 = true -> Forall (fun seg => fst seg = false) segs).
Proof.
  induction segs as [|seg segs IH]; intros n0 hd H.
  - cbn in H. apply Ok_inj in H. subst hd. cbn [length].
    repeat split; try lia. intros _. constructor.
  - cbn [fold_left] in H.
    destruct (apply_segment ecc crypto allocUnsafe (Ok n0) seg) as [n1|e] eqn:E;
      [|rewrite fold_apply_segment_Err in H; discriminate H].
    destruct (IH n1 hd H) as (Hd & Hn & Hk & Hh).
    assert (Hstep : isNeutered n1 = isNeutered n0 /\ network n1 = network n0
                    /\ depth n1 = depth n0 + 1
                    /\ (isNeutered n0 = true -> fst seg = false)).
    { unfold apply_segment in E. cbn [bind] in E.
      destruct (fst seg).
      - apply deriveHardened_private in E. destruct E as [Hpriv E].
        apply derive_keeps_neutered_state in E.
        destruct E as (E1 & E2 & E3). repeat split; try assumption. congruence.
      - apply derive_keeps_neutered_state in E.
        destruct E as (E1 & E2 & E3). auto. }
    destruct Hstep as (S1 & S2 & S3 & S4).
    cbn [length]. repeat split; try congruence; try lia.
    intro Hneut. constructor; [exact (S4 Hneut)|].
    apply Hh. congruence.
Qed.

(** X17. What [derivePath] returns: the path was an optional [m/] (allowed
    only when the node's parent fingerprint is 0) and one or more well-formed
    segments; the result is exactly one level deeper per segment, so it is
    never the node itself; it keeps the network and the neutered state; and
    from a neutered node no segment was hardened. *)
Theorem derivePath_result
  (ecc : Ecc) (crypto : Crypto) (allocUnsafe : nat -> Buffer)
  (this : BIP32) (path : string) (hd : BIP32) :
  derivePath ecc crypto allocUnsafe this path = Ok hd ->
  exists master segs,
    path = render master segs /\ segs <> [] /\ Forall segment_ok segs
    /\ (master = true -> parentFingerprint this = 0)
    /\ depth hd = depth this + Z.of_nat (length segs)
    /\ depth this < depth hd
    /\ network hd = network this
    /\ isNeutered hd = isNeutered this
    /\ (isNeutered this = true -> Forall (fun seg => fst seg = false) segs).
Proof.
  intro H.
  assert (Hguard : BIP32Path path = true).
  { unfold derivePath, typeforce, guard in H.
    destruct (BIP32Path path); [reflexivity|discriminate H]. }
  apply BIP32Path_language in Hguard.
  destruct Hguard as (master & segs & Hne & Hall & ->).
  exists master, segs.
  rewrite (@derivePath_render ecc crypto allocUnsafe this master segs Hne Hall) in H.
  split; [reflexivity|]. split; [exact Hne|]. split; [exact Hall|].
  destruct (master && negb (parentFingerprint this =? 0)) eqn:Em;
    [discriminate H|].
  apply fold_apply_segment_invariants in H. destruct H as (Hd & Hn & Hk & Hh).
  split.
  { intros ->. cbn [andb] in Em. apply negb_false_iff in Em.
    apply Z.eqb_eq in Em. exact Em. }
  split; [exact Hd|]. split; [|auto].
  destruct segs; [contradiction|]. cbn [length] in Hd. lia.
Qed.

Lemma derivePath_result_witness :
  exists hd,
    derivePath Reference.ecc Reference.crypto Reference.allocUnsafe
      Reference.root5 "m/0'/1" = Ok hd
    /\ depth hd = 2 /\ isNeutered hd = false.
Proof.
  destruct (derivePath Reference.ecc Reference.crypto Reference.allocUnsafe
              Reference.root5 "m/0'/1") as [hd|e] eqn:E;
    [|vm_compute in E; discriminate E].
  destruct (@derivePath_result _ _ _ _ _ _ E)
    as (master & segs & _ & _ & _ & _ & _ & _ & _ & Hk & _).
  exists hd. split; [reflexivity|]. split; [|exact Hk].
  vm_compute in E. apply Ok_inj in E. subst hd. reflexivity.
Defined.
